(** * bind: a client for the statistics API of a BIND name server

    Shallow embedding of [bind/bind.go] (package [bind]) and of the parts of
    the Go standard library whose behaviour the package relies on
    ([path.Join], [fmt.Errorf], [strconv.ParseInt]/[ParseUint] and the
    struct-tag driven element decoding of [encoding/xml]).

    Go strings are byte strings; they are modelled by [string], whose
    characters are the 256 byte values. *)

From Stdlib Require Import String Ascii List ZArith Lia Bool.
Import ListNotations.

Local Open Scope list_scope.
Local Open Scope string_scope.

(** ** Package [path] of the Go standard library *)

Module path.

Definition slash : ascii := "/"%char.

(** [strings.Split(s, "/")]: the elements between the slashes; there is
    always at least one (possibly empty) element. *)
Fixpoint elements (s : string) : list string :=
  match s with
  | EmptyString => [EmptyString]
  | String c s' =>
      if Ascii.eqb c slash then EmptyString :: elements s'
      else match elements s' with
           | e :: es => String c e :: es
           | [] => [String c EmptyString]
           end
  end.

Definition rooted (s : string) : bool :=
  match s with
  | String c _ => Ascii.eqb c slash
  | EmptyString => false
  end.

(** One iteration of the loop of [path.Clean], which reads the path one
    element at a time.  [out] is the output buffer as the list of elements
    written so far, last one first.  In a rooted path nothing is written for a [..] that
    cannot backtrack; otherwise the [..] is kept, and the leading [..]
    elements are never backtracked over (the [dotdot] index of the Go
    code). *)
Definition clean_step (rt : bool) (out : list string) (e : string)
  : list string :=
  if String.eqb e "" then out
  else if String.eqb e "." then out
  else if String.eqb e ".." then
    match out with
    | top :: rest =>
        if String.eqb top ".." then (if rt then out else e :: out)
        else rest
    | [] => if rt then out else [e]
    end
  else e :: out.

Definition clean_elements (rt : bool) (es : list string) : list string :=
  rev (fold_left (clean_step rt) es []).

(** The output buffer as a string; an empty result is turned into
    a dot. *)
Definition render (rt : bool) (es : list string) : string :=
  let out := (if rt then "/" else "") ++ String.concat "/" es in
  if String.eqb out "" then "." else out.

(** [path.Clean]. *)
Definition Clean (p : string) : string :=
  if String.eqb p "" then "."
  else render (rooted p) (clean_elements (rooted p) (elements p)).

(** The buffer built by the loop of [path.Join]: empty leading elements
    are ignored, later elements are separated by a slash. *)
Definition join_step (buf : string) (e : string) : string :=
  if negb (String.eqb buf "") || negb (String.eqb e "") then
    (if negb (String.eqb buf "") then buf ++ "/" else buf) ++ e
  else buf.

(** [path.Join]. *)
Definition Join (elem : list string) : string :=
  let size := fold_left (fun n e => (n + String.length e)%nat) elem 0%nat in
  if Nat.eqb size 0 then ""
  else Clean (fold_left join_step elem "").

(** Occurrence of two consecutive slashes. *)
Fixpoint double_slash (s : string) : bool :=
  match s with
  | String a t =>
      (Ascii.eqb a slash && rooted t) || double_slash t
  | EmptyString => false
  end.

(** The elements of a cleaned path, used to compare paths element-wise. *)
Definition path_elements (p : string) : list string :=
  clean_elements (rooted p) (elements p).

(** Occurrence of a slash. *)
Fixpoint has_slash (s : string) : bool :=
  match s with
  | String a t => Ascii.eqb a slash || has_slash t
  | EmptyString => false
  end.

(** What the output buffer holds: elements that are not empty and have no
    slash. *)
Definition written (e : string) : Prop := e <> "" /\ has_slash e = false.

(** The elements of a cleaned rooted path: not empty, without slash,
    neither a dot nor two dots. *)
Definition segment (e : string) : Prop :=
  written e /\ e <> "." /\ e <> "..".

(** The elements that name something: neither empty nor a dot. *)
Definition named_element (e : string) : bool :=
  negb (String.eqb e "") && negb (String.eqb e ".").

(** [is_prefix l1 l2]: [l1] is an initial segment of [l2]. *)
Fixpoint is_prefix (l1 l2 : list string) : bool :=
  match l1, l2 with
  | [], _ => true
  | a :: l1', b :: l2' => String.eqb a b && is_prefix l1' l2'
  | _ :: _, [] => false
  end.

End path.

(** ** Error values ([errors], [fmt.Errorf]) *)

Module errors.

(** An error value: a plain message ([errors.New], and [fmt.Errorf] when
    the format has no [%w] verb), or a message together with the error it
    wraps ([fmt.Errorf] with a [%w] verb). *)
Inductive error : Type :=
| errorString (s : string)
| wrapError (msg : string) (err : error).

(** The method [Error()]. *)
Definition Error (e : error) : string :=
  match e with
  | errorString s => s
  | wrapError msg _ => msg
  end.

(** [errors.Unwrap]. *)
Definition Unwrap (e : error) : option error :=
  match e with
  | errorString _ => None
  | wrapError _ err => Some err
  end.

Fixpoint error_eqb (a b : error) : bool :=
  match a, b with
  | errorString s, errorString t => String.eqb s t
  | wrapError m e, wrapError n f => String.eqb m n && error_eqb e f
  | _, _ => false
  end.

(** [errors.Is]: [target] is [e] or occurs in the chain of errors that [e]
    wraps. *)
Fixpoint Is (e target : error) : bool :=
  error_eqb e target ||
  match e with
  | errorString _ => false
  | wrapError _ err => Is err target
  end.

End errors.

Module fmt.
Import errors.

(** The operands of a format string, one per literal piece or verb. *)
Inductive operand : Type :=
| Lit (s : string)            (* literal text of the format *)
| Vs (s : string)             (* %s applied to a string *)
| VsErr (e : error)           (* %s applied to an error: its Error() *)
| Vq (s : string)             (* %q applied to a string *)
| VwErr (e : error).          (* %w applied to an error *)

Section Format.
(** [strconv.Quote], the double-quoted Go literal of a string. *)
Variable Quote : string -> string.

Definition render (o : operand) : string :=
  match o with
  | Lit s => s
  | Vs s => s
  | VsErr e => Error e
  | Vq s => Quote s
  | VwErr e => Error e
  end.

Definition Sprintf (ops : list operand) : string :=
  String.concat "" (map render ops).

Fixpoint wrapped (ops : list operand) : option error :=
  match ops with
  | [] => None
  | VwErr e :: _ => Some e
  | _ :: ops' => wrapped ops'
  end.

(** [fmt.Errorf]: the formatted message; the result wraps the operand of
    [%w] when the format has one. *)
Definition Errorf (ops : list operand) : error :=
  match wrapped ops with
  | Some e => wrapError (Sprintf ops) e
  | None => errorString (Sprintf ops)
  end.
End Format.

End fmt.

(** ** Package [strconv]: decimal numbers *)

Module strconv.
Local Open Scope Z_scope.

Definition maxUint64 : Z := 2 ^ 64 - 1.

Inductive ErrKind : Type := ErrSyntax | ErrRange.

(** [strconv.NumError]. *)
Record NumError : Type := mkNumError {
  Func : string;
  Num : string;
  Err : ErrKind
}.

Definition byte (c : ascii) : Z := Z.of_N (N_of_ascii c).

(** The digits [0] to [9]. *)
Definition is_digit (c : ascii) : bool :=
  (byte "0" <=? byte c) && (byte c <=? byte "9").

(** The loop of [ParseUint] for [base = 10] and [bitSize = 64]: [n] is the
    number read so far; the second component is the value returned with
    the error. *)
Fixpoint parse_loop (s : string) (n : Z) : Z * option ErrKind :=
  match s with
  | EmptyString => (n, None)
  | String c s' =>
      if is_digit c then
        let d := byte c - byte "0" in
        let cutoff := maxUint64 / 10 + 1 in
        if n >=? cutoff then (maxUint64, Some ErrRange)
        else
          let n := (n * 10) mod 2 ^ 64 in
          let n1 := (n + d) mod 2 ^ 64 in
          if (n1 <? n) || (n1 >? maxUint64) then (maxUint64, Some ErrRange)
          else parse_loop s' n1
      else (0, Some ErrSyntax)
  end.

(** [strconv.ParseUint(s, 10, 64)]. *)
Definition ParseUint (s : string) : Z * option NumError :=
  if String.eqb s "" then (0, Some (mkNumError "ParseUint" s ErrSyntax))
  else
    match parse_loop s 0 with
    | (n, None) => (n, None)
    | (n, Some k) => (n, Some (mkNumError "ParseUint" s k))
    end.

(** [strconv.ParseInt(s, 10, 64)]. *)
Definition ParseInt (s0 : string) : Z * option NumError :=
  match s0 with
  | EmptyString => (0, Some (mkNumError "ParseInt" s0 ErrSyntax))
  | String c rest =>
      let neg := Ascii.eqb c "-" in
      let s := if Ascii.eqb c "+" then rest
               else if Ascii.eqb c "-" then rest else s0 in
      let cutoff := 2 ^ 63 in
      match ParseUint s with
      | (_, Some {| Err := ErrSyntax |}) =>
          (0, Some (mkNumError "ParseInt" s0 ErrSyntax))
      | (un, _) =>
          if negb neg && (un >=? cutoff) then
            (cutoff - 1, Some (mkNumError "ParseInt" s0 ErrRange))
          else if neg && (un >? cutoff) then
            (- cutoff, Some (mkNumError "ParseInt" s0 ErrRange))
          else (if neg then - un else un, None)
      end
  end.

Fixpoint all_digits (s : string) : bool :=
  match s with
  | EmptyString => true
  | String c s' => is_digit c && all_digits s'
  end.

(** The number that the decimal digits [s] make after the digits of [n],
    without bound. *)
Fixpoint digits_value (s : string) (n : Z) : Z :=
  match s with
  | EmptyString => n
  | String c s' => digits_value s' (n * 10 + (byte c - byte "0"))
  end.

(** [strconv.FormatUint(n, 10)], for the statements about decoding. *)
Fixpoint format_digits (fuel : nat) (n : Z) (acc : string) : string :=
  match fuel with
  | O => acc
  | S fuel' =>
      let acc := String (ascii_of_N (Z.to_N (byte "0" + n mod 10))) acc in
      if n / 10 =? 0 then acc else format_digits fuel' (n / 10) acc
  end.

Definition FormatUint (n : Z) : string :=
  format_digits (S (Z.to_nat (Z.log2 n))) n "".

(** [strconv.FormatInt(n, 10)]. *)
Definition FormatInt (n : Z) : string :=
  if n <? 0 then String "-" (FormatUint (- n)) else FormatUint n.

(** The strings that are decimal numbers of 64 bits: one digit or more,
    after one sign for the signed ones, of a value of the type. *)
Definition decimal_uint64 (s : string) : bool :=
  negb (String.eqb s "") && all_digits s
  && (digits_value s 0 <=? maxUint64).

Definition decimal_int64 (s0 : string) : bool :=
  match s0 with
  | EmptyString => false
  | String c rest =>
      let s := if Ascii.eqb c "+" then rest
               else if Ascii.eqb c "-" then rest else s0 in
      negb (String.eqb s "") && all_digits s
      && (if Ascii.eqb c "-" then digits_value s 0 <=? 2 ^ 63
          else digits_value s 0 <? 2 ^ 63)
  end.

End strconv.

(** ** Package [strings]: [TrimSpace] *)

Module strings.

Fixpoint rev_string (s acc : string) : string :=
  match s with
  | EmptyString => acc
  | String c s' => rev_string s' (String c acc)
  end.

Definition asciiSpace (c : ascii) : bool :=
  match c with
  | "009"%char | "010"%char | "011"%char | "012"%char | "013"%char
  | " "%char => true
  | _ => false
  end.

(** The white space runes of [unicode.IsSpace] outside ASCII, as their
    UTF-8 bytes: U+0085, U+00A0, U+1680, U+2000 to U+200A, U+2028,
    U+2029, U+202F, U+205F, U+3000. *)
Definition space2 (a b : ascii) : bool :=
  Ascii.eqb a "194" && (Ascii.eqb b "133" || Ascii.eqb b "160").

Definition space3 (a b c : ascii) : bool :=
  (Ascii.eqb a "225" && Ascii.eqb b "154" && Ascii.eqb c "128")
  || (Ascii.eqb a "226" && Ascii.eqb b "128"
      && ((N_of_ascii c <=? 138)%N && (128 <=? N_of_ascii c)%N
          || Ascii.eqb c "168" || Ascii.eqb c "169" || Ascii.eqb c "175"))
  || (Ascii.eqb a "226" && Ascii.eqb b "129" && Ascii.eqb c "159")
  || (Ascii.eqb a "227" && Ascii.eqb b "128" && Ascii.eqb c "128").

(** [TrimLeftFunc(s, unicode.IsSpace)]. *)
Fixpoint trim_left (s : string) : string :=
  match s with
  | String a s1 =>
      if asciiSpace a then trim_left s1
      else
        match s1 with
        | String b s2 =>
            if space2 a b then trim_left s2
            else
              match s2 with
              | String c s3 => if space3 a b c then trim_left s3 else s
              | EmptyString => s
              end
        | EmptyString => s
        end
  | EmptyString => s
  end.

(** [TrimRightFunc(s, unicode.IsSpace)], on the reversed string. *)
Fixpoint trim_left_rev (s : string) : string :=
  match s with
  | String a s1 =>
      if asciiSpace a then trim_left_rev s1
      else
        match s1 with
        | String b s2 =>
            if space2 b a then trim_left_rev s2
            else
              match s2 with
              | String c s3 =>
                  if space3 c b a then trim_left_rev s3 else s
              | EmptyString => s
              end
        | EmptyString => s
        end
  | EmptyString => s
  end.

Definition trim_right (s : string) : string :=
  rev_string (trim_left_rev (rev_string s "")) "".

(** [strings.TrimSpace]. *)
Definition TrimSpace (s : string) : string := trim_right (trim_left s).

(** The ASCII characters that are not white space. *)
Definition plain (c : ascii) : bool :=
  (N_of_ascii c <? 128)%N && negb (asciiSpace c).

Fixpoint all_plain (s : string) : bool :=
  match s with
  | EmptyString => true
  | String c s' => plain c && all_plain s'
  end.

(** Text made of ASCII white space: tabs, line breaks and spaces. *)
Fixpoint all_space (s : string) : bool :=
  match s with
  | EmptyString => true
  | String c s' => asciiSpace c && all_space s'
  end.

End strings.

(** ** Package [encoding/xml]: decoding an element into a Go value *)

Module xml.
Import errors.

(** A well-formed document, after tokenising: the tree of its elements,
    character data and comments.  Names are local names. *)
#[warning="-register-all"]
Inductive Node : Type :=
| Element (name : string) (attrs : list (string * string))
          (children : list Node)
| CharData (data : string)
| Comment (data : string).

Definition node_attrs (n : Node) : list (string * string) :=
  match n with
  | Element _ attrs _ => attrs
  | _ => []
  end.

Definition node_children (n : Node) : list Node :=
  match n with
  | Element _ _ children => children
  | _ => []
  end.

Definition node_name (n : Node) : option string :=
  match n with
  | Element name _ _ => Some name
  | _ => None
  end.

(** The character data directly inside an element, concatenated; the
    content of nested elements is skipped. *)
Fixpoint chardata (children : list Node) : string :=
  match children with
  | [] => ""
  | CharData d :: rest => d ++ chardata rest
  | _ :: rest => chardata rest
  end.

(** The errors of decoding a well-formed document. *)
Inductive DecodeError : Type :=
| ErrNum (e : strconv.NumError)     (* a number that does not parse *)
| ErrText (e : error)               (* an error of UnmarshalText *)
| ErrEOF.                           (* no root element *)

(** A decoder updates the value it decodes into and may stop with an
    error, leaving the value as it is at that point. *)
Definition Decoded (A : Type) : Type := A * option DecodeError.

Definition ok {A : Type} (a : A) : Decoded A := (a, None).

Definition and_then {A : Type} (r : Decoded A) (k : A -> Decoded A)
  : Decoded A :=
  match r with
  | (a, None) => k a
  | (a, Some e) => (a, Some e)
  end.

(** [copyValue] into a [string], a [uint64] and an [int64]. *)
Definition copy_string (src : string) (dst : string) : Decoded string :=
  ok src.

Definition copy_uint64 (src : string) (dst : Z) : Decoded Z :=
  if String.eqb src "" then ok 0%Z
  else
    match strconv.ParseUint (strings.TrimSpace src) with
    | (utmp, None) => ok utmp
    | (_, Some e) => (dst, Some (ErrNum e))
    end.

Definition copy_int64 (src : string) (dst : Z) : Decoded Z :=
  if String.eqb src "" then ok 0%Z
  else
    match strconv.ParseInt (strings.TrimSpace src) with
    | (itmp, None) => ok itmp
    | (_, Some e) => (dst, Some (ErrNum e))
    end.

(** The texts of numbers: no text at all, or a decimal number of the
    type with white space around it. *)
Definition uint64_text (src : string) : bool :=
  String.eqb src "" || strconv.decimal_uint64 (strings.TrimSpace src).

Definition int64_text (src : string) : bool :=
  String.eqb src "" || strconv.decimal_int64 (strings.TrimSpace src).

(** [unmarshal] of an element into a value of basic type: the character
    data of the element is copied into the value. *)
Definition unmarshal_string (e : Node) (dst : string) : Decoded string :=
  copy_string (chardata (node_children e)) dst.

Definition unmarshal_uint64 (e : Node) (dst : Z) : Decoded Z :=
  copy_uint64 (chardata (node_children e)) dst.

Definition unmarshal_int64 (e : Node) (dst : Z) : Decoded Z :=
  copy_int64 (chardata (node_children e)) dst.

(** [unmarshalTextInterface]: the character data of the element is given
    to the method [UnmarshalText] of the value. *)
Definition unmarshal_text {T : Type}
  (UnmarshalText : string -> T -> T * option error)
  (e : Node) (dst : T) : Decoded T :=
  match UnmarshalText (chardata (node_children e)) dst with
  | (t, None) => ok t
  | (t, Some err) => (t, Some (ErrText err))
  end.

(** [unmarshal] of an element into a slice: the slice grows by one value,
    the element is decoded into it, and the slice is cut back when that
    fails.  The value that the slice grows by is the next one of its
    backing array.  A list stands for a slice whose spare capacity holds
    zero values only, which is so for the zero value (a nil slice) and
    for every slice that a decode without error grows from it: the new
    value is then [zero].  When the decode of the element fails, the
    slice is cut back to [dst] and its spare capacity keeps what the
    decode wrote: the list says what the slice holds, not what a later
    decode into the same target would grow it by.  Decoding into a target
    that an earlier decode failed on is outside of this model. *)
Definition unmarshal_slice {T : Type} (zero : T)
  (unmarshal : Node -> T -> Decoded T) (e : Node) (dst : list T)
  : Decoded (list T) :=
  match unmarshal e zero with
  | (t, None) => ok (dst ++ [t])%list
  | (_, Some err) => (dst, Some err)
  end.

(** The loop over the tokens inside an element: each one is handled in
    turn, up to the first error. *)
Fixpoint tokens {S : Type} (f : Node -> S -> Decoded S) (cs : list Node)
  (s : S) : Decoded S :=
  match cs with
  | [] => ok s
  | c :: cs' => and_then (f c s) (tokens f cs')
  end.

(** [lift f r]: the result [r] of a decoder with its value changed
    by [f]. *)
Definition lift {S : Type} (f : S -> S) (r : Decoded S) : Decoded S :=
  (f (fst r), snd r).

Section Struct.
Variable S : Type.

(** [fieldInfo]: what the tag of a struct field says. *)
Inductive fieldInfo : Type :=
| fAttr (name : string) (dec : string -> S -> Decoded S)
| fCharData (dec : string -> S -> Decoded S)
| fElement (parents : list string) (name : string)
           (dec : Node -> S -> Decoded S).

(** A field of type [T], read by [get] and written by [set], decoded by
    [unmarshal]. *)
Definition field {T A : Type} (get : S -> T) (set : T -> S -> S)
  (unmarshal : A -> T -> Decoded T) (a : A) (s : S) : Decoded S :=
  match unmarshal a (get s) with
  | (t, r) => (set t s, r)
  end.

(** The struct has no field tagged [attr] or [chardata]. *)
Definition elements_only (fs : list fieldInfo) : bool :=
  forallb (fun f => match f with fElement _ _ _ => true | _ => false end) fs.

(** The names of the child elements that the fields take: the name of the
    field, or the first element of its path. *)
Definition child_names (fs : list fieldInfo) : list string :=
  flat_map (fun f => match f with
                     | fElement [] name _ => [name]
                     | fElement (p :: _) _ _ => [p]
                     | _ => []
                     end) fs.

Variable fields : list fieldInfo.

(** The attributes: every attribute is stored in the fields tagged
    [attr] that have its name. *)
Fixpoint unmarshal_attr (fs : list fieldInfo) (a : string * string)
  (s : S) : Decoded S :=
  match fs with
  | [] => ok s
  | fAttr name dec :: fs' =>
      if String.eqb (fst a) name then
        and_then (dec (snd a) s) (unmarshal_attr fs' a)
      else unmarshal_attr fs' a s
  | _ :: fs' => unmarshal_attr fs' a s
  end.

Fixpoint unmarshal_attrs (attrs : list (string * string)) (s : S)
  : Decoded S :=
  match attrs with
  | [] => ok s
  | a :: attrs' =>
      and_then (unmarshal_attr fields a s) (unmarshal_attrs attrs')
  end.

(** The character data goes to the first field tagged [chardata]. *)
Fixpoint unmarshal_chardata (fs : list fieldInfo) (data : string) (s : S)
  : Decoded S :=
  match fs with
  | [] => ok s
  | fCharData dec :: _ => dec data s
  | _ :: fs' => unmarshal_chardata fs' data s
  end.

(** The search of [unmarshalPath] through the fields, for an element
    [name] met below the elements [parents]. *)
Inductive pathMatch : Type :=
| Perfect (dec : Node -> S -> Decoded S)
| Prefix (parents : list string)
| NoMatch.

Fixpoint same_parents (parents fparents : list string) : bool :=
  match parents, fparents with
  | [], _ => true
  | p :: ps, f :: fps => String.eqb p f && same_parents ps fps
  | _ :: _, [] => false
  end.

Fixpoint find_field (fs : list fieldInfo) (parents : list string)
  (name : string) : pathMatch :=
  match fs with
  | [] => NoMatch
  | fElement fparents fname dec :: fs' =>
      if negb (same_parents parents fparents) then
        find_field fs' parents name
      else if Nat.eqb (length fparents) (length parents)
              && String.eqb fname name then Perfect dec
      else if Nat.ltb (length parents) (length fparents)
              && String.eqb (nth (length parents) fparents "") name
      then Prefix (firstn (length parents + 1) fparents)
      else find_field fs' parents name
  | _ :: fs' => find_field fs' parents name
  end.

(** [unmarshalPath]: the element is decoded into the field it matches,
    or searched for the elements of a field whose path goes through it;
    the result says whether the element was consumed. *)
Fixpoint unmarshalPath (parents : list string) (e : Node) (s : S)
  : bool * Decoded S :=
  match e with
  | Element name _ children =>
      match find_field fields parents name with
      | Perfect dec => (true, dec e s)
      | Prefix parents' =>
          (true,
           tokens (fun c s => snd (unmarshalPath parents' c s)) children s)
      | NoMatch => (false, ok s)
      end
  | _ => (false, ok s)
  end.

(** The tokens inside the element: child elements go through
    [unmarshalPath] and are skipped when no field takes them. *)
Definition unmarshal_children (cs : list Node) (s : S) : Decoded S :=
  tokens (fun c s => snd (unmarshalPath [] c s)) cs s.

(** [unmarshal] of an element into a struct. *)
Definition unmarshal_struct (e : Node) (s : S) : Decoded S :=
  and_then (unmarshal_attrs (node_attrs e) s) (fun s =>
  and_then (unmarshal_children (node_children e) s) (fun s =>
  unmarshal_chardata fields (chardata (node_children e)) s)).

End Struct.

Arguments fAttr {S} _ _.
Arguments fCharData {S} _.
Arguments fElement {S} _ _ _.
Arguments field {S T A} _ _ _ _ _.
Arguments unmarshal_struct {S} _ _ _.
Arguments unmarshal_children {S} _ _ _.
Arguments unmarshalPath {S} _ _ _ _.
Arguments find_field {S} _ _ _.
Arguments unmarshal_attrs {S} _ _ _.
Arguments unmarshal_attr {S} _ _ _.
Arguments unmarshal_chardata {S} _ _ _.
Arguments elements_only {S} _.
Arguments child_names {S} _.

(** [Decoder.Decode]: the root element is decoded into the value. *)
Definition Decode {A : Type} (unmarshal : Node -> A -> Decoded A)
  (doc : Node) (v : A) : Decoded A :=
  match doc with
  | Element _ _ _ => unmarshal doc v
  | _ => (v, Some ErrEOF)
  end.

(** The document without the child elements [name] of its root. *)
Definition named (name : string) (n : Node) : bool :=
  match n with
  | Element m _ _ => String.eqb m name
  | _ => false
  end.

Definition omit (name : string) (doc : Node) : Node :=
  match doc with
  | Element m attrs children =>
      Element m attrs (filter (fun c => negb (named name c)) children)
  | _ => doc
  end.

(** Leaving out the elements [name] of a document does no harm to a
    decoder: when the document decodes into the zero value without error,
    so does the document without these elements, and the result differs
    by the sequence read from them, which is empty. *)
Definition omission_safe {S X : Type} (unmarshal : Node -> S -> Decoded S)
  (zero : S) (name : string) (set : list X -> S -> S) : Prop :=
  forall doc s',
    Decode unmarshal doc zero = (s', None) ->
    Decode unmarshal (omit name doc) zero = (set [] s', None).

(** A document whose root element is empty decodes into the zero value
    without error and leaves it as it is. *)
Definition empty_safe {S : Type} (unmarshal : Node -> S -> Decoded S)
  (zero : S) : Prop :=
  forall name attrs,
    Decode unmarshal (Element name attrs []) zero = (zero, None).

(** A document is an element. *)
Definition is_element (n : Node) : bool :=
  match n with
  | Element _ _ _ => true
  | _ => false
  end.

(** The document has a child element [name] below its root. *)
Definition has_child (name : string) (doc : Node) : bool :=
  existsb (named name) (node_children doc).

(** The text of an element: its character data. *)
Definition text (e : Node) : string := chardata (node_children e).

(** What is asked of the content of an element, child by child: [reqs]
    gives, for names of child elements, what a child element of that name
    has to satisfy, the first entry of a name counting.  Child elements of
    other names, character data and comments are free, and no child
    element has to be there. *)
Fixpoint required (reqs : list (string * (Node -> Prop))) (name : string)
  (c : Node) : Prop :=
  match reqs with
  | [] => True
  | (n, req) :: reqs' =>
      if String.eqb n name then req c else required reqs' name c
  end.

Definition conforms_children (reqs : list (string * (Node -> Prop)))
  (cs : list Node) : Prop :=
  Forall (fun c => match c with
                   | Element m _ _ => required reqs m c
                   | _ => True
                   end) cs.

(** Leaving out the elements [name] is no error for a decoder: every
    document that satisfies [conforms] decodes into the zero value without
    error; so does the document without its elements [name], to the same
    value but for the sequence read from them, which is empty; and when
    the document has no element [name], the sequence is empty. *)
Definition omission_decodes {S X : Type} (unmarshal : Node -> S -> Decoded S)
  (zero : S) (conforms : Node -> Prop) (name : string)
  (get : S -> list X) (set : list X -> S -> S) : Prop :=
  forall doc,
    is_element doc = true -> conforms doc ->
    exists s,
      Decode unmarshal doc zero = (s, None)
      /\ Decode unmarshal (omit name doc) zero = (set [] s, None)
      /\ (has_child name doc = false -> get s = []).

End xml.

(** ** Package [bind]: the transport *)

Module bind.
Import errors fmt.

(** [url.URL], with the fields of a URL of the form
    [scheme://host/path?query]. *)
Record URL : Type := mkURL {
  Scheme : string;
  Host : string;
  Path : string;
  RawQuery : string
}.

Definition set_Path (u : URL) (p : string) : URL :=
  {| Scheme := Scheme u; Host := Host u; Path := p;
     RawQuery := RawQuery u |}.

(** [net/http]: the status code of [http.StatusOK]. *)
Definition StatusOK : Z := 200.

(** The environment of the transport: the standard library calls whose
    results depend on the outside world or on tables of the library.
    [HttpClient] stands for [*http.Client], [Net] for the state of the
    network and of the remote server, [Body] for the [io.ReadCloser] of a
    response and [V] for the value [v] points to. *)
Record Env : Type := mkEnv {
  HttpClient : Type;
  Net : Type;
  Body : Type;
  V : Type;
  (* url.Parse *)
  url_Parse : string -> URL + error;
  (* the method String of url.URL *)
  URL_String : URL -> string;
  (* strconv.Quote, used by the verb %q *)
  strconv_Quote : string -> string;
  (* the method Get of http.Client: status text, status code and body of
     the response, or an error *)
  http_Get : HttpClient -> string -> Net
             -> (string * Z * Body + error) * Net;
  (* xml.NewDecoder(body).Decode(v): v as the decoder leaves it, and the
     error if any *)
  xml_Decode : Body -> V -> Net -> V * option error * Net;
  (* Body.Close *)
  body_Close : Body -> Net -> Net
}.

Section Transport.
Context (E : Env).

(** [http.Response]. *)
Record Response : Type := mkResponse {
  Status : string;
  StatusCode : Z;
  RespBody : Body E
}.

(** What a call does to the outside world, in order. *)
Inductive Event : Type :=
| EvRequest (url : string)      (* a GET request is issued *)
| EvOpen (b : Body E)           (* a response arrives, its body is open *)
| EvRead (b : Body E)           (* the decoder reads the body *)
| EvClose (b : Body E).         (* the body is closed *)

Record World : Type := mkWorld {
  net : Net E;
  trace : list Event
}.

Definition emit (ev : Event) (w : World) : World :=
  {| net := net w; trace := (trace w ++ [ev])%list |}.

(** [XMLClient] is a generic BIND API client to retrieve statistics in
    XML format. *)
Record XMLClient : Type := mkXMLClient {
  url : string;
  http : HttpClient E
}.

(** [NewXMLClient] returns an initialized [XMLClient]. *)
Definition NewXMLClient (url : string) (c : HttpClient E) : XMLClient :=
  {| url := url; http := c |}.

(** The state a call of [Get] returns in: the error returned, the
    receiver [*c], the value [*v] and the outside world. *)
Record Result : Type := mkResult {
  err : option error;
  recv : XMLClient;
  target : V E;
  world : World
}.

Definition Errorf := fmt.Errorf (strconv_Quote E).

(** The URL string requested for the path [p] when the base URL parses
    to [u]: [u.Path = path.Join(u.Path, p)], then [u.String()]. *)
Definition target_URL (u : URL) (p : string) : string :=
  URL_String E (set_Path u (path.Join [Path u; p])).

(** [c.http.Get(u)] *)
Definition do_http_Get (c : XMLClient) (u : string) (w : World)
  : (Response + error) * World :=
  let w := emit (EvRequest u) w in
  match http_Get E (http c) u (net w) with
  | (inl (st, code, b), n) =>
      (inl {| Status := st; StatusCode := code; RespBody := b |},
       emit (EvOpen b) {| net := n; trace := trace w |})
  | (inr e, n) => (inr e, {| net := n; trace := trace w |})
  end.

(** [xml.NewDecoder(resp.Body).Decode(v)] *)
Definition do_Decode (b : Body E) (v : V E) (w : World)
  : V E * option error * World :=
  let w := emit (EvRead b) w in
  match xml_Decode E b v (net w) with
  | (v', e, n) => (v', e, {| net := n; trace := trace w |})
  end.

(** [resp.Body.Close()] *)
Definition do_Close (b : Body E) (w : World) : World :=
  emit (EvClose b) {| net := body_Close E b (net w); trace := trace w |}.

(** [defer f()]: [f] runs when the rest of the function body returns. *)
Definition defer (f : World -> World) (body : Result) : Result :=
  {| err := err body; recv := recv body; target := target body;
     world := f (world body) |}.

(** [Get] queries the given path and stores the result in the value
    pointed to by [v]. *)
Definition Get (c : XMLClient) (p : string) (v : V E) (w : World)
  : Result :=
  match url_Parse E (url c) with
  | inr err =>
      mkResult
        (Some (Errorf [Lit "invalid URL "; Vq (url c); Lit ": ";
                       VsErr err]))
        c v w
  | inl u =>
      match do_http_Get c (target_URL u p) w with
      | (inr err, w) =>
          mkResult
            (Some (Errorf [Lit "error querying stats: "; VsErr err]))
            c v w
      | (inl resp, w) =>
          defer (do_Close (RespBody resp))
            (if negb (Z.eqb (StatusCode resp) StatusOK) then
               mkResult
                 (Some (Errorf [Lit "unexpected status ";
                                Vs (Status resp)]))
                 c v w
             else
               match do_Decode (RespBody resp) v w with
               | (v', Some err, w) =>
                   mkResult
                     (Some (Errorf
                              [Lit "failed to unmarshal XML response: ";
                               VsErr err]))
                     c v' w
               | (v', None, w) => mkResult None c v' w
               end)
      end
  end.

(** The failure conditions of the transport, as the specification names
    their errors. *)
Inductive Failure : Type :=
| ErrInvalidEndpoint          (* the base URL is malformed *)
| ErrTransport                (* the request fails *)
| ErrUnexpectedStatus         (* the status is not 200 *)
| ErrDecode.                  (* the body does not decode *)

(** The failure condition that a call [Get c p v] meets in the world
    [w], if any: what the library calls answer, in the order of the
    specification. *)
Definition condition (c : XMLClient) (p : string) (v : V E) (w : World)
  : option Failure :=
  match url_Parse E (url c) with
  | inr _ => Some ErrInvalidEndpoint
  | inl u =>
      match http_Get E (http c) (target_URL u p) (net w) with
      | (inr _, _) => Some ErrTransport
      | (inl (_, code, b), n) =>
          if Z.eqb code StatusOK then
            match xml_Decode E b v n with
            | (_, Some _, _) => Some ErrDecode
            | (_, None, _) => None
            end
          else Some ErrUnexpectedStatus
      end
  end.

(** The error of the library call that fails, if one does and gives
    one. *)
Definition cause (c : XMLClient) (p : string) (v : V E) (w : World)
  : option error :=
  match url_Parse E (url c) with
  | inr e => Some e
  | inl u =>
      match http_Get E (http c) (target_URL u p) (net w) with
      | (inr e, _) => Some e
      | (inl (_, code, b), n) =>
          if Z.eqb code StatusOK then snd (fst (xml_Decode E b v n))
          else None
      end
  end.

(** What a caller can tell from the error value alone: the message
    starts with the text of one of the four formats. *)
Definition discriminate (e : error) : option Failure :=
  let msg := Error e in
  if String.prefix "invalid URL " msg then Some ErrInvalidEndpoint
  else if String.prefix "error querying stats: " msg
  then Some ErrTransport
  else if String.prefix "unexpected status " msg
  then Some ErrUnexpectedStatus
  else if String.prefix "failed to unmarshal XML response: " msg
  then Some ErrDecode
  else None.

(** The decoder has read from a body. *)
Definition is_read (ev : Event) : bool :=
  match ev with
  | EvRead _ => true
  | _ => false
  end.

Definition is_request (ev : Event) : bool :=
  match ev with
  | EvRequest _ => true
  | _ => false
  end.

Definition is_open (ev : Event) : bool :=
  match ev with
  | EvOpen _ => true
  | _ => false
  end.

Definition is_close (ev : Event) : bool :=
  match ev with
  | EvClose _ => true
  | _ => false
  end.

(** How many events of a kind a trace has. *)
Definition count (kind : Event -> bool) (tr : list Event) : nat :=
  length (filter kind tr).

(** ** Calls of [Get] that overlap

    Calls on one client share the object [*c] and the outside world.  A
    call goes through the statements of [Get] one at a time, and between
    two of them any other call may go on.  A statement reads a field of
    [*c] at most once, and what it reads is noted with the call.  No
    statement of [Get] assigns to a field of [*c]. *)

(** Where a call is in the body of [Get], with its local variables. *)
Inductive Point : Type :=
| AtParse                       (* before u, err := url.Parse(c.url) *)
| AtInvalid (e : error)         (* before return fmt.Errorf(.., c.url, err) *)
| AtRequest (u : URL)           (* before u.Path = .. and c.http.Get(..) *)
| AtStatus (resp : Response)    (* Close is deferred; before the test of
                                   the status and Decode *)
| AtClose (resp : Response) (e : option error)
                                (* returning e; before the deferred Close *)
| Returned (e : option error).  (* the call has returned e *)

(** A read of a field of the receiver, with the value read. *)
Inductive Read : Type :=
| ReadUrl (s : string)
| ReadHttp (h : HttpClient E).

(** A call: the path [p], the value [*v], where the call is, and what
    it has read from the receiver so far. *)
Record Call : Type := mkCall {
  arg_p : string;
  arg_v : V E;
  point : Point;
  reads : list Read
}.

(** What the calls share. *)
Record Shared : Type := mkShared {
  object : XMLClient;
  outside : World
}.

(** A call that has not started. *)
Definition enter (p : string) (v : V E) : Call := mkCall p v AtParse [].

(** One statement of the call [k]. *)
Definition step (sh : Shared) (k : Call) : Shared * Call :=
  let c := object sh in
  let p := arg_p k in
  let v := arg_v k in
  match point k with
  | AtParse =>
      let s := url c in
      (sh,
       mkCall p v
         match url_Parse E s with
         | inr e => AtInvalid e
         | inl u => AtRequest u
         end
         (reads k ++ [ReadUrl s]))
  | AtInvalid e =>
      let s := url c in
      (sh,
       mkCall p v
         (Returned
            (Some (Errorf [Lit "invalid URL "; Vq s; Lit ": "; VsErr e])))
         (reads k ++ [ReadUrl s]))
  | AtRequest u =>
      let h := http c in
      match do_http_Get c (target_URL u p) (outside sh) with
      | (inr e, w) =>
          (mkShared c w,
           mkCall p v
             (Returned
                (Some (Errorf [Lit "error querying stats: "; VsErr e])))
             (reads k ++ [ReadHttp h]))
      | (inl resp, w) =>
          (mkShared c w,
           mkCall p v (AtStatus resp) (reads k ++ [ReadHttp h]))
      end
  | AtStatus resp =>
      if negb (Z.eqb (StatusCode resp) StatusOK) then
        (sh,
         mkCall p v
           (AtClose resp
              (Some (Errorf [Lit "unexpected status "; Vs (Status resp)])))
           (reads k))
      else
        match do_Decode (RespBody resp) v (outside sh) with
        | (v', Some e, w) =>
            (mkShared c w,
             mkCall p v'
               (AtClose resp
                  (Some (Errorf
                           [Lit "failed to unmarshal XML response: ";
                            VsErr e])))
               (reads k))
        | (v', None, w) =>
            (mkShared c w, mkCall p v' (AtClose resp None) (reads k))
        end
  | AtClose resp e =>
      (mkShared c (do_Close (RespBody resp) (outside sh)),
       mkCall p v (Returned e) (reads k))
  | Returned _ => (sh, k)
  end.

(** The calls [ks] with [k] as the call number [i]. *)
Fixpoint put_call (i : nat) (k : Call) (ks : list Call) : list Call :=
  match ks, i with
  | [], _ => []
  | _ :: ks', O => k :: ks'
  | k0 :: ks', S i' => k0 :: put_call i' k ks'
  end.

(** The calls [ks] going on in the order [sched]: each number in
    [sched] lets the call of that number do one statement. *)
Fixpoint run (sched : list nat) (sh : Shared) (ks : list Call)
  : Shared * list Call :=
  match sched with
  | [] => (sh, ks)
  | i :: sched' =>
      match nth_error ks i with
      | Some k =>
          run sched' (fst (step sh k)) (put_call i (snd (step sh k)) ks)
      | None => run sched' sh ks
      end
  end.

(** What a call reads from a client made with [base] and [h] by
    [NewXMLClient]. *)
Definition reads_from (base : string) (h : HttpClient E) (rd : Read)
  : Prop :=
  rd = ReadUrl base \/ rd = ReadHttp h.

End Transport.

Arguments Status {E} _.
Arguments StatusCode {E} _.
Arguments RespBody {E} _.
Arguments EvRequest {E} _.
Arguments EvOpen {E} _.
Arguments EvRead {E} _.
Arguments EvClose {E} _.
Arguments net {E} _.
Arguments trace {E} _.
Arguments url {E} _.
Arguments http {E} _.
Arguments err {E} _.
Arguments recv {E} _.
Arguments target {E} _.
Arguments world {E} _.
Arguments AtParse {E}.
Arguments AtInvalid {E} _.
Arguments AtRequest {E} _.
Arguments AtStatus {E} _.
Arguments AtClose {E} _ _.
Arguments Returned {E} _.
Arguments ReadUrl {E} _.
Arguments ReadHttp {E} _.
Arguments arg_p {E} _.
Arguments arg_v {E} _.
Arguments point {E} _.
Arguments reads {E} _.
Arguments object {E} _.
Arguments outside {E} _.

(** ** Package [bind]: statistic groups *)

(** [QryRTT] is the common prefix of query round-trip histogram
    counters. *)
Definition QryRTT : string := "QryRTT".

(** [StatisticGroup] describes a sub-group of BIND statistics. *)
Definition StatisticGroup : Type := string.

(** Available statistic groups. *)
Definition ServerStats : StatisticGroup := "server".
Definition ViewStats : StatisticGroup := "view".
Definition TaskStats : StatisticGroup := "tasks".

(** The declared constants of type [StatisticGroup]. *)
Definition declared_groups : list StatisticGroup :=
  [ServerStats; ViewStats; TaskStats].

Definition is_declared (g : StatisticGroup) : bool :=
  existsb (String.eqb g) declared_groups.

(** ** Package [bind]: the statistics model *)

(** [Counter] represents a single counter value. *)
Record Counter : Type := mkCounter {
  Counter_Name : string;        (* xml:"name,attr" *)
  Counter_Counter : Z           (* uint64, xml:",chardata" *)
}.

(** [Gauge] represents a single gauge value. *)
Record Gauge : Type := mkGauge {
  Gauge_Name : string;          (* xml:"name" *)
  Gauge_Gauge : Z               (* uint64, xml:"counter" *)
}.

(** [ZoneCounter] represents a single zone counter value. *)
Record ZoneCounter : Type := mkZoneCounter {
  ZoneCounter_Name : string;
  ZoneCounter_Serial : string;
  ZoneCounter_ZoneRcode : list Counter;
  ZoneCounter_ZoneQtype : list Counter
}.

(** [ZoneView] represents statistics for a single BIND zone view. *)
Record ZoneView : Type := mkZoneView {
  ZoneView_Name : string;
  ZoneView_ZoneData : list ZoneCounter
}.

(** [View] represents statistics for a single BIND view. *)
Record View : Type := mkView {
  View_Name : string;
  View_Cache : list Gauge;
  View_ResolverStats : list Counter;
  View_ResolverQueries : list Counter
}.

(** [Task] represents a single running task. *)
Record Task : Type := mkTask {
  Task_ID : string;             (* xml:"id" *)
  Task_Name : string;           (* xml:"name" *)
  Task_Quantum : Z;             (* int64, xml:"quantum" *)
  Task_References : Z;          (* uint64, xml:"references" *)
  Task_State : string           (* xml:"state" *)
}.

(** [ThreadModel] contains task and worker information. *)
Record ThreadModel : Type := mkThreadModel {
  ThreadModel_Type : string;          (* xml:"type" *)
  ThreadModel_WorkerThreads : Z;      (* uint64, xml:"worker-threads" *)
  ThreadModel_DefaultQuantum : Z;     (* uint64, xml:"default-quantum" *)
  ThreadModel_TasksRunning : Z        (* uint64, xml:"tasks-running" *)
}.

(** [TaskManager] contains information about all running tasks. *)
Record TaskManager : Type := mkTaskManager {
  TaskManager_Tasks : list Task;          (* xml:"tasks>task" *)
  TaskManager_ThreadModel : ThreadModel   (* xml:"thread-model" *)
}.

(** The values of the Go types [int64] and [uint64]. *)
Definition is_int64 (z : Z) : Prop := (- 2 ^ 63 <= z < 2 ^ 63)%Z.
Definition is_uint64 (z : Z) : Prop := (0 <= z < 2 ^ 64)%Z.

(** Zero values. *)
Definition zero_Counter : Counter := mkCounter "" 0.
Definition zero_Gauge : Gauge := mkGauge "" 0.
Definition zero_ZoneCounter : ZoneCounter := mkZoneCounter "" "" [] [].
Definition zero_ZoneView : ZoneView := mkZoneView "" [].
Definition zero_View : View := mkView "" [] [] [].
Definition zero_Task : Task := mkTask "" "" 0 0 "".
Definition zero_ThreadModel : ThreadModel := mkThreadModel "" 0 0 0.
Definition zero_TaskManager : TaskManager :=
  mkTaskManager [] zero_ThreadModel.

(** Assignments to the fields. *)
Definition set_Counter_Name x (s : Counter) :=
  mkCounter x (Counter_Counter s).
Definition set_Counter_Counter x (s : Counter) :=
  mkCounter (Counter_Name s) x.

Definition set_Gauge_Name x (s : Gauge) := mkGauge x (Gauge_Gauge s).
Definition set_Gauge_Gauge x (s : Gauge) := mkGauge (Gauge_Name s) x.

Definition set_ZoneCounter_Name x (s : ZoneCounter) :=
  mkZoneCounter x (ZoneCounter_Serial s) (ZoneCounter_ZoneRcode s)
    (ZoneCounter_ZoneQtype s).
Definition set_ZoneCounter_Serial x (s : ZoneCounter) :=
  mkZoneCounter (ZoneCounter_Name s) x (ZoneCounter_ZoneRcode s)
    (ZoneCounter_ZoneQtype s).
Definition set_ZoneCounter_ZoneRcode x (s : ZoneCounter) :=
  mkZoneCounter (ZoneCounter_Name s) (ZoneCounter_Serial s) x
    (ZoneCounter_ZoneQtype s).
Definition set_ZoneCounter_ZoneQtype x (s : ZoneCounter) :=
  mkZoneCounter (ZoneCounter_Name s) (ZoneCounter_Serial s)
    (ZoneCounter_ZoneRcode s) x.

Definition set_ZoneView_Name x (s : ZoneView) :=
  mkZoneView x (ZoneView_ZoneData s).
Definition set_ZoneView_ZoneData x (s : ZoneView) :=
  mkZoneView (ZoneView_Name s) x.

Definition set_View_Name x (s : View) :=
  mkView x (View_Cache s) (View_ResolverStats s) (View_ResolverQueries s).
Definition set_View_Cache x (s : View) :=
  mkView (View_Name s) x (View_ResolverStats s) (View_ResolverQueries s).
Definition set_View_ResolverStats x (s : View) :=
  mkView (View_Name s) (View_Cache s) x (View_ResolverQueries s).
Definition set_View_ResolverQueries x (s : View) :=
  mkView (View_Name s) (View_Cache s) (View_ResolverStats s) x.

Definition set_Task_ID x (s : Task) :=
  mkTask x (Task_Name s) (Task_Quantum s) (Task_References s)
    (Task_State s).
Definition set_Task_Name x (s : Task) :=
  mkTask (Task_ID s) x (Task_Quantum s) (Task_References s) (Task_State s).
Definition set_Task_Quantum x (s : Task) :=
  mkTask (Task_ID s) (Task_Name s) x (Task_References s) (Task_State s).
Definition set_Task_References x (s : Task) :=
  mkTask (Task_ID s) (Task_Name s) (Task_Quantum s) x (Task_State s).
Definition set_Task_State x (s : Task) :=
  mkTask (Task_ID s) (Task_Name s) (Task_Quantum s) (Task_References s) x.

Definition set_ThreadModel_Type x (s : ThreadModel) :=
  mkThreadModel x (ThreadModel_WorkerThreads s)
    (ThreadModel_DefaultQuantum s) (ThreadModel_TasksRunning s).
Definition set_ThreadModel_WorkerThreads x (s : ThreadModel) :=
  mkThreadModel (ThreadModel_Type s) x (ThreadModel_DefaultQuantum s)
    (ThreadModel_TasksRunning s).
Definition set_ThreadModel_DefaultQuantum x (s : ThreadModel) :=
  mkThreadModel (ThreadModel_Type s) (ThreadModel_WorkerThreads s) x
    (ThreadModel_TasksRunning s).
Definition set_ThreadModel_TasksRunning x (s : ThreadModel) :=
  mkThreadModel (ThreadModel_Type s) (ThreadModel_WorkerThreads s)
    (ThreadModel_DefaultQuantum s) x.

Definition set_TaskManager_Tasks x (s : TaskManager) :=
  mkTaskManager x (TaskManager_ThreadModel s).
Definition set_TaskManager_ThreadModel x (s : TaskManager) :=
  mkTaskManager (TaskManager_Tasks s) x.

(** ** Decoding the model: what [encoding/xml] does for each struct *)

Import xml.

Definition Counter_fields : list (fieldInfo Counter) :=
  [fAttr "name" (field Counter_Name set_Counter_Name copy_string);
   fCharData (field Counter_Counter set_Counter_Counter copy_uint64)].

Definition unmarshal_Counter : Node -> Counter -> Decoded Counter :=
  unmarshal_struct Counter_fields.

Definition Gauge_fields : list (fieldInfo Gauge) :=
  [fElement [] "name" (field Gauge_Name set_Gauge_Name unmarshal_string);
   fElement [] "counter"
     (field Gauge_Gauge set_Gauge_Gauge unmarshal_uint64)].

Definition unmarshal_Gauge : Node -> Gauge -> Decoded Gauge :=
  unmarshal_struct Gauge_fields.

Definition ZoneCounter_fields : list (fieldInfo ZoneCounter) :=
  [fElement [] "Name"
     (field ZoneCounter_Name set_ZoneCounter_Name unmarshal_string);
   fElement [] "Serial"
     (field ZoneCounter_Serial set_ZoneCounter_Serial unmarshal_string);
   fElement [] "ZoneRcode"
     (field ZoneCounter_ZoneRcode set_ZoneCounter_ZoneRcode
        (unmarshal_slice zero_Counter unmarshal_Counter));
   fElement [] "ZoneQtype"
     (field ZoneCounter_ZoneQtype set_ZoneCounter_ZoneQtype
        (unmarshal_slice zero_Counter unmarshal_Counter))].

Definition unmarshal_ZoneCounter
  : Node -> ZoneCounter -> Decoded ZoneCounter :=
  unmarshal_struct ZoneCounter_fields.

Definition ZoneView_fields : list (fieldInfo ZoneView) :=
  [fElement [] "Name"
     (field ZoneView_Name set_ZoneView_Name unmarshal_string);
   fElement [] "ZoneData"
     (field ZoneView_ZoneData set_ZoneView_ZoneData
        (unmarshal_slice zero_ZoneCounter unmarshal_ZoneCounter))].

Definition unmarshal_ZoneView : Node -> ZoneView -> Decoded ZoneView :=
  unmarshal_struct ZoneView_fields.

Definition View_fields : list (fieldInfo View) :=
  [fElement [] "Name" (field View_Name set_View_Name unmarshal_string);
   fElement [] "Cache"
     (field View_Cache set_View_Cache
        (unmarshal_slice zero_Gauge unmarshal_Gauge));
   fElement [] "ResolverStats"
     (field View_ResolverStats set_View_ResolverStats
        (unmarshal_slice zero_Counter unmarshal_Counter));
   fElement [] "ResolverQueries"
     (field View_ResolverQueries set_View_ResolverQueries
        (unmarshal_slice zero_Counter unmarshal_Counter))].

Definition unmarshal_View : Node -> View -> Decoded View :=
  unmarshal_struct View_fields.

Definition Task_fields : list (fieldInfo Task) :=
  [fElement [] "id" (field Task_ID set_Task_ID unmarshal_string);
   fElement [] "name" (field Task_Name set_Task_Name unmarshal_string);
   fElement [] "quantum"
     (field Task_Quantum set_Task_Quantum unmarshal_int64);
   fElement [] "references"
     (field Task_References set_Task_References unmarshal_uint64);
   fElement [] "state" (field Task_State set_Task_State unmarshal_string)].

Definition unmarshal_Task : Node -> Task -> Decoded Task :=
  unmarshal_struct Task_fields.

(** The element [task] of a document, with the text of its five child
    elements. *)
Definition task_element (id name quantum references state : string)
  : Node :=
  Element "task" []
    [Element "id" [] [CharData id];
     Element "name" [] [CharData name];
     Element "quantum" [] [CharData quantum];
     Element "references" [] [CharData references];
     Element "state" [] [CharData state]].

Definition ThreadModel_fields : list (fieldInfo ThreadModel) :=
  [fElement [] "type"
     (field ThreadModel_Type set_ThreadModel_Type unmarshal_string);
   fElement [] "worker-threads"
     (field ThreadModel_WorkerThreads set_ThreadModel_WorkerThreads
        unmarshal_uint64);
   fElement [] "default-quantum"
     (field ThreadModel_DefaultQuantum set_ThreadModel_DefaultQuantum
        unmarshal_uint64);
   fElement [] "tasks-running"
     (field ThreadModel_TasksRunning set_ThreadModel_TasksRunning
        unmarshal_uint64)].

Definition unmarshal_ThreadModel
  : Node -> ThreadModel -> Decoded ThreadModel :=
  unmarshal_struct ThreadModel_fields.

Definition TaskManager_fields : list (fieldInfo TaskManager) :=
  [fElement ["tasks"] "task"
     (field TaskManager_Tasks set_TaskManager_Tasks
        (unmarshal_slice zero_Task unmarshal_Task));
   fElement [] "thread-model"
     (field TaskManager_ThreadModel set_TaskManager_ThreadModel
        unmarshal_ThreadModel)].

Definition unmarshal_TaskManager
  : Node -> TaskManager -> Decoded TaskManager :=
  unmarshal_struct TaskManager_fields.

(** ** Documents that the model takes

    What the decoders ask of an element: the text of an element that is
    decoded into a number is the text of a number of that type.  Elements
    that go to strings are free, and so are elements that no field
    takes. *)

Definition number_uint64 (e : Node) : Prop := uint64_text (text e) = true.
Definition number_int64 (e : Node) : Prop := int64_text (text e) = true.

Definition conforms_Counter (e : Node) : Prop := number_uint64 e.

Definition conforms_Gauge (e : Node) : Prop :=
  conforms_children [("counter", number_uint64)] (node_children e).

Definition conforms_ZoneCounter (e : Node) : Prop :=
  conforms_children
    [("ZoneRcode", conforms_Counter); ("ZoneQtype", conforms_Counter)]
    (node_children e).

Definition conforms_ZoneView (e : Node) : Prop :=
  conforms_children [("ZoneData", conforms_ZoneCounter)] (node_children e).

Definition conforms_View (e : Node) : Prop :=
  conforms_children
    [("Cache", conforms_Gauge);
     ("ResolverStats", conforms_Counter);
     ("ResolverQueries", conforms_Counter)]
    (node_children e).

Definition conforms_Task (e : Node) : Prop :=
  conforms_children
    [("quantum", number_int64); ("references", number_uint64)]
    (node_children e).

Definition conforms_ThreadModel (e : Node) : Prop :=
  conforms_children
    [("worker-threads", number_uint64);
     ("default-quantum", number_uint64);
     ("tasks-running", number_uint64)]
    (node_children e).

Definition conforms_tasks (e : Node) : Prop :=
  conforms_children [("task", conforms_Task)] (node_children e).

Definition conforms_TaskManager (e : Node) : Prop :=
  conforms_children
    [("tasks", conforms_tasks); ("thread-model", conforms_ThreadModel)]
    (node_children e).

(** ** Documents of the model

    The elements that the statistics channel of BIND writes for the values
    of the model, with numbers in decimal. *)

Definition Counter_element (tag name text : string) : Node :=
  Element tag [("name", name)] [CharData text].

Definition Gauge_element (tag name text : string) : Node :=
  Element tag []
    [Element "name" [] [CharData name];
     Element "counter" [] [CharData text]].

Definition ThreadModel_element (type workers quantum running : string)
  : Node :=
  Element "thread-model" []
    [Element "type" [] [CharData type];
     Element "worker-threads" [] [CharData workers];
     Element "default-quantum" [] [CharData quantum];
     Element "tasks-running" [] [CharData running]].

Definition encode_Counter (tag : string) (c : Counter) : Node :=
  Counter_element tag (Counter_Name c)
    (strconv.FormatUint (Counter_Counter c)).

Definition encode_Gauge (tag : string) (g : Gauge) : Node :=
  Gauge_element tag (Gauge_Name g) (strconv.FormatUint (Gauge_Gauge g)).

Definition encode_Task (t : Task) : Node :=
  task_element (Task_ID t) (Task_Name t)
    (strconv.FormatInt (Task_Quantum t))
    (strconv.FormatUint (Task_References t)) (Task_State t).

Definition encode_ThreadModel (m : ThreadModel) : Node :=
  ThreadModel_element (ThreadModel_Type m)
    (strconv.FormatUint (ThreadModel_WorkerThreads m))
    (strconv.FormatUint (ThreadModel_DefaultQuantum m))
    (strconv.FormatUint (ThreadModel_TasksRunning m)).

Definition encode_TaskManager (tm : TaskManager) : Node :=
  Element "taskmgr" []
    [encode_ThreadModel (TaskManager_ThreadModel tm);
     Element "tasks" [] (map encode_Task (TaskManager_Tasks tm))].

Definition encode_View (tag : string) (v : View) : Node :=
  Element tag []
    (Element "Name" [] [CharData (View_Name v)]
     :: map (encode_Gauge "Cache") (View_Cache v)
     ++ map (encode_Counter "ResolverStats") (View_ResolverStats v)
     ++ map (encode_Counter "ResolverQueries") (View_ResolverQueries v))%list.

Definition encode_ZoneCounter (tag : string) (z : ZoneCounter) : Node :=
  Element tag []
    (Element "Name" [] [CharData (ZoneCounter_Name z)]
     :: Element "Serial" [] [CharData (ZoneCounter_Serial z)]
     :: map (encode_Counter "ZoneRcode") (ZoneCounter_ZoneRcode z)
     ++ map (encode_Counter "ZoneQtype") (ZoneCounter_ZoneQtype z))%list.

Definition encode_ZoneView (tag : string) (z : ZoneView) : Node :=
  Element tag []
    (Element "Name" [] [CharData (ZoneView_Name z)]
     :: map (encode_ZoneCounter "ZoneData") (ZoneView_ZoneData z)).

(** The values whose numbers are values of the Go types of their
    fields. *)
Definition valid_Counter (c : Counter) : Prop :=
  is_uint64 (Counter_Counter c).

Definition valid_Gauge (g : Gauge) : Prop := is_uint64 (Gauge_Gauge g).

Definition valid_Task (t : Task) : Prop :=
  is_int64 (Task_Quantum t) /\ is_uint64 (Task_References t).

Definition valid_ThreadModel (m : ThreadModel) : Prop :=
  is_uint64 (ThreadModel_WorkerThreads m)
  /\ is_uint64 (ThreadModel_DefaultQuantum m)
  /\ is_uint64 (ThreadModel_TasksRunning m).

Definition valid_TaskManager (tm : TaskManager) : Prop :=
  Forall valid_Task (TaskManager_Tasks tm)
  /\ valid_ThreadModel (TaskManager_ThreadModel tm).

Definition valid_View (v : View) : Prop :=
  Forall valid_Gauge (View_Cache v)
  /\ Forall valid_Counter (View_ResolverStats v)
  /\ Forall valid_Counter (View_ResolverQueries v).

Definition valid_ZoneCounter (z : ZoneCounter) : Prop :=
  Forall valid_Counter (ZoneCounter_ZoneRcode z)
  /\ Forall valid_Counter (ZoneCounter_ZoneQtype z).

Definition valid_ZoneView (z : ZoneView) : Prop :=
  Forall valid_ZoneCounter (ZoneView_ZoneData z).

(** [time.Time] and its method [UnmarshalText], which gives the time it
    assigns and the error of parsing the text. *)
Record TimeLib : Type := mkTimeLib {
  Time : Type;
  zero_Time : Time;
  Time_UnmarshalText : string -> Time -> Time * option error
}.

Section Timed.
Context (T : TimeLib).

(** [Server] represents BIND server statistics. *)
Record Server : Type := mkServer {
  Server_BootTime : Time T;
  Server_ConfigTime : Time T;
  Server_IncomingQueries : list Counter;
  Server_IncomingRequests : list Counter;
  Server_NameServerStats : list Counter;
  Server_ZoneStatistics : list Counter;
  Server_ServerRcodes : list Counter
}.

(** [Statistics] is a generic representation of BIND statistics. *)
Record Statistics : Type := mkStatistics {
  Statistics_Server : Server;
  Statistics_Views : list View;
  Statistics_ZoneViews : list ZoneView;
  Statistics_TaskManager : TaskManager
}.

Definition zero_Server : Server :=
  mkServer (zero_Time T) (zero_Time T) [] [] [] [] [].
Definition zero_Statistics : Statistics :=
  mkStatistics zero_Server [] [] zero_TaskManager.

Definition set_Server_BootTime x (s : Server) :=
  mkServer x (Server_ConfigTime s) (Server_IncomingQueries s)
    (Server_IncomingRequests s) (Server_NameServerStats s)
    (Server_ZoneStatistics s) (Server_ServerRcodes s).
Definition set_Server_ConfigTime x (s : Server) :=
  mkServer (Server_BootTime s) x (Server_IncomingQueries s)
    (Server_IncomingRequests s) (Server_NameServerStats s)
    (Server_ZoneStatistics s) (Server_ServerRcodes s).
Definition set_Server_IncomingQueries x (s : Server) :=
  mkServer (Server_BootTime s) (Server_ConfigTime s) x
    (Server_IncomingRequests s) (Server_NameServerStats s)
    (Server_ZoneStatistics s) (Server_ServerRcodes s).
Definition set_Server_IncomingRequests x (s : Server) :=
  mkServer (Server_BootTime s) (Server_ConfigTime s)
    (Server_IncomingQueries s) x (Server_NameServerStats s)
    (Server_ZoneStatistics s) (Server_ServerRcodes s).
Definition set_Server_NameServerStats x (s : Server) :=
  mkServer (Server_BootTime s) (Server_ConfigTime s)
    (Server_IncomingQueries s) (Server_IncomingRequests s) x
    (Server_ZoneStatistics s) (Server_ServerRcodes s).
Definition set_Server_ZoneStatistics x (s : Server) :=
  mkServer (Server_BootTime s) (Server_ConfigTime s)
    (Server_IncomingQueries s) (Server_IncomingRequests s)
    (Server_NameServerStats s) x (Server_ServerRcodes s).
Definition set_Server_ServerRcodes x (s : Server) :=
  mkServer (Server_BootTime s) (Server_ConfigTime s)
    (Server_IncomingQueries s) (Server_IncomingRequests s)
    (Server_NameServerStats s) (Server_ZoneStatistics s) x.

Definition set_Statistics_Server x (s : Statistics) :=
  mkStatistics x (Statistics_Views s) (Statistics_ZoneViews s)
    (Statistics_TaskManager s).
Definition set_Statistics_Views x (s : Statistics) :=
  mkStatistics (Statistics_Server s) x (Statistics_ZoneViews s)
    (Statistics_TaskManager s).
Definition set_Statistics_ZoneViews x (s : Statistics) :=
  mkStatistics (Statistics_Server s) (Statistics_Views s) x
    (Statistics_TaskManager s).
Definition set_Statistics_TaskManager x (s : Statistics) :=
  mkStatistics (Statistics_Server s) (Statistics_Views s)
    (Statistics_ZoneViews s) x.

Definition unmarshal_Time : Node -> Time T -> Decoded (Time T) :=
  unmarshal_text (Time_UnmarshalText T).

Definition Server_fields : list (fieldInfo Server) :=
  [fElement [] "BootTime"
     (field Server_BootTime set_Server_BootTime unmarshal_Time);
   fElement [] "ConfigTime"
     (field Server_ConfigTime set_Server_ConfigTime unmarshal_Time);
   fElement [] "IncomingQueries"
     (field Server_IncomingQueries set_Server_IncomingQueries
        (unmarshal_slice zero_Counter unmarshal_Counter));
   fElement [] "IncomingRequests"
     (field Server_IncomingRequests set_Server_IncomingRequests
        (unmarshal_slice zero_Counter unmarshal_Counter));
   fElement [] "NameServerStats"
     (field Server_NameServerStats set_Server_NameServerStats
        (unmarshal_slice zero_Counter unmarshal_Counter));
   fElement [] "ZoneStatistics"
     (field Server_ZoneStatistics set_Server_ZoneStatistics
        (unmarshal_slice zero_Counter unmarshal_Counter));
   fElement [] "ServerRcodes"
     (field Server_ServerRcodes set_Server_ServerRcodes
        (unmarshal_slice zero_Counter unmarshal_Counter))].

Definition unmarshal_Server : Node -> Server -> Decoded Server :=
  unmarshal_struct Server_fields.

Definition Statistics_fields : list (fieldInfo Statistics) :=
  [fElement [] "Server"
     (field Statistics_Server set_Statistics_Server unmarshal_Server);
   fElement [] "Views"
     (field Statistics_Views set_Statistics_Views
        (unmarshal_slice zero_View unmarshal_View));
   fElement [] "ZoneViews"
     (field Statistics_ZoneViews set_Statistics_ZoneViews
        (unmarshal_slice zero_ZoneView unmarshal_ZoneView));
   fElement [] "TaskManager"
     (field Statistics_TaskManager set_Statistics_TaskManager
        unmarshal_TaskManager)].

Definition unmarshal_Statistics
  : Node -> Statistics -> Decoded Statistics :=
  unmarshal_struct Statistics_fields.

(** The text of the element is one that [UnmarshalText] of [time.Time]
    takes. *)
Definition time_text (e : Node) : Prop :=
  forall t, snd (Time_UnmarshalText T (text e) t) = None.

Definition conforms_Server (e : Node) : Prop :=
  conforms_children
    [("BootTime", time_text);
     ("ConfigTime", time_text);
     ("IncomingQueries", conforms_Counter);
     ("IncomingRequests", conforms_Counter);
     ("NameServerStats", conforms_Counter);
     ("ZoneStatistics", conforms_Counter);
     ("ServerRcodes", conforms_Counter)]
    (node_children e).

Definition conforms_Statistics (e : Node) : Prop :=
  conforms_children
    [("Server", conforms_Server);
     ("Views", conforms_View);
     ("ZoneViews", conforms_ZoneView);
     ("TaskManager", conforms_TaskManager)]
    (node_children e).

End Timed.

(** ** The statistics client *)

Section Client.
Context (E : Env) (T : TimeLib).

(** Modelled from the spec: what the specification leaves to the
    implementation of [Stats], which [bind.go] does not have: the groups
    fetched when none is requested, the path of a group, the
    fresh intermediate structure a group is decoded into, the projection
    of that structure into the aggregate, and the context added to an
    error of the transport. *)
Record ClientImpl : Type := mkClientImpl {
  defaultGroups : list StatisticGroup;
  groupPath : StatisticGroup -> string;
  rawGroup : StatisticGroup -> V E;
  project : StatisticGroup -> V E -> Statistics T -> Statistics T;
  withContext : StatisticGroup -> error -> error
}.

Context (I : ClientImpl).

(** The groups that a call fetches: the requested ones, or the default
    set when none is requested. *)
Definition requested (groups : list StatisticGroup)
  : list StatisticGroup :=
  match groups with
  | [] => defaultGroups I
  | _ => groups
  end.

(** Modelled from the spec: some [Get] that [Stats] makes for the groups,
    one after the other from the world [w] on, returns an error. *)
Fixpoint fetch_fails (c : XMLClient E) (groups : list StatisticGroup)
  (w : World E) : bool :=
  match groups with
  | [] => false
  | g :: groups' =>
      let r := Get E c (groupPath I g) (rawGroup I g) w in
      match err r with
      | Some _ => true
      | None => fetch_fails c groups' (world r)
      end
  end.

(** Modelled from the spec: the loop of [Stats] over the requested
    groups.  [bind.go] declares [Stats] in the interface [Client] and has
    no implementation of it.  For each group one [Get] against the path
    of the group decodes into a fresh intermediate structure, which is
    projected into the aggregate; the first error is returned at once,
    with its context, and with an empty [Statistics]. *)
Fixpoint fetch_groups (c : XMLClient E) (groups : list StatisticGroup)
  (stats : Statistics T) (w : World E)
  : Statistics T * option error * World E :=
  match groups with
  | [] => (stats, None, w)
  | g :: groups' =>
      let r := Get E c (groupPath I g) (rawGroup I g) w in
      match err r with
      | Some e => (zero_Statistics T, Some (withContext I g e), world r)
      | None =>
          fetch_groups c groups' (project I g (target r) stats) (world r)
      end
  end.

(** Modelled from the spec: [Stats(groups...)], the method of the
    interface [Client], which [bind.go] only declares.  Zero groups
    stand for the default set of the implementation. *)
Definition Stats (c : XMLClient E) (groups : list StatisticGroup)
  (w : World E) : Statistics T * option error * World E :=
  fetch_groups c (requested groups) (zero_Statistics T) w.

End Client.

Arguments defaultGroups {E T} _.
Arguments groupPath {E T} _ _.
Arguments rawGroup {E T} _ _.
Arguments project {E T} _ _ _ _.
Arguments withContext {E T} _ _ _.

End bind.

(** ** An environment to run the client in *)

Module example.
Import errors fmt bind xml.

(** The double quote character. *)
Definition dquote : string := String "034" "".

(** [strconv.Quote] on printable ASCII text without quotes and
    backslashes. *)
Definition Quote (s : string) : string := dquote ++ s ++ dquote.

(** The answers of [url.Parse] on the base URLs used below; the answer on
    any other string is the one the library gives on a string without
    scheme such as [":"]. *)
Definition url_Parse (s : string) : URL + error :=
  if String.eqb s "http://localhost:8053/stats" then
    inl (mkURL "http" "localhost:8053" "/stats" "")
  else if String.eqb s "http://localhost:8053" then
    inl (mkURL "http" "localhost:8053" "" "")
  else if String.eqb s "http://down.example:8053" then
    inl (mkURL "http" "down.example:8053" "" "")
  else
    inr (errorString ("parse " ++ Quote s ++ ": missing protocol scheme")).

(** The method [String] on URLs without user, fragment and characters to
    escape. *)
Definition URL_String (u : URL) : string :=
  Scheme u ++ "://" ++ Host u
  ++ (if negb (String.eqb (Path u) "") && negb (path.rooted (Path u))
      then "/" else "")
  ++ Path u
  ++ (if String.eqb (RawQuery u) "" then "" else "?" ++ RawQuery u).

(** The document of the task manager served by the example server. *)
Definition tasks_document : Node :=
  Element "statistics" []
    [Element "taskmgr" [] [];
     Element "thread-model" []
       [Element "type" [] [CharData "threaded"];
        Element "worker-threads" [] [CharData "4"];
        Element "default-quantum" [] [CharData "5"];
        Element "tasks-running" [] [CharData "1"]];
     Element "tasks" []
       [Element "task" []
          [Element "id" [] [CharData "0x7f5d"];
           Element "name" [] [CharData "server"];
           Element "references" [] [CharData "3"];
           Element "state" [] [CharData "RUNNING"];
           Element "quantum" [] [CharData "-1"]]]].

(** A document of the task manager without tasks: the thread model
    alone, with the text [workers] as the number of worker threads. *)
Definition threads_document (workers : string) : Node :=
  Element "statistics" []
    [Element "thread-model" []
       [Element "type" [] [CharData "threaded"];
        Element "worker-threads" [] [CharData workers]]].

Definition thread_model_document : Node := threads_document " 4 ".

(** A body is a well-formed document, or text that is not XML. *)
Definition Body : Type := option Node.

(** The example server: a page of task statistics, a page that is not
    XML, no other page; the host [down.example] refuses connections.
    The state of the network counts the requests. *)
Definition http_Get (_ : unit) (u : string) (n : nat)
  : (string * Z * Body + error) * nat :=
  if String.prefix "http://down.example:8053" u then
    (inr (errorString
            ("Get " ++ Quote u ++ ": dial tcp: connection refused")),
     S n)
  else if String.eqb u "http://localhost:8053/stats/tasks" then
    (inl ("200 OK", 200%Z, Some tasks_document), S n)
  else if String.eqb u "http://localhost:8053/stats/broken" then
    (inl ("200 OK", 200%Z, None), S n)
  else
    (inl ("404 Not Found", 404%Z,
          Some (Element "html" [] [CharData "not found"])), S n).

Definition NumError_Error (e : strconv.NumError) : string :=
  "strconv." ++ strconv.Func e ++ ": parsing " ++ Quote (strconv.Num e)
  ++ ": "
  ++ match strconv.Err e with
     | strconv.ErrSyntax => "invalid syntax"
     | strconv.ErrRange => "value out of range"
     end.

Definition decode_error (e : DecodeError) : error :=
  match e with
  | ErrNum ne => errorString (NumError_Error ne)
  | ErrText err => err
  | ErrEOF => errorString "EOF"
  end.

(** The decoder, for a target of type [TaskManager]. *)
Definition xml_Decode (b : Body) (v : TaskManager) (n : nat)
  : TaskManager * option error * nat :=
  match b with
  | Some doc =>
      match Decode unmarshal_TaskManager doc v with
      | (v', r) => (v', option_map decode_error r, n)
      end
  | None =>
      (v, Some (errorString "XML syntax error on line 1: unexpected EOF"),
       n)
  end.

Definition env : Env :=
  {| HttpClient := unit; Net := nat; bind.Body := Body; V := TaskManager;
     bind.url_Parse := url_Parse; bind.URL_String := URL_String;
     strconv_Quote := Quote; bind.http_Get := http_Get;
     bind.xml_Decode := xml_Decode; body_Close := fun _ n => n |}.

Definition world0 : World env := mkWorld env 0%nat [].

Definition client : XMLClient env :=
  NewXMLClient env "http://localhost:8053/stats" tt.

(** Times kept as their text. *)
Definition timelib : TimeLib :=
  {| Time := string; zero_Time := "";
     Time_UnmarshalText := fun s _ => (s, None) |}.

(** A client that fetches the task manager from the path [tasks] and has
    nothing to project for the other groups, fetched from the paths
    [server] and [view]. *)
Definition impl : ClientImpl env timelib :=
  mkClientImpl env timelib
    [ServerStats; ViewStats; TaskStats]
    (fun g => g)
    (fun _ => zero_TaskManager)
    (fun g raw stats =>
       if String.eqb g TaskStats
       then set_Statistics_TaskManager timelib raw stats else stats)
    (fun g e =>
       fmt.Errorf Quote
         [Lit "fetching group "; Vs g; Lit ": "; VwErr e]).

End example.

(** * The model on the examples of the Go documentation and tests *)

Module model_tests.
Import bind xml.

Example Clean_tests :
  map path.Clean
    [""; "abc"; "abc/def"; "a/b/c"; "."; ".."; "../.."; "../../abc"; "/abc";
     "/"; "abc/"; "abc/def/"; "a/b/c/"; "./"; "../"; "../../"; "/abc/";
     "abc//def//ghi"; "//abc"; "///abc"; "//abc//"; "abc//";
     "abc/./def"; "/./abc/def"; "abc/.";
     "abc/def/ghi/../jkl"; "abc/def/../ghi/../jkl"; "abc/def/..";
     "abc/def/../.."; "/abc/def/../.."; "abc/def/../../..";
     "/abc/def/../../.."; "abc/def/../../../ghi/jkl/../../../mno";
     "abc/./../def"; "abc//./../def"; "abc/../../././../def"]
  = ["."; "abc"; "abc/def"; "a/b/c"; "."; ".."; "../.."; "../../abc"; "/abc";
     "/"; "abc"; "abc/def"; "a/b/c"; "."; ".."; "../.."; "/abc";
     "abc/def/ghi"; "/abc"; "/abc"; "/abc"; "abc";
     "abc/def"; "/abc/def"; "abc";
     "abc/def/jkl"; "abc/jkl"; "abc";
     "."; "/"; "..";
     "/"; "../../mno";
     "def"; "def"; "../../def"].
Proof. reflexivity. Qed.

Example Join_tests :
  map path.Join
    [["a"; "b"]; ["a"; ""]; [""; "b"]; ["/"; "a"]; ["/"; ""]; ["a/"; "b"];
     ["a/"; ""]; [""; ""]; []; ["a"]; ["a"; "b"; "c"]]
  = ["a/b"; "a"; "b"; "/a"; "/"; "a/b"; "a"; ""; ""; "a"; "a/b/c"].
Proof. reflexivity. Qed.

Example ParseUint_tests :
  map strconv.ParseUint ["0"; "12"; "007"; "18446744073709551615"]
  = [(0, None); (12, None); (7, None); (18446744073709551615, None)]%Z
  /\ map (fun s => snd (strconv.ParseUint s))
       [""; "18446744073709551616"; "1x"; "+1"; "-1"; "1_0"]
     = map (fun se => Some (strconv.mkNumError "ParseUint" (fst se) (snd se)))
         [("", strconv.ErrSyntax);
          ("18446744073709551616", strconv.ErrRange);
          ("1x", strconv.ErrSyntax); ("+1", strconv.ErrSyntax);
          ("-1", strconv.ErrSyntax); ("1_0", strconv.ErrSyntax)].
Proof. split; reflexivity. Qed.

Example ParseInt_tests :
  map strconv.ParseInt
    ["0"; "-1"; "+5"; "9223372036854775807"; "-9223372036854775808"]
  = [(0, None); (-1, None); (5, None); (9223372036854775807, None);
     (-9223372036854775808, None)]%Z
  /\ map (fun s => snd (strconv.ParseInt s))
       [""; "-"; "9223372036854775808"; "-9223372036854775809"; "1e3"]
     = map (fun se => Some (strconv.mkNumError "ParseInt" (fst se) (snd se)))
         [("", strconv.ErrSyntax); ("-", strconv.ErrSyntax);
          ("9223372036854775808", strconv.ErrRange);
          ("-9223372036854775809", strconv.ErrRange);
          ("1e3", strconv.ErrSyntax)].
Proof. split; reflexivity. Qed.

Example TrimSpace_tests :
  map strings.TrimSpace
    ["  a b  "; ""; "   "; "x";
     String "194" (String "160" "12 ");
     String "009" (String "1" (String "226" (String "128" (String "138" ""))))]
  = ["a b"; ""; ""; "x"; "12"; "1"].
Proof. reflexivity. Qed.

(** A counter: the name is an attribute, the value the character data. *)
Example unmarshal_Counter_test :
  unmarshal_Counter
    (Element "counter" [("name", "QryRTT10")] [CharData " 10 "]) zero_Counter
  = (mkCounter "QryRTT10" 10, None).
Proof. reflexivity. Qed.

(** Elements that no field takes are skipped, at every level; a [task]
    outside of [tasks] is not a task. *)
Example unmarshal_TaskManager_test :
  Decode unmarshal_TaskManager
    (Element "statistics" []
       [CharData " ";
        Element "task" [] [Element "id" [] [CharData "lost"]];
        Element "tasks" []
          [Element "task" []
             [Element "id" [] [CharData "0x1"];
              Element "new-field" [] [CharData "?"];
              Element "quantum" [] [CharData "-1"]];
           Element "other" [] []];
        Element "thread-model" []
          [Element "worker-threads" [] [CharData "4"]]])
    zero_TaskManager
  = (mkTaskManager [mkTask "0x1" "" (-1) 0 ""] (mkThreadModel "" 4 0 0),
     None).
Proof. reflexivity. Qed.

(** The client against the example server. *)
Example Get_tasks_test :
  let r := Get example.env example.client "tasks" zero_TaskManager
             example.world0 in
  err r = None
  /\ target r
     = mkTaskManager [mkTask "0x7f5d" "server" (-1) 3 "RUNNING"]
         (mkThreadModel "threaded" 4 5 1).
Proof. split; reflexivity. Qed.

Example Get_errors_test :
  map (fun cp =>
         err (Get example.env (NewXMLClient example.env (fst cp) tt) (snd cp)
                zero_TaskManager example.world0))
    [("http://localhost:8053/stats", "view");
     ("http://localhost:8053/stats", "broken");
     ("http://down.example:8053", "tasks")]
  = map (fun m => Some (errors.errorString m))
      ["unexpected status 404 Not Found";
       "failed to unmarshal XML response: "
       ++ "XML syntax error on line 1: unexpected EOF";
       "error querying stats: Get " ++ example.dquote
       ++ "http://down.example:8053/tasks" ++ example.dquote
       ++ ": dial tcp: connection refused"].
Proof. reflexivity. Qed.

End model_tests.

(** * Facts about strings *)

Module string_facts.

Lemma append_nil_r (s : string) : s ++ "" = s.
Proof. induction s as [|a s IH]; cbn; [reflexivity | now rewrite IH]. Qed.

Lemma append_assoc (s t u : string) : (s ++ t) ++ u = s ++ (t ++ u).
Proof. induction s as [|a s IH]; cbn; [reflexivity | now rewrite IH]. Qed.

Lemma append_eq_nil (s t : string) : s ++ t = "" -> s = "" /\ t = "".
Proof. destruct s; cbn; [auto | discriminate]. Qed.

Lemma prefix_nil (s : string) : String.prefix "" s = true.
Proof. destruct s; reflexivity. Qed.

End string_facts.

(** * Decimal numbers: formatting, then parsing *)

Module strconv_facts.
Import strconv.
Local Open Scope Z_scope.

Lemma is_digit_bounds (c : ascii) :
  is_digit c = true -> 0 <= byte c - byte "0" <= 9.
Proof.
  unfold is_digit. intros H. apply andb_true_iff in H as [H1 H2].
  apply Z.leb_le in H1, H2. change (byte "0") with 48 in *.
  change (byte "9") with 57 in *. lia.
Qed.

Lemma digit_char (d : Z) :
  0 <= d <= 9 ->
  byte (ascii_of_N (Z.to_N (byte "0" + d))) = byte "0" + d.
Proof.
  intros H.
  assert (C : d = 0 \/ d = 1 \/ d = 2 \/ d = 3 \/ d = 4 \/ d = 5 \/ d = 6
              \/ d = 7 \/ d = 8 \/ d = 9) by lia.
  repeat (destruct C as [->|C]; [reflexivity|]). now subst.
Qed.

Lemma digit_char_is_digit (d : Z) :
  0 <= d <= 9 -> is_digit (ascii_of_N (Z.to_N (byte "0" + d))) = true.
Proof.
  intros H. unfold is_digit. rewrite (digit_char d H).
  change (byte "0") with 48. change (byte "9") with 57.
  apply andb_true_iff. split; apply Z.leb_le; lia.
Qed.

Lemma digits_value_mono (s : string) (n : Z) :
  all_digits s = true -> 0 <= n -> n <= digits_value s n.
Proof.
  revert n. induction s as [|c s IH]; intros n Hs Hn;
    cbn [all_digits digits_value] in *.
  - lia.
  - apply andb_true_iff in Hs as [Hc Hs].
    apply is_digit_bounds in Hc.
    specialize (IH (n * 10 + (byte c - byte "0")) Hs). lia.
Qed.

(** On digits whose number fits 64 bits the loop of [ParseUint] meets no
    error and returns that number. *)
Lemma parse_loop_value (s : string) (n : Z) :
  all_digits s = true -> 0 <= n -> digits_value s n <= maxUint64 ->
  parse_loop s n = (digits_value s n, None).
Proof.
  revert n. induction s as [|c s IH]; intros n Hs Hn Hv;
    cbn [all_digits digits_value parse_loop] in *.
  - reflexivity.
  - apply andb_true_iff in Hs as [Hc Hs].
    rewrite Hc. apply is_digit_bounds in Hc.
    pose proof (digits_value_mono s (n * 10 + (byte c - byte "0")) Hs) as Hm.
    unfold maxUint64 in *.
    assert (Hlt : n * 10 + (byte c - byte "0") <= 2 ^ 64 - 1) by lia.
    destruct (Z.geb_spec n ((2 ^ 64 - 1) / 10 + 1)) as [Hge|_].
    { change ((2 ^ 64 - 1) / 10 + 1) with 1844674407370955162 in Hge.
      change (2 ^ 64 - 1) with 18446744073709551615 in Hlt. lia. }
    rewrite (Z.mod_small (n * 10)) by lia.
    rewrite (Z.mod_small (n * 10 + _)) by lia.
    destruct (Z.ltb_spec (n * 10 + (byte c - byte "0")) (n * 10)); [lia|].
    destruct (Z.gtb_spec (n * 10 + (byte c - byte "0")) (2 ^ 64 - 1));
      [lia|].
    cbn [orb]. apply IH; [assumption | lia | assumption].
Qed.

Lemma format_digits_all_digits (fuel : nat) (n : Z) (acc : string) :
  0 <= n -> all_digits acc = true ->
  all_digits (format_digits fuel n acc) = true.
Proof.
  revert n acc. induction fuel as [|fuel IH]; intros n acc Hn Hacc;
    cbn [format_digits].
  - exact Hacc.
  - assert (Hd : all_digits
                   (String (ascii_of_N (Z.to_N (byte "0" + n mod 10))) acc)
                 = true).
    { cbn [all_digits]. rewrite digit_char_is_digit, Hacc; [reflexivity|].
      pose proof (Z.mod_pos_bound n 10). lia. }
    destruct (n / 10 =? 0); [exact Hd|].
    apply IH; [|exact Hd]. apply Z.div_pos; lia.
Qed.

Lemma format_digits_value (fuel : nat) (n : Z) (acc : string) :
  0 <= n < 2 ^ Z.of_nat fuel ->
  digits_value (format_digits fuel n acc) 0 = digits_value acc n.
Proof.
  revert n acc. induction fuel as [|fuel IH]; intros n acc Hn.
  - cbn in *. assert (n = 0) by lia. now subst.
  - cbn [format_digits].
    pose proof (Z.mod_pos_bound n 10) as Hm.
    pose proof (Z.div_mod n 10) as Hdm.
    destruct (Z.eqb_spec (n / 10) 0) as [H0|H0].
    + cbn [digits_value]. rewrite digit_char by lia. f_equal. lia.
    + rewrite IH.
      * cbn [digits_value]. rewrite digit_char by lia. f_equal. lia.
      * rewrite Nat2Z.inj_succ, Z.pow_succ_r in Hn by lia.
        split; [apply Z.div_pos; lia|].
        apply Z.div_lt_upper_bound; lia.
Qed.

Lemma format_digits_not_empty (fuel : nat) (n : Z) (acc : string) :
  acc <> "" -> format_digits fuel n acc <> "".
Proof.
  revert n acc. induction fuel as [|fuel IH]; intros n acc Hacc;
    cbn [format_digits].
  - exact Hacc.
  - destruct (n / 10 =? 0); [discriminate|]. apply IH. discriminate.
Qed.

Lemma FormatUint_not_empty (n : Z) : FormatUint n <> "".
Proof.
  unfold FormatUint. cbn [format_digits].
  destruct (n / 10 =? 0); [discriminate|].
  apply format_digits_not_empty. discriminate.
Qed.

Lemma FormatUint_all_digits (n : Z) :
  0 <= n -> all_digits (FormatUint n) = true.
Proof.
  intros Hn. now apply format_digits_all_digits.
Qed.

Lemma FormatUint_value (n : Z) :
  0 <= n -> digits_value (FormatUint n) 0 = n.
Proof.
  intros Hn. unfold FormatUint. rewrite format_digits_value; [reflexivity|].
  split; [exact Hn|].
  destruct (Z.eq_dec n 0) as [->|Hz]; [reflexivity|].
  rewrite Nat2Z.inj_succ, Z2Nat.id by apply Z.log2_nonneg.
  apply Z.log2_spec. lia.
Qed.

(** [ParseUint] reads back what [FormatUint] writes. *)
Lemma ParseUint_FormatUint (n : Z) :
  0 <= n <= maxUint64 -> ParseUint (FormatUint n) = (n, None).
Proof.
  intros Hn. unfold ParseUint.
  destruct (String.eqb_spec (FormatUint n) "") as [H|_].
  { now apply FormatUint_not_empty in H. }
  rewrite parse_loop_value.
  - now rewrite FormatUint_value.
  - now apply FormatUint_all_digits.
  - lia.
  - rewrite FormatUint_value; lia.
Qed.

Lemma is_digit_not_sign (c : ascii) :
  is_digit c = true -> Ascii.eqb c "+" = false /\ Ascii.eqb c "-" = false.
Proof.
  intros H. apply is_digit_bounds in H. change (byte "0") with 48 in H.
  split; apply Ascii.eqb_neq; intros ->; cbn in H; lia.
Qed.

(** [ParseInt] reads back what [FormatInt] writes. *)
Lemma ParseInt_FormatInt (z : Z) :
  - 2 ^ 63 <= z < 2 ^ 63 -> ParseInt (FormatInt z) = (z, None).
Proof.
  intros Hz. unfold FormatInt. destruct (Z.ltb_spec z 0) as [Hneg|Hpos].
  - cbn [ParseInt]. cbn [Ascii.eqb Bool.eqb].
    rewrite ParseUint_FormatUint by (unfold maxUint64; lia).
    cbn [negb andb].
    destruct (Z.gtb_spec (- z) (2 ^ 63)); [lia|].
    f_equal. lia.
  - pose proof (FormatUint_all_digits z Hpos) as Hd.
    pose proof (ParseUint_FormatUint z) as Hp.
    destruct (FormatUint z) as [|c rest] eqn:Hf.
    { now apply FormatUint_not_empty in Hf. }
    cbn [ParseInt]. cbn in Hd. apply andb_true_iff in Hd as [Hc _].
    apply is_digit_not_sign in Hc as [-> ->].
    rewrite Hp by (unfold maxUint64; lia).
    cbn [negb andb].
    destruct (Z.geb_spec z (2 ^ 63)); [lia|]. reflexivity.
Qed.

(** [ParseUint] takes no sign: the text of a negative number is not
    a [uint64]. *)
Lemma ParseUint_negative (z : Z) :
  z < 0 ->
  ParseUint (FormatInt z)
  = (0, Some (mkNumError "ParseUint" (FormatInt z) ErrSyntax)).
Proof.
  intros Hz. unfold FormatInt.
  destruct (Z.ltb_spec z 0); [|lia]. reflexivity.
Qed.

(** The loop of [ParseUint] returns a [uint64]. *)
Lemma parse_loop_range (s : string) (n v : Z) :
  0 <= n <= maxUint64 -> parse_loop s n = (v, None) -> 0 <= v <= maxUint64.
Proof.
  revert n. induction s as [|c s IH]; intros n Hn H; cbn [parse_loop] in H.
  - injection H as <-. exact Hn.
  - destruct (is_digit c) eqn:Hc; [|discriminate].
    apply is_digit_bounds in Hc.
    destruct (n >=? maxUint64 / 10 + 1); [discriminate|].
    destruct (Z.ltb_spec (((n * 10) mod 2 ^ 64 + (byte c - byte "0"))
                          mod 2 ^ 64) ((n * 10) mod 2 ^ 64));
      [discriminate|].
    destruct (Z.gtb_spec (((n * 10) mod 2 ^ 64 + (byte c - byte "0"))
                          mod 2 ^ 64) maxUint64); [discriminate|].
    cbn [orb] in H. apply IH in H; [exact H|].
    split; [|assumption].
    apply Z.mod_pos_bound. reflexivity.
Qed.

Lemma ParseUint_range (s : string) (v : Z) :
  ParseUint s = (v, None) -> 0 <= v <= maxUint64.
Proof.
  unfold ParseUint. destruct (String.eqb s ""); [discriminate|].
  destruct (parse_loop s 0) as [n [k|]] eqn:H; [discriminate|].
  intros [= <-]. apply (parse_loop_range s 0); [|exact H].
  unfold maxUint64. lia.
Qed.

(** With a range error [ParseUint] returns the largest [uint64]. *)
Lemma parse_loop_range_error (s : string) (n v : Z) :
  parse_loop s n = (v, Some ErrRange) -> v = maxUint64.
Proof.
  revert n. induction s as [|c s IH]; intros n H; cbn [parse_loop] in H.
  - discriminate.
  - destruct (is_digit c); [|discriminate].
    destruct (n >=? maxUint64 / 10 + 1); [now injection H|].
    destruct ((_ <? _) || (_ >? _)); [now injection H|].
    now apply IH in H.
Qed.

Lemma ParseUint_range_error (s : string) (v : Z) (f nm : string) :
  ParseUint s = (v, Some (mkNumError f nm ErrRange)) -> v = maxUint64.
Proof.
  unfold ParseUint. destruct (String.eqb s ""); [discriminate|].
  destruct (parse_loop s 0) as [n [[]|]] eqn:H; try discriminate.
  intros [= <- _ _]. now apply parse_loop_range_error in H.
Qed.

Lemma ParseInt_range (s : string) (v : Z) :
  ParseInt s = (v, None) -> - 2 ^ 63 <= v < 2 ^ 63.
Proof.
  unfold ParseInt. destruct s as [|c rest]; [discriminate|].
  set (s' := if Ascii.eqb c "+" then rest
             else if Ascii.eqb c "-" then rest else String c rest).
  destruct (ParseUint s') as [un [[f nm []]|]] eqn:Hu; try discriminate.
  - apply ParseUint_range_error in Hu. subst un.
    destruct (Ascii.eqb c "-"); discriminate.
  - apply ParseUint_range in Hu. unfold maxUint64 in Hu.
    destruct (Ascii.eqb c "-"); cbn [negb andb].
    + destruct (Z.gtb_spec un (2 ^ 63)); [discriminate|].
      intros [= <-]. lia.
    + destruct (Z.geb_spec un (2 ^ 63)); [discriminate|].
      intros [= <-]. lia.
Qed.

(** [ParseUint] and [ParseInt] take the decimal numbers of their type. *)
Lemma ParseUint_decimal (s : string) :
  decimal_uint64 s = true -> ParseUint s = (digits_value s 0, None).
Proof.
  unfold decimal_uint64. intros H.
  apply andb_prop in H as [H Hv]. apply andb_prop in H as [He Hd].
  apply Z.leb_le in Hv. unfold ParseUint.
  destruct (String.eqb s ""); [discriminate|].
  now rewrite parse_loop_value by (try assumption; lia).
Qed.

Lemma ParseInt_decimal (s : string) :
  decimal_int64 s = true -> snd (ParseInt s) = None.
Proof.
  destruct s as [|c rest]; [discriminate|].
  unfold decimal_int64, ParseInt.
  set (s' := if Ascii.eqb c "+" then rest
             else if Ascii.eqb c "-" then rest else String c rest).
  intros H.
  apply andb_prop in H as [H Hv]. apply andb_prop in H as [He Hd].
  pose proof (digits_value_mono s' 0 Hd (Z.le_refl 0)) as H0.
  assert (Hu : decimal_uint64 s' = true).
  { unfold decimal_uint64. rewrite He, Hd. cbn [andb].
    apply Z.leb_le. unfold maxUint64.
    destruct (Ascii.eqb c "-");
      [apply Z.leb_le in Hv | apply Z.ltb_lt in Hv]; lia. }
  rewrite (ParseUint_decimal s' Hu).
  destruct (Ascii.eqb c "-"); cbn [negb andb].
  - apply Z.leb_le in Hv.
    destruct (Z.gtb_spec (digits_value s' 0) (2 ^ 63)); [lia|reflexivity].
  - apply Z.ltb_lt in Hv.
    destruct (Z.geb_spec (digits_value s' 0) (2 ^ 63)); [lia|reflexivity].
Qed.

(** They take no other string. *)
Lemma parse_loop_digits (s : string) (n v : Z) :
  0 <= n <= maxUint64 -> parse_loop s n = (v, None) ->
  all_digits s = true /\ v = digits_value s n.
Proof.
  revert n. induction s as [|c s IH]; intros n Hn H;
    cbn [parse_loop all_digits digits_value] in *.
  - injection H as <-. now split.
  - destruct (is_digit c) eqn:Hc; [|discriminate].
    apply is_digit_bounds in Hc. unfold maxUint64 in *.
    destruct (Z.geb_spec n ((2 ^ 64 - 1) / 10 + 1)) as [|Hlt];
      [discriminate|].
    change ((2 ^ 64 - 1) / 10 + 1) with 1844674407370955162 in Hlt.
    rewrite (Z.mod_small (n * 10)) in H
      by (change (2 ^ 64) with 18446744073709551616; lia).
    set (d := byte c - byte "0") in *.
    destruct (Z.ltb_spec ((n * 10 + d) mod 2 ^ 64) (n * 10)) as [|Hge];
      [discriminate|].
    destruct (Z.gtb_spec ((n * 10 + d) mod 2 ^ 64) (2 ^ 64 - 1)) as [|Hle];
      [discriminate|].
    cbn [orb andb] in H.
    assert (Hs : (n * 10 + d) mod 2 ^ 64 = n * 10 + d).
    { destruct (Z.lt_ge_cases (n * 10 + d) (2 ^ 64)) as [Hsm|Hbig].
      - apply Z.mod_small. lia.
      - exfalso.
        assert (Hm : (n * 10 + d) mod 2 ^ 64 = n * 10 + d - 2 ^ 64).
        { symmetry. apply (Z.mod_unique _ _ 1);
            [change (2 ^ 64) with 18446744073709551616 in *; lia | ring]. }
        rewrite Hm in Hge.
        change (2 ^ 64) with 18446744073709551616 in *. lia. }
    rewrite Hs in H, Hle. apply IH in H; [exact H | lia].
Qed.

Lemma ParseUint_ok_decimal (s : string) :
  snd (ParseUint s) = None -> decimal_uint64 s = true.
Proof.
  unfold ParseUint, decimal_uint64.
  destruct (String.eqb s ""); [discriminate|].
  destruct (parse_loop s 0) as [v [k|]] eqn:H; [discriminate|]. intros _.
  assert (H0 : 0 <= 0 <= maxUint64) by (unfold maxUint64; lia).
  pose proof (parse_loop_range s 0 v H0 H) as Hr.
  apply (parse_loop_digits s 0 v H0) in H as [Hd Hv]. subst v.
  rewrite Hd. cbn [negb andb]. apply Z.leb_le, Hr.
Qed.

Lemma ParseInt_ok_decimal (s : string) :
  snd (ParseInt s) = None -> decimal_int64 s = true.
Proof.
  destruct s as [|c rest]; [discriminate|].
  unfold ParseInt, decimal_int64.
  set (s' := if Ascii.eqb c "+" then rest
             else if Ascii.eqb c "-" then rest else String c rest).
  destruct (ParseUint s') as [un [[f nm []]|]] eqn:Hu; try discriminate.
  - apply ParseUint_range_error in Hu. subst un. unfold maxUint64.
    destruct (Ascii.eqb c "-"); discriminate.
  - assert (Hd : decimal_uint64 s' = true).
    { apply ParseUint_ok_decimal. now rewrite Hu. }
    rewrite (ParseUint_decimal s' Hd) in Hu. injection Hu as <-.
    unfold decimal_uint64 in Hd.
    apply andb_prop in Hd as [Hd _]. rewrite Hd. cbn [andb].
    destruct (Ascii.eqb c "-"); cbn [negb andb].
    + destruct (Z.gtb_spec (digits_value s' 0) (2 ^ 63)); [discriminate|].
      intros _. now apply Z.leb_le.
    + destruct (Z.geb_spec (digits_value s' 0) (2 ^ 63)); [discriminate|].
      intros _. now apply Z.ltb_lt.
Qed.

End strconv_facts.

(** * White space *)

Module strings_facts.
Import strings.

Lemma plain_spec (c : ascii) :
  plain c = true -> (N_of_ascii c < 128)%N /\ asciiSpace c = false.
Proof.
  unfold plain. intros H. apply andb_true_iff in H as [H1 H2].
  apply N.ltb_lt in H1. now apply negb_true_iff in H2.
Qed.

Lemma plain_not (c b : ascii) :
  plain c = true -> (128 <= N_of_ascii b)%N -> Ascii.eqb c b = false.
Proof.
  intros H Hn. apply plain_spec in H as [H _].
  apply Ascii.eqb_neq. intros ->. lia.
Qed.

Lemma space2_plain_l (a b : ascii) : plain a = true -> space2 a b = false.
Proof.
  intros H. unfold space2.
  now rewrite (plain_not a "194" H) by (cbn; lia).
Qed.

Lemma space2_plain_r (a b : ascii) : plain b = true -> space2 a b = false.
Proof.
  intros H. unfold space2.
  rewrite (plain_not b "133" H), (plain_not b "160" H) by (cbn; lia).
  apply andb_false_r.
Qed.

Lemma space3_plain_l (a b c : ascii) :
  plain a = true -> space3 a b c = false.
Proof.
  intros H. unfold space3.
  now rewrite (plain_not a "225" H), (plain_not a "226" H),
    (plain_not a "227" H) by (cbn; lia).
Qed.

Lemma space3_plain_r (a b c : ascii) :
  plain c = true -> space3 a b c = false.
Proof.
  intros H. unfold space3.
  rewrite (plain_not c "128" H), (plain_not c "168" H), (plain_not c "169" H),
    (plain_not c "175" H), (plain_not c "159" H) by (cbn; lia).
  apply plain_spec in H as [H _].
  destruct (N.leb_spec 128 (N_of_ascii c)); [lia|].
  now rewrite !andb_false_r.
Qed.

Lemma trim_left_plain (a : ascii) (s : string) :
  plain a = true -> trim_left (String a s) = String a s.
Proof.
  intros H. cbn [trim_left].
  destruct (plain_spec a H) as [_ ->].
  destruct s as [|b s]; [reflexivity|].
  rewrite space2_plain_l by exact H.
  destruct s as [|c s]; [reflexivity|].
  now rewrite space3_plain_l.
Qed.

Lemma trim_left_rev_plain (a : ascii) (s : string) :
  plain a = true -> trim_left_rev (String a s) = String a s.
Proof.
  intros H. cbn [trim_left_rev].
  destruct (plain_spec a H) as [_ ->].
  destruct s as [|b s]; [reflexivity|].
  rewrite space2_plain_r by exact H.
  destruct s as [|c s]; [reflexivity|].
  now rewrite space3_plain_r.
Qed.

Lemma rev_string_app (s acc : string) :
  rev_string s acc = rev_string s "" ++ acc.
Proof.
  revert acc. induction s as [|c s IH]; intros acc; cbn; [reflexivity|].
  rewrite IH, (IH (String c "")).
  now rewrite string_facts.append_assoc.
Qed.

Lemma rev_string_append (s t : string) :
  rev_string (s ++ t) "" = rev_string t "" ++ rev_string s "".
Proof.
  induction s as [|c s IH]; cbn.
  - now rewrite string_facts.append_nil_r.
  - rewrite rev_string_app, IH, (rev_string_app s (String c "")).
    now rewrite string_facts.append_assoc.
Qed.

Lemma rev_string_involutive (s : string) :
  rev_string (rev_string s "") "" = s.
Proof.
  induction s as [|c s IH]; cbn; [reflexivity|].
  rewrite (rev_string_app s (String c "")), rev_string_append, IH.
  reflexivity.
Qed.

Lemma all_plain_append (s t : string) :
  all_plain (s ++ t) = all_plain s && all_plain t.
Proof.
  induction s as [|c s IH]; cbn; [reflexivity|].
  now rewrite IH, andb_assoc.
Qed.

Lemma all_plain_rev (s : string) :
  all_plain (rev_string s "") = all_plain s.
Proof.
  induction s as [|c s IH]; cbn; [reflexivity|].
  rewrite (rev_string_app s (String c "")), all_plain_append, IH. cbn.
  now rewrite andb_true_r, andb_comm.
Qed.

(** Text made of ASCII characters other than white space is left as it is
    by [TrimSpace]. *)
Lemma TrimSpace_all_plain (s : string) :
  all_plain s = true -> TrimSpace s = s.
Proof.
  intros H. unfold TrimSpace. destruct s as [|a s]; [reflexivity|].
  pose proof H as H'. cbn in H'. apply andb_true_iff in H' as [Ha _].
  rewrite trim_left_plain by exact Ha. unfold trim_right.
  rewrite <- all_plain_rev in H.
  destruct (rev_string (String a s) "") as [|z t] eqn:Hr.
  - apply (f_equal (fun x => rev_string x "")) in Hr.
    now rewrite rev_string_involutive in Hr.
  - cbn in H. apply andb_true_iff in H as [Hz _].
    rewrite trim_left_rev_plain by exact Hz.
    now rewrite <- Hr, rev_string_involutive.
Qed.

Lemma digit_plain (c : ascii) : strconv.is_digit c = true -> plain c = true.
Proof.
  intros H. apply strconv_facts.is_digit_bounds in H.
  unfold strconv.byte in H. change (Z.of_N (N_of_ascii "0")) with 48%Z in H.
  unfold plain. apply andb_true_iff. split.
  - apply N.ltb_lt. lia.
  - rewrite <- (ascii_N_embedding c).
    remember (N_of_ascii c) as n.
    assert (C : (n = 48 \/ n = 49 \/ n = 50 \/ n = 51 \/ n = 52 \/ n = 53
                 \/ n = 54 \/ n = 55 \/ n = 56 \/ n = 57)%N) by lia.
    repeat (destruct C as [->|C]; [reflexivity|]). now rewrite C.
Qed.

Lemma all_digits_plain (s : string) :
  strconv.all_digits s = true -> all_plain s = true.
Proof.
  induction s as [|c s IH]; cbn; [reflexivity|].
  intros H. apply andb_true_iff in H as [Hc Hs].
  now rewrite digit_plain, IH.
Qed.

Lemma TrimSpace_FormatUint (n : Z) :
  (0 <= n)%Z -> TrimSpace (strconv.FormatUint n) = strconv.FormatUint n.
Proof.
  intros Hn. apply TrimSpace_all_plain, all_digits_plain.
  now apply strconv_facts.FormatUint_all_digits.
Qed.

Lemma TrimSpace_FormatInt (z : Z) :
  TrimSpace (strconv.FormatInt z) = strconv.FormatInt z.
Proof.
  apply TrimSpace_all_plain. unfold strconv.FormatInt.
  destruct (Z.ltb_spec z 0).
  - cbn [all_plain]. rewrite all_digits_plain; [reflexivity|].
    apply strconv_facts.FormatUint_all_digits. lia.
  - apply all_digits_plain. now apply strconv_facts.FormatUint_all_digits.
Qed.

End strings_facts.

(** * Decoding: the loop over the tokens and the fields of a struct *)

Module xml_facts.
Import xml.

Lemma and_then_ok {A : Type} (r : Decoded A) : and_then r ok = r.
Proof. destruct r as [a [e|]]; reflexivity. Qed.

Lemma and_then_accept {A : Type} (r : Decoded A) (k : A -> Decoded A) :
  snd r = None -> (forall a, snd (k a) = None) -> snd (and_then r k) = None.
Proof. destruct r as [a [e|]]; cbn; [discriminate | auto]. Qed.

Section Tokens.
Context {S : Type} (f : Node -> S -> Decoded S).

(** What every step keeps, the loop keeps, error or not. *)
Lemma tokens_inv (P : S -> Prop) (cs : list Node) (s : S) :
  (forall c s, In c cs -> P s -> P (fst (f c s))) ->
  P s -> P (fst (tokens f cs s)).
Proof.
  revert s. induction cs as [|c cs IH]; intros s Hf Hs; cbn.
  - exact Hs.
  - pose proof (Hf c s (or_introl eq_refl) Hs) as H1.
    destruct (f c s) as [s1 [e|]]; cbn in *.
    + exact H1.
    + apply IH; [|exact H1]. intros c' s' Hin. apply Hf. now right.
Qed.

(** A change of the value that commutes with every step commutes with the
    loop. *)
Lemma tokens_frame (g : S -> S) (cs : list Node) (s : S) :
  (forall c s, In c cs -> f c (g s) = lift g (f c s)) ->
  tokens f cs (g s) = lift g (tokens f cs s).
Proof.
  revert s. induction cs as [|c cs IH]; intros s Hf; cbn.
  - reflexivity.
  - rewrite (Hf c s (or_introl eq_refl)).
    destruct (f c s) as [s1 [e|]]; cbn.
    + reflexivity.
    + apply IH. intros c' s' Hin. apply Hf. now right.
Qed.

(** When every step is without error, so is the loop. *)
Lemma tokens_accept (cs : list Node) :
  Forall (fun c => forall s, snd (f c s) = None) cs ->
  forall s, snd (tokens f cs s) = None.
Proof.
  induction 1 as [|c cs Hc _ IH]; intros s; cbn; [reflexivity|].
  specialize (Hc s). destruct (f c s) as [s1 [e|]]; cbn in *;
    [discriminate | apply IH].
Qed.

Section Omit.
Context {X : Type} (get : S -> X) (set : X -> S -> S) (sel : Node -> bool).
Hypothesis get_set : forall x s, get (set x s) = x.
Hypothesis set_get : forall s, set (get s) s = s.
Hypothesis set_set : forall x y s, set x (set y s) = set x s.
Hypothesis frame :
  forall c s x, sel c = false -> f c (set x s) = lift (set x) (f c s).
Hypothesis touch :
  forall c s x, sel c = true -> set x (fst (f c s)) = set x s.

(** When the tokens selected by [sel] are the only ones to write the field
    [get], dropping them from a sequence of tokens that decodes without
    error leaves one that decodes without error, to the same value but for
    the field, which keeps its initial content. *)
Lemma tokens_omit (cs : list Node) (s s' : S) :
  tokens f cs s = (s', None) ->
  tokens f (filter (fun c => negb (sel c)) cs) s = (set (get s) s', None).
Proof.
  revert s. induction cs as [|c cs IH]; intros s H; cbn in *.
  - injection H as <-. unfold ok. now rewrite set_get.
  - destruct (f c s) as [s1 [e|]] eqn:Hf; cbn in H; [discriminate|].
    specialize (IH s1 H).
    destruct (sel c) eqn:Hsel; cbn.
    + pose proof (touch c s (get s) Hsel) as Ht.
      rewrite Hf, set_get in Ht. cbn in Ht.
      rewrite <- Ht at 1.
      rewrite tokens_frame.
      * rewrite IH. unfold lift. cbn. now rewrite set_set.
      * intros c' s0 Hin. apply frame.
        apply filter_In in Hin as [_ Hc']. now apply negb_true_iff in Hc'.
    + rewrite Hf. cbn. rewrite IH.
      pose proof (frame c s (get s) Hsel) as Hfr.
      rewrite set_get, Hf in Hfr. unfold lift in Hfr. cbn in Hfr.
      injection Hfr as Hfr.
      rewrite Hfr at 1. now rewrite get_set.
Qed.

End Omit.
End Tokens.

(** A field is decoded without error when its type is. *)
Lemma field_accept {S T A : Type} (get : S -> T) (set : T -> S -> S)
  (unmarshal : A -> T -> Decoded T) (a : A) :
  (forall t, snd (unmarshal a t) = None) ->
  forall s, snd (field get set unmarshal a s) = None.
Proof.
  intros H s. unfold field. specialize (H (get s)).
  now destruct (unmarshal a (get s)).
Qed.

Lemma slice_accept {T : Type} (zero : T)
  (unmarshal : Node -> T -> Decoded T) (e : Node) :
  (forall t, snd (unmarshal e t) = None) ->
  forall l, snd (unmarshal_slice zero unmarshal e l) = None.
Proof.
  intros H l. unfold unmarshal_slice. specialize (H zero).
  destruct (unmarshal e zero) as [t [err|]]; [discriminate|reflexivity].
Qed.

(** The document without elements that it does not have is the
    document. *)
Lemma omit_absent (name : string) (doc : Node) :
  has_child name doc = false -> omit name doc = doc.
Proof.
  destruct doc as [m attrs cs| |]; try reflexivity.
  unfold has_child. cbn. intros H. f_equal.
  induction cs as [|c cs IH]; [reflexivity|].
  cbn in *. apply orb_false_elim in H as [Hc H].
  rewrite Hc. cbn. now rewrite IH.
Qed.

(** From a decoder that takes the documents of [conforms] and to which
    leaving out the elements [name] does no harm. *)
Lemma omission_decodes_of {S X : Type} (unmarshal : Node -> S -> Decoded S)
  (zero : S) (conforms : Node -> Prop) (name : string)
  (get : S -> list X) (set : list X -> S -> S) :
  (forall x s, get (set x s) = x) ->
  (forall e, conforms e -> forall v, snd (unmarshal e v) = None) ->
  omission_safe unmarshal zero name set ->
  omission_decodes unmarshal zero conforms name get set.
Proof.
  intros get_set Hacc Hom doc Hel Hc.
  destruct (Decode unmarshal doc zero) as [s r] eqn:HD.
  assert (Hr : r = None).
  { destruct doc; try discriminate. cbn in HD.
    pose proof (Hacc _ Hc zero) as H. now rewrite HD in H. }
  subst r. exists s. split; [reflexivity|].
  pose proof (Hom doc s HD) as H. split; [exact H|].
  intros Hno. rewrite (omit_absent name doc Hno), HD in H.
  injection H as H. rewrite H. apply get_set.
Qed.

Section Struct.
Context {S : Type} (fields : list (fieldInfo S)).
Hypothesis only_elements : elements_only fields = true.

Lemma unmarshal_attr_elements_only (fs : list (fieldInfo S))
  (a : string * string) (s : S) :
  elements_only fs = true -> unmarshal_attr fs a s = ok s.
Proof.
  induction fs as [|[| |] fs IH]; cbn; try discriminate; auto.
Qed.

Lemma unmarshal_attrs_elements_only (attrs : list (string * string))
  (s : S) : unmarshal_attrs fields attrs s = ok s.
Proof.
  induction attrs as [|a attrs IH]; cbn; [reflexivity|].
  now rewrite unmarshal_attr_elements_only.
Qed.

Lemma unmarshal_chardata_elements_only (fs : list (fieldInfo S))
  (data : string) (s : S) :
  elements_only fs = true -> unmarshal_chardata fs data s = ok s.
Proof.
  induction fs as [|[| |] fs IH]; cbn; try discriminate; auto.
Qed.

(** A struct without fields for attributes and character data is decoded
    from the child elements alone. *)
Lemma unmarshal_struct_elements_only (e : Node) (s : S) :
  unmarshal_struct fields e s = unmarshal_children fields (node_children e) s.
Proof.
  unfold unmarshal_struct.
  rewrite unmarshal_attrs_elements_only. cbn.
  destruct (unmarshal_children fields (node_children e) s) as [s1 [err|]];
    cbn; [reflexivity|].
  now apply unmarshal_chardata_elements_only.
Qed.

Lemma empty_safe_struct (zero : S) :
  empty_safe (unmarshal_struct fields) zero.
Proof.
  intros name attrs. cbn. now rewrite unmarshal_struct_elements_only.
Qed.

Section Omit.
Context {X : Type} (get : S -> list X) (set : list X -> S -> S)
  (name : string) (zero : S).
Hypothesis get_zero : get zero = [].
Hypothesis get_set : forall x s, get (set x s) = x.
Hypothesis set_get : forall s, set (get s) s = s.
Hypothesis set_set : forall x y s, set x (set y s) = set x s.
Hypothesis frame :
  forall c s x, named name c = false ->
    snd (unmarshalPath fields [] c (set x s))
    = lift (set x) (snd (unmarshalPath fields [] c s)).
Hypothesis touch :
  forall c s x, named name c = true ->
    set x (fst (snd (unmarshalPath fields [] c s))) = set x s.

Lemma omission_safe_struct :
  omission_safe (unmarshal_struct fields) zero name set.
Proof.
  intros doc s' H. destruct doc as [m attrs cs| |]; cbn in *;
    try discriminate.
  rewrite unmarshal_struct_elements_only in *. cbn in *.
  rewrite <- get_zero. unfold unmarshal_children in *.
  now apply (tokens_omit _ get set (named name)).
Qed.

End Omit.
End Struct.

End xml_facts.

(** * Decoding the statistics model *)

Module model_facts.
Import xml bind xml_facts.

Local Arguments unmarshal_string : simpl never.
Local Arguments unmarshal_uint64 : simpl never.
Local Arguments unmarshal_int64 : simpl never.
Local Arguments unmarshal_Counter : simpl never.
Local Arguments unmarshal_Gauge : simpl never.
Local Arguments unmarshal_ZoneCounter : simpl never.
Local Arguments unmarshal_ZoneView : simpl never.
Local Arguments unmarshal_View : simpl never.
Local Arguments unmarshal_Task : simpl never.
Local Arguments unmarshal_ThreadModel : simpl never.
Local Arguments unmarshal_TaskManager : simpl never.
Local Arguments unmarshal_Server : simpl never.
Local Arguments unmarshal_Time : simpl never.

(** The result of a field decoder, by cases on the decoder of the field
    type. *)
Ltac field_cases :=
  unfold field, unmarshal_slice, lift; cbn;
  repeat match goal with
  | |- context [match ?d with (_, _) => _ end] => destruct d as [? [?|]]
  end; cbn; try reflexivity.

(** An element other than [name] does not write the field of [name]. *)
Ltac frame_tac fs :=
  let c := fresh "c" in let s := fresh "s" in let x := fresh "x" in
  let H := fresh "H" in
  intros c s x H; destruct c as [m attrs cs| |]; [|reflexivity..];
  cbn in H; rewrite String.eqb_sym in H; unfold fs;
  cbn [unmarshalPath find_field same_parents length Nat.eqb Nat.ltb
       negb andb nth firstn Nat.add Nat.leb];
  rewrite ?H; cbn [andb];
  repeat match goal with
  | |- context [String.eqb ?a m] => destruct (String.eqb a m)
  end;
  cbn [snd fst]; try reflexivity; destruct s; field_cases.

(** An element [name] writes nothing but the field of [name]. *)
Ltac touch_tac fs :=
  let c := fresh "c" in let s := fresh "s" in let x := fresh "x" in
  let H := fresh "H" in
  intros c s x H; destruct c as [m attrs cs| |]; [|discriminate..];
  cbn in H; apply String.eqb_eq in H; subst m; unfold fs;
  cbn [unmarshalPath find_field same_parents length Nat.eqb Nat.ltb
       negb andb nth firstn Nat.add Nat.leb String.eqb Ascii.eqb Bool.eqb];
  cbn [snd fst]; destruct s; field_cases.

Lemma View_Cache_omission :
  omission_safe unmarshal_View zero_View "Cache" set_View_Cache.
Proof.
  apply (omission_safe_struct View_fields eq_refl View_Cache).
  - reflexivity.
  - reflexivity.
  - now intros [].
  - reflexivity.
  - frame_tac View_fields.
  - touch_tac View_fields.
Qed.

Lemma View_ResolverStats_omission :
  omission_safe unmarshal_View zero_View "ResolverStats" set_View_ResolverStats.
Proof.
  apply (omission_safe_struct View_fields eq_refl View_ResolverStats).
  - reflexivity.
  - reflexivity.
  - now intros [].
  - reflexivity.
  - frame_tac View_fields.
  - touch_tac View_fields.
Qed.

Lemma View_ResolverQueries_omission :
  omission_safe unmarshal_View zero_View "ResolverQueries" set_View_ResolverQueries.
Proof.
  apply (omission_safe_struct View_fields eq_refl View_ResolverQueries).
  - reflexivity.
  - reflexivity.
  - now intros [].
  - reflexivity.
  - frame_tac View_fields.
  - touch_tac View_fields.
Qed.

Lemma ZoneView_ZoneData_omission :
  omission_safe unmarshal_ZoneView zero_ZoneView "ZoneData" set_ZoneView_ZoneData.
Proof.
  apply (omission_safe_struct ZoneView_fields eq_refl ZoneView_ZoneData).
  - reflexivity.
  - reflexivity.
  - now intros [].
  - reflexivity.
  - frame_tac ZoneView_fields.
  - touch_tac ZoneView_fields.
Qed.

Lemma ZoneCounter_ZoneRcode_omission :
  omission_safe unmarshal_ZoneCounter zero_ZoneCounter "ZoneRcode" set_ZoneCounter_ZoneRcode.
Proof.
  apply (omission_safe_struct ZoneCounter_fields eq_refl ZoneCounter_ZoneRcode).
  - reflexivity.
  - reflexivity.
  - now intros [].
  - reflexivity.
  - frame_tac ZoneCounter_fields.
  - touch_tac ZoneCounter_fields.
Qed.

Lemma ZoneCounter_ZoneQtype_omission :
  omission_safe unmarshal_ZoneCounter zero_ZoneCounter "ZoneQtype" set_ZoneCounter_ZoneQtype.
Proof.
  apply (omission_safe_struct ZoneCounter_fields eq_refl ZoneCounter_ZoneQtype).
  - reflexivity.
  - reflexivity.
  - now intros [].
  - reflexivity.
  - frame_tac ZoneCounter_fields.
  - touch_tac ZoneCounter_fields.
Qed.

(** The elements inside [tasks] write the field [Tasks] only. *)
Lemma TaskManager_tasks_touch (cs : list Node) (s : TaskManager)
  (x : list Task) :
  set_TaskManager_Tasks x
    (fst (tokens
            (fun c s => snd (unmarshalPath TaskManager_fields ["tasks"] c s))
            cs s))
  = set_TaskManager_Tasks x s.
Proof.
  apply (tokens_inv _
           (fun s' => set_TaskManager_Tasks x s' = set_TaskManager_Tasks x s));
    [|reflexivity].
  intros c s' _ H. rewrite <- H.
  destruct c as [m attrs cs'| |]; [|reflexivity..].
  unfold TaskManager_fields.
  cbn [unmarshalPath find_field same_parents length Nat.eqb Nat.ltb
       negb andb nth firstn Nat.add Nat.leb].
  rewrite String.eqb_refl. cbn [negb andb].
  destruct (String.eqb "task" m); cbn [snd fst]; [|reflexivity].
  destruct s'. field_cases.
Qed.

Lemma TaskManager_Tasks_omission :
  omission_safe unmarshal_TaskManager zero_TaskManager "tasks"
    set_TaskManager_Tasks.
Proof.
  apply (omission_safe_struct TaskManager_fields eq_refl TaskManager_Tasks).
  - reflexivity.
  - reflexivity.
  - now intros [].
  - reflexivity.
  - frame_tac TaskManager_fields.
  - intros c s x H. destruct c as [m attrs cs| |]; [|discriminate..].
    cbn in H. apply String.eqb_eq in H. subst m.
    apply TaskManager_tasks_touch.
Qed.

(** ** Documents that the decoders take *)

Lemma copy_uint64_text (src : string) (dst : Z) :
  uint64_text src = true -> snd (copy_uint64 src dst) = None.
Proof.
  unfold uint64_text, copy_uint64. intros H.
  destruct (String.eqb src ""); [reflexivity|]. cbn [orb] in H.
  now rewrite (strconv_facts.ParseUint_decimal _ H).
Qed.

Lemma copy_int64_text (src : string) (dst : Z) :
  int64_text src = true -> snd (copy_int64 src dst) = None.
Proof.
  unfold int64_text, copy_int64. intros H.
  destruct (String.eqb src ""); [reflexivity|]. cbn [orb] in H.
  apply strconv_facts.ParseInt_decimal in H.
  now destruct (strconv.ParseInt (strings.TrimSpace src)) as [z [e|]].
Qed.

(** The texts of numbers are all that [copyValue] takes for a
    number. *)
Lemma copy_uint64_ok_text (src : string) (dst : Z) :
  snd (copy_uint64 src dst) = None -> uint64_text src = true.
Proof.
  unfold uint64_text, copy_uint64.
  destruct (String.eqb src ""); [reflexivity|]. cbn [orb]. intros H.
  apply strconv_facts.ParseUint_ok_decimal.
  now destruct (strconv.ParseUint (strings.TrimSpace src)) as [z [e|]].
Qed.

Lemma copy_int64_ok_text (src : string) (dst : Z) :
  snd (copy_int64 src dst) = None -> int64_text src = true.
Proof.
  unfold int64_text, copy_int64.
  destruct (String.eqb src ""); [reflexivity|]. cbn [orb]. intros H.
  apply strconv_facts.ParseInt_ok_decimal.
  now destruct (strconv.ParseInt (strings.TrimSpace src)) as [z [e|]].
Qed.

Lemma unmarshal_uint64_number (e : Node) :
  number_uint64 e -> forall t, snd (unmarshal_uint64 e t) = None.
Proof. intros H t. now apply copy_uint64_text. Qed.

Lemma unmarshal_int64_number (e : Node) :
  number_int64 e -> forall t, snd (unmarshal_int64 e t) = None.
Proof. intros H t. now apply copy_int64_text. Qed.

Lemma unmarshal_string_any (e : Node) (t : string) :
  snd (unmarshal_string e t) = None.
Proof. reflexivity. Qed.

Create HintDb conforms.

#[local] Hint Resolve unmarshal_uint64_number unmarshal_int64_number
  unmarshal_string_any : conforms.

(** The child elements of a struct without fields for attributes and
    character data: by cases on the name of the child, the requirement of
    that name gives that the decoder of its field is without error. *)
Ltac conform_tac fs :=
  let c := fresh "c" in let Hc := fresh "Hc" in let s := fresh "s" in
  apply tokens_accept; eapply Forall_impl; [|eassumption];
  intros c Hc s; destruct c as [m attrs cs| |]; [|reflexivity..];
  revert Hc; unfold fs;
  cbn [unmarshalPath find_field same_parents length Nat.eqb Nat.ltb
       negb andb nth firstn Nat.add Nat.leb required];
  repeat match goal with
  | |- context [String.eqb ?a m] =>
      destruct (String.eqb_spec a m) as [<-|?]
  end;
  cbn [snd fst]; intros Hc; try reflexivity;
  cbv beta iota delta [required String.eqb Ascii.eqb Bool.eqb] in Hc;
  apply field_accept; try (apply slice_accept); eauto with conforms.

Lemma unmarshal_Counter_conforms (e : Node) :
  conforms_Counter e -> forall v, snd (unmarshal_Counter e v) = None.
Proof.
  intros H v. unfold unmarshal_Counter, unmarshal_struct.
  apply and_then_accept.
  - generalize v. induction (node_attrs e) as [|a attrs IH]; intros v0;
      [reflexivity|].
    cbn [unmarshal_attrs]. apply and_then_accept; [|exact IH].
    unfold Counter_fields. cbn [unmarshal_attr].
    now destruct (String.eqb (fst a) "name").
  - intros v1. apply and_then_accept.
    + unfold unmarshal_children. apply tokens_accept.
      apply Forall_forall. intros c _ s. now destruct c.
    + intros v2. unfold Counter_fields. cbn [unmarshal_chardata].
      apply field_accept. intros t. now apply copy_uint64_text.
Qed.

#[local] Hint Resolve unmarshal_Counter_conforms : conforms.

Lemma unmarshal_Gauge_conforms (e : Node) :
  conforms_Gauge e -> forall v, snd (unmarshal_Gauge e v) = None.
Proof.
  intros H v. unfold unmarshal_Gauge.
  rewrite unmarshal_struct_elements_only by reflexivity.
  unfold conforms_Gauge, conforms_children in H.
  conform_tac Gauge_fields.
Qed.

Lemma unmarshal_ZoneCounter_conforms (e : Node) :
  conforms_ZoneCounter e -> forall v, snd (unmarshal_ZoneCounter e v) = None.
Proof.
  intros H v. unfold unmarshal_ZoneCounter.
  rewrite unmarshal_struct_elements_only by reflexivity.
  unfold conforms_ZoneCounter, conforms_children in H.
  conform_tac ZoneCounter_fields.
Qed.

#[local] Hint Resolve unmarshal_Gauge_conforms
  unmarshal_ZoneCounter_conforms : conforms.

Lemma unmarshal_ZoneView_conforms (e : Node) :
  conforms_ZoneView e -> forall v, snd (unmarshal_ZoneView e v) = None.
Proof.
  intros H v. unfold unmarshal_ZoneView.
  rewrite unmarshal_struct_elements_only by reflexivity.
  unfold conforms_ZoneView, conforms_children in H.
  conform_tac ZoneView_fields.
Qed.

Lemma unmarshal_View_conforms (e : Node) :
  conforms_View e -> forall v, snd (unmarshal_View e v) = None.
Proof.
  intros H v. unfold unmarshal_View.
  rewrite unmarshal_struct_elements_only by reflexivity.
  unfold conforms_View, conforms_children in H.
  conform_tac View_fields.
Qed.

Lemma unmarshal_Task_conforms (e : Node) :
  conforms_Task e -> forall v, snd (unmarshal_Task e v) = None.
Proof.
  intros H v. unfold unmarshal_Task.
  rewrite unmarshal_struct_elements_only by reflexivity.
  unfold conforms_Task, conforms_children in H.
  conform_tac Task_fields.
Qed.

Lemma unmarshal_ThreadModel_conforms (e : Node) :
  conforms_ThreadModel e -> forall v, snd (unmarshal_ThreadModel e v) = None.
Proof.
  intros H v. unfold unmarshal_ThreadModel.
  rewrite unmarshal_struct_elements_only by reflexivity.
  unfold conforms_ThreadModel, conforms_children in H.
  conform_tac ThreadModel_fields.
Qed.

#[local] Hint Resolve unmarshal_ZoneView_conforms unmarshal_View_conforms
  unmarshal_Task_conforms unmarshal_ThreadModel_conforms : conforms.

(** The tasks are below the element [tasks]: the elements [task] inside
    it are decoded one by one. *)
Lemma unmarshal_TaskManager_conforms (e : Node) :
  conforms_TaskManager e -> forall v, snd (unmarshal_TaskManager e v) = None.
Proof.
  intros H v. unfold unmarshal_TaskManager.
  rewrite unmarshal_struct_elements_only by reflexivity.
  unfold conforms_TaskManager, conforms_children in H.
  apply tokens_accept. eapply Forall_impl; [|exact H].
  intros c Hc s. destruct c as [m attrs cs| |]; [|reflexivity..].
  revert Hc. unfold TaskManager_fields.
  cbn [unmarshalPath find_field same_parents length Nat.eqb Nat.ltb
       negb andb nth firstn Nat.add Nat.leb required].
  fold TaskManager_fields.
  destruct (String.eqb_spec "tasks" m) as [<-|?]; cbn [snd fst].
  - intros Hc. unfold conforms_tasks, conforms_children in Hc.
    cbn [node_children] in Hc.
    apply tokens_accept. eapply Forall_impl; [|exact Hc].
    intros c Ht s0. destruct c as [m2 attrs2 cs2| |]; [|reflexivity..].
    revert Ht. unfold TaskManager_fields.
    cbn [unmarshalPath find_field same_parents length Nat.eqb Nat.ltb
         negb andb nth firstn Nat.add Nat.leb required].
    rewrite String.eqb_refl. cbn [negb andb].
    destruct (String.eqb_spec "task" m2) as [<-|?]; cbn [snd fst];
      [|reflexivity].
    intros Ht. apply field_accept, slice_accept.
    now apply unmarshal_Task_conforms.
  - destruct (String.eqb_spec "thread-model" m) as [<-|?]; cbn [snd fst];
      [|reflexivity].
    intros Hc. apply field_accept.
    now apply unmarshal_ThreadModel_conforms.
Qed.

#[local] Hint Resolve unmarshal_TaskManager_conforms : conforms.

Section Timed.
Context (T : TimeLib).

Lemma Server_IncomingQueries_omission :
  omission_safe (unmarshal_Server T) (zero_Server T) "IncomingQueries" (set_Server_IncomingQueries T).
Proof.
  apply (omission_safe_struct (@Server_fields T) eq_refl (@Server_IncomingQueries T)).
  - reflexivity.
  - reflexivity.
  - now intros [].
  - reflexivity.
  - frame_tac Server_fields.
  - touch_tac Server_fields.
Qed.

Lemma Server_IncomingRequests_omission :
  omission_safe (unmarshal_Server T) (zero_Server T) "IncomingRequests" (set_Server_IncomingRequests T).
Proof.
  apply (omission_safe_struct (@Server_fields T) eq_refl (@Server_IncomingRequests T)).
  - reflexivity.
  - reflexivity.
  - now intros [].
  - reflexivity.
  - frame_tac Server_fields.
  - touch_tac Server_fields.
Qed.

Lemma Server_NameServerStats_omission :
  omission_safe (unmarshal_Server T) (zero_Server T) "NameServerStats" (set_Server_NameServerStats T).
Proof.
  apply (omission_safe_struct (@Server_fields T) eq_refl (@Server_NameServerStats T)).
  - reflexivity.
  - reflexivity.
  - now intros [].
  - reflexivity.
  - frame_tac Server_fields.
  - touch_tac Server_fields.
Qed.

Lemma Server_ZoneStatistics_omission :
  omission_safe (unmarshal_Server T) (zero_Server T) "ZoneStatistics" (set_Server_ZoneStatistics T).
Proof.
  apply (omission_safe_struct (@Server_fields T) eq_refl (@Server_ZoneStatistics T)).
  - reflexivity.
  - reflexivity.
  - now intros [].
  - reflexivity.
  - frame_tac Server_fields.
  - touch_tac Server_fields.
Qed.

Lemma Server_ServerRcodes_omission :
  omission_safe (unmarshal_Server T) (zero_Server T) "ServerRcodes" (set_Server_ServerRcodes T).
Proof.
  apply (omission_safe_struct (@Server_fields T) eq_refl (@Server_ServerRcodes T)).
  - reflexivity.
  - reflexivity.
  - now intros [].
  - reflexivity.
  - frame_tac Server_fields.
  - touch_tac Server_fields.
Qed.

Lemma Statistics_Views_omission :
  omission_safe (unmarshal_Statistics T) (zero_Statistics T) "Views" (set_Statistics_Views T).
Proof.
  apply (omission_safe_struct (@Statistics_fields T) eq_refl (@Statistics_Views T)).
  - reflexivity.
  - reflexivity.
  - now intros [].
  - reflexivity.
  - frame_tac Statistics_fields.
  - touch_tac Statistics_fields.
Qed.

Lemma Statistics_ZoneViews_omission :
  omission_safe (unmarshal_Statistics T) (zero_Statistics T) "ZoneViews" (set_Statistics_ZoneViews T).
Proof.
  apply (omission_safe_struct (@Statistics_fields T) eq_refl (@Statistics_ZoneViews T)).
  - reflexivity.
  - reflexivity.
  - now intros [].
  - reflexivity.
  - frame_tac Statistics_fields.
  - touch_tac Statistics_fields.
Qed.

Lemma unmarshal_Time_text (e : Node) :
  time_text T e -> forall t, snd (unmarshal_Time T e t) = None.
Proof.
  intros H t. unfold unmarshal_Time, unmarshal_text. specialize (H t).
  unfold text in H.
  now destruct (Time_UnmarshalText T (chardata (node_children e)) t)
    as [t' [err|]].
Qed.

#[local] Hint Resolve unmarshal_Time_text : conforms.

Lemma unmarshal_Server_conforms (e : Node) :
  conforms_Server T e -> forall v, snd (unmarshal_Server T e v) = None.
Proof.
  intros H v. unfold unmarshal_Server.
  rewrite unmarshal_struct_elements_only by reflexivity.
  unfold conforms_Server, conforms_children in H.
  conform_tac Server_fields.
Qed.

#[local] Hint Resolve unmarshal_Server_conforms : conforms.

Lemma unmarshal_Statistics_conforms (e : Node) :
  conforms_Statistics T e ->
  forall v, snd (unmarshal_Statistics T e v) = None.
Proof.
  intros H v. unfold unmarshal_Statistics.
  rewrite unmarshal_struct_elements_only by reflexivity.
  unfold conforms_Statistics, conforms_children in H.
  conform_tac Statistics_fields.
Qed.

End Timed.




(** Decoding the text of numbers. *)
Lemma copy_int64_FormatInt (z dst : Z) :
  is_int64 z -> copy_int64 (strconv.FormatInt z) dst = ok z.
Proof.
  intros Hz. unfold copy_int64.
  destruct (String.eqb_spec (strconv.FormatInt z) "") as [H|_].
  - exfalso. unfold strconv.FormatInt in H.
    destruct (z <? 0)%Z; [discriminate|].
    now apply strconv_facts.FormatUint_not_empty in H.
  - rewrite strings_facts.TrimSpace_FormatInt.
    now rewrite strconv_facts.ParseInt_FormatInt.
Qed.

Lemma copy_uint64_FormatUint (n dst : Z) :
  is_uint64 n -> copy_uint64 (strconv.FormatUint n) dst = ok n.
Proof.
  intros Hn. unfold copy_uint64.
  destruct (String.eqb_spec (strconv.FormatUint n) "") as [H|_].
  - now apply strconv_facts.FormatUint_not_empty in H.
  - rewrite strings_facts.TrimSpace_FormatUint by apply Hn.
    rewrite strconv_facts.ParseUint_FormatUint; [reflexivity|].
    unfold is_uint64 in Hn. unfold strconv.maxUint64. lia.
Qed.

Lemma copy_uint64_negative (z dst : Z) :
  (z < 0)%Z ->
  copy_uint64 (strconv.FormatInt z) dst
  = (dst, Some (ErrNum (strconv.mkNumError "ParseUint"
                          (strconv.FormatInt z) strconv.ErrSyntax))).
Proof.
  intros Hz. unfold copy_uint64.
  destruct (String.eqb_spec (strconv.FormatInt z) "") as [H|_].
  - exfalso. unfold strconv.FormatInt in H.
    destruct (z <? 0)%Z; [discriminate|].
    now apply strconv_facts.FormatUint_not_empty in H.
  - rewrite strings_facts.TrimSpace_FormatInt.
    now rewrite strconv_facts.ParseUint_negative.
Qed.

(** The numbers that the decoder stores are values of the type of the
    field. *)
Lemma copy_int64_range (src : string) (dst : Z) :
  is_int64 dst -> is_int64 (fst (copy_int64 src dst)).
Proof.
  intros Hd. unfold copy_int64.
  destruct (String.eqb src ""); [cbn; unfold is_int64; lia|].
  destruct (strconv.ParseInt (strings.TrimSpace src)) as [z [e|]] eqn:H;
    [exact Hd|].
  now apply strconv_facts.ParseInt_range in H.
Qed.

Lemma copy_uint64_range (src : string) (dst : Z) :
  is_uint64 dst -> is_uint64 (fst (copy_uint64 src dst)).
Proof.
  intros Hd. unfold copy_uint64.
  destruct (String.eqb src ""); [cbn; unfold is_uint64; lia|].
  destruct (strconv.ParseUint (strings.TrimSpace src)) as [z [e|]] eqn:H;
    [exact Hd|].
  apply strconv_facts.ParseUint_range in H.
  unfold strconv.maxUint64 in H. cbn. unfold is_uint64. lia.
Qed.

(** Whatever the element, the numbers of a decoded task are an [int64] and
    a [uint64]. *)
Lemma unmarshal_Task_range (e : Node) (t : Task) :
  is_int64 (Task_Quantum t) /\ is_uint64 (Task_References t) ->
  is_int64 (Task_Quantum (fst (unmarshal_Task e t)))
  /\ is_uint64 (Task_References (fst (unmarshal_Task e t))).
Proof.
  unfold unmarshal_Task.
  rewrite unmarshal_struct_elements_only by reflexivity.
  unfold unmarshal_children.
  apply (tokens_inv _
           (fun t => is_int64 (Task_Quantum t)
                     /\ is_uint64 (Task_References t))).
  intros c s _ [Hq Hr]. destruct c as [m attrs cs| |]; [|now split..].
  unfold Task_fields.
  cbn [unmarshalPath find_field same_parents length Nat.eqb Nat.ltb
       negb andb nth firstn Nat.add Nat.leb].
  repeat match goal with
  | |- context [String.eqb ?a m] => destruct (String.eqb a m)
  end;
  cbn [snd fst]; try (now split); unfold field.
  all: match goal with
       | |- context [unmarshal_string ?a ?b] =>
           now destruct (unmarshal_string a b)
       | |- context [unmarshal_int64 ?a ?b] =>
           pose proof (copy_int64_range (chardata (node_children a)) b Hq);
           unfold unmarshal_int64;
           now destruct (copy_int64 (chardata (node_children a)) b)
       | |- context [unmarshal_uint64 ?a ?b] =>
           pose proof (copy_uint64_range (chardata (node_children a)) b Hr);
           unfold unmarshal_uint64;
           now destruct (copy_uint64 (chardata (node_children a)) b)
       end.
Qed.

(** C8.  The element of a task whose quantum is the text of any [int64],
    negative ones included, whose references are the text of any [uint64]
    and whose state is any text decodes without error into the task with
    exactly these values.  The text of a negative number for the references
    is an error, and whatever the element, a decoded quantum is an [int64]
    and decoded references are a [uint64]. *)
Theorem Task_decoding (id name state : string) (q refs : Z) :
  is_int64 q -> is_uint64 refs ->
  unmarshal_Task
    (task_element id name (strconv.FormatInt q) (strconv.FormatUint refs)
       state)
    zero_Task
  = (mkTask id name q refs state, None)
  /\ (forall r, (r < 0)%Z ->
      snd (unmarshal_Task
             (task_element id name (strconv.FormatInt q)
                (strconv.FormatInt r) state)
             zero_Task)
      = Some (ErrNum (strconv.mkNumError "ParseUint" (strconv.FormatInt r)
                        strconv.ErrSyntax)))
  /\ (forall e t,
      unmarshal_Task e zero_Task = (t, None) ->
      is_int64 (Task_Quantum t) /\ is_uint64 (Task_References t)).
Proof.
  intros Hq Hr. split; [|split].
  - unfold unmarshal_Task, unmarshal_struct, task_element, Task_fields.
    cbn -[strconv.FormatInt strconv.FormatUint copy_int64 copy_uint64].
    unfold field, unmarshal_int64, unmarshal_uint64, unmarshal_string.
    cbn -[strconv.FormatInt strconv.FormatUint copy_int64 copy_uint64].
    rewrite !string_facts.append_nil_r.
    rewrite copy_int64_FormatInt by exact Hq.
    cbn -[strconv.FormatInt strconv.FormatUint copy_int64 copy_uint64].
    rewrite copy_uint64_FormatUint by exact Hr.
    reflexivity.
  - intros r Hneg.
    unfold unmarshal_Task, unmarshal_struct, task_element, Task_fields.
    cbn -[strconv.FormatInt strconv.FormatUint copy_int64 copy_uint64].
    unfold field, unmarshal_int64, unmarshal_uint64, unmarshal_string.
    cbn -[strconv.FormatInt strconv.FormatUint copy_int64 copy_uint64].
    rewrite !string_facts.append_nil_r.
    rewrite copy_int64_FormatInt by exact Hq.
    cbn -[strconv.FormatInt strconv.FormatUint copy_int64 copy_uint64].
    rewrite copy_uint64_negative by exact Hneg.
    reflexivity.
  - intros e t H.
    pose proof (unmarshal_Task_range e zero_Task) as Hrange.
    rewrite H in Hrange. apply Hrange.
    unfold is_int64, is_uint64. cbn. lia.
Qed.

Lemma Task_decoding_witness :
  unmarshal_Task (task_element "0x7f5d" "server" "-1" "3" "RUNNING") zero_Task
  = (mkTask "0x7f5d" "server" (-1) 3 "RUNNING", None).
Proof.
  apply (Task_decoding "0x7f5d" "server" "RUNNING" (-1) 3).
  - unfold is_int64. lia.
  - unfold is_uint64. lia.
Defined.

End model_facts.

(** * Properties of [path.Join] *)

Module path_facts.
Import path.

Lemma elements_not_nil (s : string) : elements s <> [].
Proof.
  destruct s as [|c s]; cbn; [discriminate|].
  destruct (Ascii.eqb c slash); [discriminate|].
  destruct (elements s); discriminate.
Qed.

Lemma elements_no_slash (s : string) :
  Forall (fun e => has_slash e = false) (elements s).
Proof.
  induction s as [|c s IH]; cbn.
  - repeat constructor.
  - destruct (Ascii.eqb c slash) eqn:Hc.
    + constructor; [reflexivity | exact IH].
    + destruct (elements s) as [|e es].
      * repeat constructor. cbn. now rewrite Hc.
      * inversion IH as [|? ? He Hes]; subst.
        constructor; [|exact Hes]. cbn. now rewrite Hc, He.
Qed.

Lemma elements_app_slash (a b : string) :
  elements (a ++ String slash b) = (elements a ++ elements b)%list.
Proof.
  induction a as [|c a IH]; cbn.
  - reflexivity.
  - rewrite IH. destruct (Ascii.eqb c slash); [reflexivity|].
    pose proof (elements_not_nil a) as Hn.
    destruct (elements a) as [|e es]; [congruence | reflexivity].
Qed.

Lemma clean_step_written (rt : bool) (out : list string) (e : string) :
  Forall written out -> has_slash e = false ->
  Forall written (clean_step rt out e).
Proof.
  intros Hout He. unfold clean_step.
  destruct (String.eqb_spec e ""); [exact Hout|].
  destruct (String.eqb_spec e "."); [exact Hout|].
  destruct (String.eqb_spec e "..").
  - destruct out as [|top rest].
    + destruct rt; [exact Hout|]. repeat constructor; assumption.
    + destruct (String.eqb top "..").
      * destruct rt; [exact Hout|]. constructor; [split|]; assumption.
      * now inversion Hout.
  - constructor; [split|]; assumption.
Qed.

Lemma fold_clean_step_written (rt : bool) (es out : list string) :
  Forall written out ->
  Forall (fun e => has_slash e = false) es ->
  Forall written (fold_left (clean_step rt) es out).
Proof.
  revert out. induction es as [|e es IH]; intros out Hout Hes; cbn.
  - exact Hout.
  - inversion Hes; subst. apply IH; [|assumption].
    now apply clean_step_written.
Qed.

Lemma clean_elements_written (rt : bool) (s : string) :
  Forall written (clean_elements rt (elements s)).
Proof.
  unfold clean_elements. apply Forall_rev.
  apply fold_clean_step_written; [constructor|apply elements_no_slash].
Qed.

Lemma double_slash_app (e t : string) :
  has_slash e = false -> double_slash (e ++ t) = double_slash t.
Proof.
  induction e as [|c e IH]; cbn; [reflexivity|].
  intros H. apply orb_false_iff in H as [Hc He].
  rewrite Hc. cbn. now apply IH.
Qed.

Lemma written_not_rooted (e t : string) :
  written e -> rooted (e ++ t) = false.
Proof.
  intros [Hne Hs]. destruct e as [|c e]; [congruence|].
  cbn in *. now apply orb_false_iff in Hs as [-> _].
Qed.

Lemma concat_written (es : list string) :
  Forall written es ->
  rooted (String.concat "/" es) = false
  /\ double_slash (String.concat "/" es) = false.
Proof.
  induction es as [|e es IH]; intros H; cbn.
  - split; reflexivity.
  - inversion H as [|? ? He Hes]; subst.
    destruct es as [|e' es].
    + split.
      * rewrite <- (string_facts.append_nil_r e).
        now apply written_not_rooted.
      * rewrite <- (string_facts.append_nil_r e).
        rewrite double_slash_app; [reflexivity | apply He].
    + destruct (IH Hes) as [Hr Hd]. split.
      * now apply written_not_rooted.
      * rewrite double_slash_app by apply He.
        cbn. cbn in Hr, Hd. now rewrite Hr, Hd.
Qed.

Lemma render_no_double_slash (rt : bool) (es : list string) :
  Forall written es -> double_slash (render rt es) = false.
Proof.
  intros H. destruct (concat_written es H) as [Hr Hd].
  unfold render.
  destruct (String.eqb _ ""); [reflexivity|].
  destruct rt; cbn; [now rewrite Hr, Hd | exact Hd].
Qed.

(** A cleaned path has no two slashes in a row. *)
Lemma Clean_no_double_slash (p : string) : double_slash (Clean p) = false.
Proof.
  unfold Clean. destruct (String.eqb p ""); [reflexivity|].
  apply render_no_double_slash, clean_elements_written.
Qed.

Lemma Join_no_double_slash (elem : list string) :
  double_slash (Join elem) = false.
Proof.
  unfold Join. destruct (Nat.eqb _ 0); [reflexivity|].
  apply Clean_no_double_slash.
Qed.

(** The join of a base path that is not empty with [p]. *)
Lemma Join_base (base p : string) :
  base <> "" -> Join [base; p] = Clean (base ++ String slash p).
Proof.
  intros Hb. unfold Join. cbn.
  destruct base as [|c base]; [congruence|]. cbn.
  unfold join_step. cbn. now rewrite string_facts.append_assoc.
Qed.

(** Elements other than [..] are only ever added to the buffer. *)
Lemma fold_clean_step_no_dotdot (rt : bool) (es out : list string) :
  ~ In ".." es ->
  fold_left (clean_step rt) es out
  = (rev (filter named_element es) ++ out)%list.
Proof.
  revert out. induction es as [|e es IH]; intros out Hn; cbn.
  - reflexivity.
  - rewrite IH by (intros H; apply Hn; now right).
    unfold clean_step, named_element.
    destruct (String.eqb_spec e ""); [reflexivity|].
    destruct (String.eqb_spec e "."); [reflexivity|].
    destruct (String.eqb_spec e "..").
    + exfalso. apply Hn. now left.
    + cbn. now rewrite <- app_assoc.
Qed.

(** Without a [..] element in [p], the join of a base path with [p] is
    the cleaned base path followed by the elements of [p]. *)
Lemma Join_below_base (base p : string) :
  base <> "" -> ~ In ".." (elements p) ->
  Join [base; p]
  = render (rooted base)
      (path_elements base ++ filter named_element (elements p)).
Proof.
  intros Hb Hp. rewrite Join_base by exact Hb. unfold Clean.
  destruct (String.eqb_spec (base ++ String slash p) "") as [H|_].
  { apply string_facts.append_eq_nil in H as [_ H]. discriminate. }
  assert (Hr : rooted (base ++ String slash p) = rooted base).
  { destruct base; [congruence | reflexivity]. }
  rewrite Hr. f_equal.
  unfold path_elements, clean_elements.
  rewrite elements_app_slash, fold_left_app.
  rewrite fold_clean_step_no_dotdot by exact Hp.
  now rewrite rev_app_distr, rev_involutive.
Qed.

(** With an empty base path, [Join] drops the base: the result is the
    cleaned [p], and the empty string when [p] is empty too. *)
Lemma Join_empty_base (p : string) :
  Join [""; p] = if String.eqb p "" then "" else Clean p.
Proof.
  destruct p as [|a p]; reflexivity.
Qed.

(** Without a [..] element, cleaning [p] keeps the named elements of
    [p], in their order, and whether [p] is rooted. *)
Lemma Clean_no_dotdot (p : string) :
  p <> "" -> ~ In ".." (elements p) ->
  Clean p = render (rooted p) (filter named_element (elements p)).
Proof.
  intros Hp Hn. unfold Clean.
  destruct (String.eqb_spec p "") as [H|_]; [contradiction|].
  f_equal. unfold clean_elements.
  rewrite fold_clean_step_no_dotdot by exact Hn.
  now rewrite app_nil_r, rev_involutive.
Qed.

End path_facts.

(** * Properties of the transport *)

Module transport_facts.
Import errors fmt bind.

Section Facts.
Context (E : Env).

Implicit Types (c : XMLClient E) (p : string) (v : V E) (w : World E).

(** [Get] when the base URL does not parse. *)
Lemma Get_invalid_URL c p v w e :
  url_Parse E (url c) = inr e ->
  Get E c p v w =
    mkResult E
      (Some (errorString
               ("invalid URL " ++ strconv_Quote E (url c) ++ ": "
                ++ Error e)))
      c v w.
Proof.
  intros H. unfold Get. rewrite H. reflexivity.
Qed.

(** [Get] when the request fails. *)
Lemma Get_transport_error c p v w u e n :
  url_Parse E (url c) = inl u ->
  http_Get E (http c) (target_URL E u p) (net w) = (inr e, n) ->
  Get E c p v w =
    mkResult E
      (Some (errorString ("error querying stats: " ++ Error e)))
      c v
      (mkWorld E n (trace w ++ [EvRequest (target_URL E u p)])).
Proof.
  intros H1 H2. unfold Get, do_http_Get. rewrite H1. cbn.
  rewrite H2. reflexivity.
Qed.

(** [Get] when the status of the response is not 200. *)
Lemma Get_bad_status c p v w u st code b n :
  url_Parse E (url c) = inl u ->
  http_Get E (http c) (target_URL E u p) (net w) = (inl (st, code, b), n) ->
  code <> StatusOK ->
  Get E c p v w =
    mkResult E
      (Some (errorString ("unexpected status " ++ st)))
      c v
      (mkWorld E (body_Close E b n)
         (((trace w ++ [EvRequest (target_URL E u p)]) ++ [EvOpen b])
          ++ [EvClose b])).
Proof.
  intros H1 H2 H3. unfold Get, do_http_Get. rewrite H1. cbn.
  rewrite H2. cbn.
  apply Z.eqb_neq in H3. rewrite H3. reflexivity.
Qed.

(** [Get] when the status is 200: the result is the one of the
    decoder. *)
Lemma Get_decoded c p v w u st b n v' r n' :
  url_Parse E (url c) = inl u ->
  http_Get E (http c) (target_URL E u p) (net w)
  = (inl (st, StatusOK, b), n) ->
  xml_Decode E b v n = (v', r, n') ->
  Get E c p v w =
    mkResult E
      (match r with
       | Some e =>
           Some (errorString
                   ("failed to unmarshal XML response: " ++ Error e))
       | None => None
       end)
      c v'
      (mkWorld E (body_Close E b n')
         ((((trace w ++ [EvRequest (target_URL E u p)]) ++ [EvOpen b])
           ++ [EvRead b]) ++ [EvClose b])).
Proof.
  intros H1 H2 H3. unfold Get, do_http_Get, do_Decode. rewrite H1. cbn.
  rewrite H2. cbn. rewrite H3.
  destruct r; reflexivity.
Qed.

(** The cases of a call, by what the library calls answer. *)
Ltac get_cases c p v w :=
  let u := fresh "u" in let e := fresh "e" in
  let st := fresh "st" in let code := fresh "code" in
  let b := fresh "b" in let n := fresh "n" in
  let v' := fresh "v'" in let r := fresh "r" in let n' := fresh "n'" in
  let Hp := fresh "Hp" in let Hg := fresh "Hg" in
  let Hc := fresh "Hc" in let Hd := fresh "Hd" in
  destruct (url_Parse E (url c)) as [u|e] eqn:Hp;
  [ destruct (http_Get E (http c) (target_URL E u p) (net w))
      as [[[[st code] b]|e] n] eqn:Hg;
    [ destruct (Z.eq_dec code StatusOK) as [Hc|Hc];
      [ subst code;
        destruct (xml_Decode E b v n) as [[v' r] n'] eqn:Hd;
        rewrite (Get_decoded c p v w u st b n v' r n' Hp Hg Hd)
      | rewrite (Get_bad_status c p v w u st code b n Hp Hg Hc) ]
    | rewrite (Get_transport_error c p v w u e n Hp Hg) ]
  | rewrite (Get_invalid_URL c p v w e Hp) ].

(** C2, as the code has it.  Each of the four failure conditions of
    [Get] gives a non-nil error whose message starts with a text of its
    own, so that the condition is told from the error; the error is a
    plain message which ends with the message of the underlying cause
    and does not wrap it. *)
Theorem Get_errors_told_apart c p v w :
  match err (Get E c p v w) with
  | None => condition E c p v w = None
  | Some e =>
      discriminate e = condition E c p v w
      /\ condition E c p v w <> None
      /\ Unwrap e = None
      /\ (forall z, cause E c p v w = Some z ->
          exists pre, Error e = pre ++ Error z)
  end.
Proof.
  unfold condition, cause, discriminate.
  get_cases c p v w; cbn; rewrite ?string_facts.prefix_nil.
  - destruct r as [z|]; cbn; rewrite ?string_facts.prefix_nil;
      [|reflexivity].
    split; [reflexivity|]. split; [discriminate|]. split; [reflexivity|].
    intros z' [= <-].
    exists "failed to unmarshal XML response: ". reflexivity.
  - apply Z.eqb_neq in Hc. rewrite Hc.
    split; [reflexivity|]. split; [discriminate|]. split; [reflexivity|].
    discriminate.
  - split; [reflexivity|]. split; [discriminate|]. split; [reflexivity|].
    intros z [= <-]. exists "error querying stats: ". reflexivity.
  - split; [reflexivity|]. split; [discriminate|]. split; [reflexivity|].
    intros z [= <-].
    exists ("invalid URL " ++ strconv_Quote E (url c) ++ ": ").
    cbn. now rewrite string_facts.append_assoc.
Qed.

(** C3, as the code has it.  The path of the URL that [Get] requests is
    [path.Join] of the path of the base URL and [p]; for every [p] it
    has no two slashes in a row.  When the base URL has a path, the
    request path is [path.Clean] of that path, a slash and [p]: a [..]
    element of [p] is resolved against the elements before it, the ones
    of the base path too; when [p] has no [..] element, the request
    path is the cleaned base path followed by the named elements of
    [p], so it stays below the root.  When the base URL has no path,
    there is no root: the request path is [path.Clean] of [p], and
    empty when [p] is empty; when [p] has no [..] element these are the
    named elements of [p], rooted as [p] is. *)
Theorem Get_request_path c p v w u :
  url_Parse E (url c) = inl u ->
  (exists evs,
     trace (world (Get E c p v w))
     = (trace w
        ++ EvRequest
             (URL_String E (set_Path u (path.Join [Path u; p])))
           :: evs)%list)
  /\ path.double_slash (path.Join [Path u; p]) = false
  /\ (Path u <> "" ->
      path.Join [Path u; p]
      = path.Clean (Path u ++ String path.slash p)
      /\ (~ In ".." (path.elements p) ->
          path.Join [Path u; p]
          = path.render (path.rooted (Path u))
              (path.path_elements (Path u)
               ++ filter path.named_element (path.elements p))))
  /\ (Path u = "" ->
      path.Join [Path u; p]
      = (if String.eqb p "" then "" else path.Clean p)
      /\ (p <> "" -> ~ In ".." (path.elements p) ->
          path.Join [Path u; p]
          = path.render (path.rooted p)
              (filter path.named_element (path.elements p)))).
Proof.
  intros Hp. split; [|split; [|split]].
  - destruct (http_Get E (http c) (target_URL E u p) (net w))
      as [[[[st code] b]|e] n] eqn:Hg.
    + destruct (Z.eq_dec code StatusOK) as [Hc|Hc].
      * subst code.
        destruct (xml_Decode E b v n) as [[v' r] n'] eqn:Hd.
        rewrite (Get_decoded c p v w u st b n v' r n' Hp Hg Hd).
        cbn. rewrite <- !app_assoc. eexists. reflexivity.
      * rewrite (Get_bad_status c p v w u st code b n Hp Hg Hc).
        cbn. rewrite <- !app_assoc. eexists. reflexivity.
    + rewrite (Get_transport_error c p v w u e n Hp Hg).
      exists []. reflexivity.
  - apply path_facts.Join_no_double_slash.
  - intros Hb. split.
    + now apply path_facts.Join_base.
    + now apply path_facts.Join_below_base.
  - intros Hb. rewrite Hb. split.
    + apply path_facts.Join_empty_base.
    + intros Hne Hn. rewrite path_facts.Join_empty_base.
      destruct (String.eqb_spec p "") as [H|_]; [contradiction|].
      now apply path_facts.Clean_no_dotdot.
Qed.

(** C4.  Whenever the status of the response is not 200, [Get] returns
    an error that carries the status text of the response; the decoder
    does not run: the value [v] is as before and no read of the body
    happens. *)
Theorem Get_unexpected_status c p v w u st code b n :
  url_Parse E (url c) = inl u ->
  http_Get E (http c) (target_URL E u p) (net w) = (inl (st, code, b), n) ->
  code <> StatusOK ->
  err (Get E c p v w) = Some (errorString ("unexpected status " ++ st))
  /\ target (Get E c p v w) = v
  /\ filter (is_read E) (trace (world (Get E c p v w)))
     = filter (is_read E) (trace w).
Proof.
  intros Hp Hg Hc. rewrite (Get_bad_status c p v w u st code b n Hp Hg Hc).
  cbn. repeat split.
  rewrite !filter_app. cbn. now rewrite !app_nil_r.
Qed.

(** C5.  On every exit path of [Get] after a response has been obtained
    (the status is not 200, the body does not decode, the body decodes)
    the body of the response is closed, once, as the last thing [Get]
    does. *)
Theorem Get_closes_body c p v w u st code b n :
  url_Parse E (url c) = inl u ->
  http_Get E (http c) (target_URL E u p) (net w) = (inl (st, code, b), n) ->
  trace (world (Get E c p v w))
  = (trace w
     ++ [EvRequest (target_URL E u p); EvOpen b]
     ++ (if Z.eqb code StatusOK then [EvRead b] else [])
     ++ [EvClose b])%list.
Proof.
  intros Hp Hg. destruct (Z.eq_dec code StatusOK) as [Hc|Hc].
  - subst code.
    destruct (xml_Decode E b v n) as [[v' r] n'] eqn:Hd.
    rewrite (Get_decoded c p v w u st b n v' r n' Hp Hg Hd).
    cbn. now rewrite <- !app_assoc.
  - rewrite (Get_bad_status c p v w u st code b n Hp Hg Hc).
    apply Z.eqb_neq in Hc. rewrite Hc.
    cbn. now rewrite <- !app_assoc.
Qed.

(** C9.  When [Get] fails before decoding (the base URL is malformed,
    the request fails, or the status is not 200) it returns an error,
    the value [v] is unchanged and the decoder has read nothing. *)
Theorem Get_early_failure_keeps_target c p v w f :
  condition E c p v w = Some f ->
  f <> ErrDecode ->
  err (Get E c p v w) <> None
  /\ target (Get E c p v w) = v
  /\ filter (is_read E) (trace (world (Get E c p v w)))
     = filter (is_read E) (trace w).
Proof.
  unfold condition. intros Hf Hne.
  get_cases c p v w; cbn in *.
  - destruct r; [congruence | discriminate].
  - split; [discriminate|]. split; [reflexivity|].
    rewrite !filter_app. cbn. now rewrite !app_nil_r.
  - split; [discriminate|]. split; [reflexivity|].
    rewrite !filter_app. cbn. now rewrite !app_nil_r.
  - split; [discriminate|]. split; reflexivity.
Qed.

(** No statement of [Get] changes the receiver. *)
Lemma step_object (sh : Shared E) (k : Call E) :
  object (fst (step E sh k)) = object sh.
Proof.
  unfold step. destruct (point k) as [|e|u|resp|resp e|e]; try reflexivity.
  - now destruct (do_http_Get E (object sh) (target_URL E u (arg_p k))
                    (outside sh)) as [[resp|e] w'].
  - destruct (negb (Z.eqb (StatusCode resp) StatusOK)); [reflexivity|].
    now destruct (do_Decode E (RespBody resp) (arg_v k) (outside sh))
      as [[v' [e|]] w'].
Qed.

(** What a statement reads, it reads from the receiver as it is. *)
Lemma step_reads (sh : Shared E) (k : Call E) :
  let c := object sh in
  Forall (reads_from E (url c) (http c)) (reads k) ->
  Forall (reads_from E (url c) (http c)) (reads (snd (step E sh k))).
Proof.
  intros c H. unfold step.
  destruct (point k) as [|e|u|resp|resp e|e]; cbn [snd reads];
    try exact H.
  - apply Forall_app. split; [exact H|]. repeat constructor.
  - apply Forall_app. split; [exact H|]. repeat constructor.
  - destruct (do_http_Get E (object sh) (target_URL E u (arg_p k))
                (outside sh)) as [[resp|e] w']; cbn [snd reads];
      (apply Forall_app; split; [exact H|]);
      constructor; [now right | constructor | now right | constructor].
  - destruct (negb (Z.eqb (StatusCode resp) StatusOK)); [exact H|].
    now destruct (do_Decode E (RespBody resp) (arg_v k) (outside sh))
      as [[v' [e|]] w'].
Qed.

Lemma put_call_Forall (P : Call E -> Prop) (i : nat) (k : Call E)
  (ks : list (Call E)) :
  P k -> Forall P ks -> Forall P (put_call E i k ks).
Proof.
  intros Hk H. revert i. induction H as [|k0 ks H0 Hks IH]; intros i.
  - destruct i; constructor.
  - destruct i; cbn; constructor; auto.
Qed.

(** Calls that go on in any order leave the receiver as it is, and
    read from it what it has. *)
Lemma run_keeps_receiver (sched : list nat) (sh : Shared E)
  (ks : list (Call E)) :
  let c := object sh in
  Forall (fun k => Forall (reads_from E (url c) (http c)) (reads k)) ks ->
  object (fst (run E sched sh ks)) = c
  /\ Forall (fun k => Forall (reads_from E (url c) (http c)) (reads k))
       (snd (run E sched sh ks)).
Proof.
  cbn zeta. revert sh ks.
  induction sched as [|i sched IH]; intros sh ks H; cbn [run].
  - now split.
  - destruct (nth_error ks i) as [k|] eqn:Hk; [|now apply IH].
    pose proof (step_object sh k) as Ho.
    assert (Hin : Forall (reads_from E (url (object sh)) (http (object sh)))
                    (reads k)).
    { apply nth_error_In in Hk.
      now apply (proj1 (Forall_forall _ ks) H). }
    pose proof (step_reads sh k Hin) as Hr. cbn zeta in Hr.
    rewrite <- Ho in H, Hr |- *.
    apply IH. now apply put_call_Forall.
Qed.

(** A call that goes on alone returns as [Get] does, in at most four
    statements. *)
Lemma run_alone c p v w :
  let r := run E [0; 0; 0; 0]%nat (mkShared E c w) [enter E p v] in
  object (fst r) = recv (Get E c p v w)
  /\ outside (fst r) = world (Get E c p v w)
  /\ map point (snd r) = [Returned (err (Get E c p v w))]
  /\ map arg_v (snd r) = [target (Get E c p v w)].
Proof.
  cbn zeta. unfold Get.
  cbn [run nth_error enter step point arg_p arg_v reads object outside
       fst snd put_call].
  destruct (url_Parse E (url c)) as [u|e];
    cbn [run nth_error step point arg_p arg_v reads object outside
         fst snd put_call map]; [|repeat split].
  destruct (do_http_Get E c (target_URL E u p) w) as [[resp|e] w1];
    cbn [run nth_error step point arg_p arg_v reads object outside
         fst snd put_call map]; [|repeat split].
  destruct (negb (Z.eqb (StatusCode resp) StatusOK));
    cbn [run nth_error step point arg_p arg_v reads object outside
         fst snd put_call map defer err recv target world];
    [repeat split|].
  destruct (do_Decode E (RespBody resp) v w1) as [[v' [e|]] w2];
    cbn [run nth_error step point arg_p arg_v reads object outside
         fst snd put_call map defer err recv target world];
    repeat split.
Qed.

(** C10.  [Get] does not assign to the fields of its receiver.  Let any
    number of calls of [Get] on a client made by [NewXMLClient] go on,
    one statement of one call at a time, in any order: one after the
    other or overlapping.  At every moment the client has the base URL
    and the HTTP client it was made with, and whatever a call has read
    from the client is that base URL or that HTTP client.  A call that
    goes on alone is a call of [Get], which returns its receiver as it
    got it. *)
Theorem Get_keeps_receiver (base : string) (h : HttpClient E) w
  (args : list (string * V E)) (sched : list nat) :
  let c := NewXMLClient E base h in
  let r := run E sched (mkShared E c w)
             (map (fun a => enter E (fst a) (snd a)) args) in
  (object (fst r) = c
   /\ url (object (fst r)) = base
   /\ http (object (fst r)) = h
   /\ Forall (fun k => Forall (reads_from E base h) (reads k)) (snd r))
  /\ (forall p v,
        let r1 := run E [0; 0; 0; 0]%nat (mkShared E c w) [enter E p v] in
        object (fst r1) = c
        /\ outside (fst r1) = world (Get E c p v w)
        /\ map point (snd r1) = [Returned (err (Get E c p v w))]
        /\ map arg_v (snd r1) = [target (Get E c p v w)]
        /\ recv (Get E c p v w) = c).
Proof.
  intros c r. split.
  - destruct (run_keeps_receiver sched (mkShared E c w)
                (map (fun a => enter E (fst a) (snd a)) args)) as [Ho Hr].
    { apply Forall_forall. intros k Hk.
      apply in_map_iff in Hk as [a [<- _]]. constructor. }
    fold r in Ho, Hr. cbn [object] in Ho, Hr. rewrite Ho.
    repeat split. exact Hr.
  - intros p v r1.
    destruct (run_alone c p v w) as [H1 [H2 [H3 H4]]]. fold r1 in H1, H2, H3, H4.
    assert (H : recv (Get E c p v w) = c).
    { clear. get_cases c p v w; reflexivity. }
    rewrite H in H1. repeat split; assumption.
Qed.

End Facts.

Import example.

(** Two calls against the example server that overlap: each one
    returns what it returns alone, every body that was opened is closed,
    and the client is as it was made. *)
Lemma overlapping_calls_example :
  let r := run env [0; 1; 1; 0; 0; 1; 0; 1]%nat (mkShared env client world0)
             [enter env "tasks" zero_TaskManager;
              enter env "view" zero_TaskManager] in
  object (fst r) = client
  /\ map point (snd r)
     = [Returned (err (Get env client "tasks" zero_TaskManager world0));
        Returned (err (Get env client "view" zero_TaskManager world0))]
  /\ map arg_v (snd r)
     = [target (Get env client "tasks" zero_TaskManager world0);
        zero_TaskManager]
  /\ map reads (snd r)
     = [[ReadUrl (url client); ReadHttp (http client)];
        [ReadUrl (url client); ReadHttp (http client)]]
  /\ count env (is_request env) (trace (outside (fst r))) = 2%nat
  /\ count env (is_open env) (trace (outside (fst r))) = 2%nat
  /\ count env (is_close env) (trace (outside (fst r))) = 2%nat.
Proof.
  repeat split.
Qed.

Lemma Get_unexpected_status_witness :
  err (Get env client "view" zero_TaskManager world0)
  = Some (errorString "unexpected status 404 Not Found")
  /\ target (Get env client "view" zero_TaskManager world0)
     = zero_TaskManager
  /\ filter (is_read env)
       (trace (world (Get env client "view" zero_TaskManager world0)))
     = filter (is_read env) (trace world0).
Proof.
  apply (Get_unexpected_status env client "view" zero_TaskManager world0
           (mkURL "http" "localhost:8053" "/stats" "")
           "404 Not Found" 404%Z
           (Some (xml.Element "html" [] [xml.CharData "not found"]))
           1%nat).
  - reflexivity.
  - reflexivity.
  - discriminate.
Defined.

Lemma Get_closes_body_witness :
  trace (world (Get env client "broken" zero_TaskManager world0))
  = [@EvRequest env "http://localhost:8053/stats/broken";
     @EvOpen env None; @EvRead env None; @EvClose env None].
Proof.
  apply (Get_closes_body env client "broken" zero_TaskManager world0
           (mkURL "http" "localhost:8053" "/stats" "")
           "200 OK" 200%Z None 1%nat).
  - reflexivity.
  - reflexivity.
Defined.

Lemma Get_early_failure_keeps_target_witness :
  err (Get env (NewXMLClient env "http://down.example:8053" tt) "tasks"
         zero_TaskManager world0) <> None
  /\ target (Get env (NewXMLClient env "http://down.example:8053" tt)
               "tasks" zero_TaskManager world0) = zero_TaskManager
  /\ filter (is_read env)
       (trace (world (Get env
                        (NewXMLClient env "http://down.example:8053" tt)
                        "tasks" zero_TaskManager world0)))
     = filter (is_read env) (trace world0).
Proof.
  apply (Get_early_failure_keeps_target env
           (NewXMLClient env "http://down.example:8053" tt) "tasks"
           zero_TaskManager world0 ErrTransport).
  - reflexivity.
  - discriminate.
Defined.

Lemma Get_request_path_witness :
  (exists evs,
     trace (world (Get env client "tasks" zero_TaskManager world0))
     = @EvRequest env "http://localhost:8053/stats/tasks" :: evs)
  /\ path.double_slash (path.Join ["/stats"; "tasks"]) = false
  /\ ("/stats" <> "" ->
      path.Join ["/stats"; "tasks"] = path.Clean "/stats/tasks"
      /\ (~ In ".." (path.elements "tasks") ->
          path.Join ["/stats"; "tasks"] = "/stats/tasks"))
  /\ ("/stats" = "" ->
      path.Join ["/stats"; "tasks"] = path.Clean "tasks"
      /\ ("tasks" <> "" -> ~ In ".." (path.elements "tasks") ->
          path.Join ["/stats"; "tasks"] = "tasks")).
Proof.
  apply (Get_request_path env client "tasks" zero_TaskManager world0
           (mkURL "http" "localhost:8053" "/stats" "")).
  reflexivity.
Defined.

(** C3, as stated, fails: with the base URL
    [http://localhost:8053/stats] and a path that climbs with [..], [Get]
    requests a URL whose path is not below [/stats]. *)
Lemma Get_path_escapes_root :
  bind.url_Parse env (url client)
  = inl (mkURL "http" "localhost:8053" "/stats" "")
  /\ path.Join ["/stats"; "../../etc/passwd"] = "/etc/passwd"
  /\ path.is_prefix (path.path_elements "/stats")
       (path.path_elements "/etc/passwd") = false
  /\ hd_error
       (trace (world (Get env client "../../etc/passwd" zero_TaskManager
                        world0)))
     = Some (EvRequest "http://localhost:8053/etc/passwd").
Proof.
  repeat split.
Qed.

(** C2, as stated, fails: the error that [Get] returns when the
    connection is refused does not wrap the error of the HTTP client; the
    cause cannot be got back from it. *)
Lemma Get_does_not_wrap_cause :
  exists e z,
    err (Get env (NewXMLClient env "http://down.example:8053" tt) "tasks"
           zero_TaskManager world0) = Some e
    /\ cause env (NewXMLClient env "http://down.example:8053" tt) "tasks"
         zero_TaskManager world0 = Some z
    /\ Unwrap e = None
    /\ Is e z = false.
Proof.
  eexists. eexists. repeat split.
Qed.

End transport_facts.

(** * Properties of the group selector and of the client *)

Module client_facts.
Import errors fmt bind.

(** C7, as stated, fails: [StatisticGroup] is the type of all strings, and
    a caller can make values of it that are none of the three declared
    ones. *)
Lemma StatisticGroup_is_not_closed :
  ~ (forall g : StatisticGroup, In g declared_groups).
Proof.
  intros H. specialize (H ("zones" : StatisticGroup)).
  cbn in H. intuition discriminate.
Qed.

(** C7, as the code has it.  The package declares exactly three values of
    [StatisticGroup], the tokens [server], [view] and [tasks], which are
    pairwise distinct; nothing in it validates a value: the test for
    being declared is the comparison with these three strings. *)
Theorem StatisticGroup_declared :
  declared_groups = ["server"; "view"; "tasks"]
  /\ NoDup declared_groups
  /\ forall g : StatisticGroup,
       is_declared g = true
       <-> g = ServerStats \/ g = ViewStats \/ g = TaskStats.
Proof.
  split; [reflexivity|]. split.
  - repeat constructor; cbn; intuition discriminate.
  - intros g. unfold is_declared, declared_groups. cbn.
    rewrite !orb_true_iff, !String.eqb_eq. intuition discriminate.
Qed.

Section Client.
Context (E : Env) (T : TimeLib) (I : ClientImpl E T).

Lemma fetch_groups_fails c groups stats w :
  fetch_fails E T I c groups w = true ->
  exists e w',
    fetch_groups E T I c groups stats w = (zero_Statistics T, Some e, w').
Proof.
  revert stats w.
  induction groups as [|g groups IH]; intros stats w; cbn.
  - discriminate.
  - destruct (err (Get E c (groupPath I g) (rawGroup I g) w)) as [e|].
    + intros _. eauto.
    + apply IH.
Qed.

Lemma fetch_groups_succeeds c groups stats w :
  fetch_fails E T I c groups w = false ->
  exists s w', fetch_groups E T I c groups stats w = (s, None, w').
Proof.
  revert stats w.
  induction groups as [|g groups IH]; intros stats w; cbn.
  - eauto.
  - destruct (err (Get E c (groupPath I g) (rawGroup I g) w)) as [e|].
    + discriminate.
    + apply IH.
Qed.

(** A group whose fetch fails in every world makes some fetch of the
    run fail. *)
Lemma fetch_fails_of_failing_group c groups w g :
  In g groups ->
  (forall w', err (Get E c (groupPath I g) (rawGroup I g) w') <> None) ->
  fetch_fails E T I c groups w = true.
Proof.
  intros Hin Hg. revert w.
  induction groups as [|g' groups IH]; intros w; cbn.
  - destruct Hin.
  - destruct (err (Get E c (groupPath I g') (rawGroup I g') w)) eqn:He;
      [reflexivity|].
    destruct Hin as [->|Hin].
    + now apply Hg in He.
    + now apply IH.
Qed.

(** C1.  For every list of requested groups, when the [Get] of one of
    the groups fetched returns an error, [Stats] returns an error and
    the empty [Statistics], whatever the groups fetched before it had
    put into the aggregate. *)
Theorem Stats_fails_atomically c groups w :
  fetch_fails E T I c (requested E T I groups) w = true ->
  exists e w',
    Stats E T I c groups w = (zero_Statistics T, Some e, w').
Proof.
  unfold Stats. apply fetch_groups_fails.
Qed.

(** [Stats] returns an error only when a fetch fails. *)
Lemma Stats_succeeds c groups w :
  fetch_fails E T I c (requested E T I groups) w = false ->
  exists s w', Stats E T I c groups w = (s, None, w').
Proof.
  unfold Stats. apply fetch_groups_succeeds.
Qed.

(** When a requested group cannot be fetched, whatever the state of the
    world, [Stats] returns an error and the empty [Statistics]. *)
Lemma Stats_fails_on_failing_group c groups w g :
  In g (requested E T I groups) ->
  (forall w', err (Get E c (groupPath I g) (rawGroup I g) w') <> None) ->
  exists e w',
    Stats E T I c groups w = (zero_Statistics T, Some e, w').
Proof.
  intros Hin Hg. unfold Stats. apply fetch_groups_fails.
  now apply fetch_fails_of_failing_group with (g := g).
Qed.

End Client.

Import example.

Lemma Stats_fails_atomically_witness :
  exists e w',
    Stats env timelib impl client [TaskStats; ViewStats] world0
    = (zero_Statistics timelib, Some e, w').
Proof.
  apply (Stats_fails_atomically env timelib impl client
           [TaskStats; ViewStats] world0).
  reflexivity.
Defined.

End client_facts.

(** * Numbers as the documents write them: padding and overflow *)

Module number_facts.
Import strconv strings.
Local Open Scope Z_scope.

Lemma trim_left_space (ws t : string) :
  all_space ws = true -> trim_left (ws ++ t) = trim_left t.
Proof.
  induction ws as [|a ws IH]; intros H; [reflexivity|].
  cbn [all_space] in H. apply andb_true_iff in H as [Ha Hws].
  cbn [append trim_left]. rewrite Ha. now apply IH.
Qed.

Lemma trim_left_rev_space (ws t : string) :
  all_space ws = true -> trim_left_rev (ws ++ t) = trim_left_rev t.
Proof.
  induction ws as [|a ws IH]; intros H; [reflexivity|].
  cbn [all_space] in H. apply andb_true_iff in H as [Ha Hws].
  cbn [append trim_left_rev]. rewrite Ha. now apply IH.
Qed.

Lemma all_space_append (s t : string) :
  all_space (s ++ t) = all_space s && all_space t.
Proof.
  induction s as [|c s IH]; cbn; [reflexivity|].
  now rewrite IH, andb_assoc.
Qed.

Lemma all_space_rev (s : string) :
  all_space (rev_string s "") = all_space s.
Proof.
  induction s as [|c s IH]; cbn; [reflexivity|].
  rewrite (strings_facts.rev_string_app s (String c "")), all_space_append,
    IH.
  cbn. now rewrite andb_true_r, andb_comm.
Qed.

Lemma trim_right_space (t ws : string) :
  all_space ws = true -> trim_right (t ++ ws) = trim_right t.
Proof.
  intros H. unfold trim_right.
  rewrite strings_facts.rev_string_append, trim_left_rev_space;
    [reflexivity|].
  now rewrite all_space_rev.
Qed.

Lemma trim_left_all_space (ws : string) :
  all_space ws = true -> trim_left ws = "".
Proof.
  intros H. rewrite <- (string_facts.append_nil_r ws).
  now rewrite trim_left_space.
Qed.

(** White space around text without white space is trimmed, and nothing
    else. *)
Lemma TrimSpace_padded (ws1 t ws2 : string) :
  all_space ws1 = true -> all_space ws2 = true -> all_plain t = true ->
  TrimSpace (ws1 ++ t ++ ws2) = t.
Proof.
  intros H1 H2 Ht. unfold TrimSpace. rewrite trim_left_space by exact H1.
  destruct t as [|a t].
  - cbn [append]. now rewrite trim_left_all_space.
  - pose proof Ht as Ha. cbn [all_plain] in Ha.
    apply andb_true_iff in Ha as [Ha _].
    cbn [append]. rewrite strings_facts.trim_left_plain by exact Ha.
    change (String a (t ++ ws2)) with (String a t ++ ws2).
    rewrite trim_right_space by exact H2.
    pose proof (strings_facts.TrimSpace_all_plain (String a t) Ht) as Hid.
    unfold TrimSpace in Hid.
    now rewrite strings_facts.trim_left_plain in Hid by exact Ha.
Qed.

Lemma TrimSpace_all_space (ws : string) :
  all_space ws = true -> TrimSpace ws = "".
Proof.
  intros H. unfold TrimSpace. now rewrite trim_left_all_space.
Qed.

(** Digits whose number does not fit 64 bits stop the loop of [ParseUint]
    with a range error: the number never wraps around. *)
Lemma parse_loop_overflow (s : string) (n : Z) :
  all_digits s = true -> 0 <= n <= maxUint64 ->
  maxUint64 < digits_value s n ->
  parse_loop s n = (maxUint64, Some ErrRange).
Proof.
  revert n. induction s as [|c s IH]; intros n Hs Hn Hv;
    cbn [all_digits digits_value parse_loop] in *.
  - lia.
  - apply andb_true_iff in Hs as [Hc Hs]. rewrite Hc.
    apply strconv_facts.is_digit_bounds in Hc.
    unfold maxUint64 in *.
    change ((2 ^ 64 - 1) / 10 + 1) with 1844674407370955162.
    change (2 ^ 64 - 1) with 18446744073709551615 in *.
    change (2 ^ 64) with 18446744073709551616.
    destruct (Z.geb_spec n 1844674407370955162) as [|Hlt]; [reflexivity|].
    rewrite (Z.mod_small (n * 10)) by lia.
    destruct (Z_lt_le_dec (n * 10 + (byte c - byte "0"))
                18446744073709551616) as [Hfit|Hwrap].
    + rewrite (Z.mod_small (n * 10 + _)) by lia.
      destruct (Z.ltb_spec (n * 10 + (byte c - byte "0")) (n * 10)); [lia|].
      destruct (Z.gtb_spec (n * 10 + (byte c - byte "0"))
                  18446744073709551615); [lia|].
      cbn [orb]. apply IH; [assumption | lia | assumption].
    + assert (Hm : (n * 10 + (byte c - byte "0")) mod 18446744073709551616
                   = n * 10 + (byte c - byte "0") - 18446744073709551616).
      { symmetry. apply Z.mod_unique with (q := 1); lia. }
      rewrite Hm.
      destruct (Z.ltb_spec (n * 10 + (byte c - byte "0")
                            - 18446744073709551616) (n * 10)); [|lia].
      reflexivity.
Qed.

Lemma ParseUint_overflow (n : Z) :
  maxUint64 < n ->
  ParseUint (FormatUint n)
  = (maxUint64, Some (mkNumError "ParseUint" (FormatUint n) ErrRange)).
Proof.
  intros Hn. assert (H0 : 0 <= n) by (unfold maxUint64 in Hn; lia).
  unfold ParseUint.
  destruct (String.eqb_spec (FormatUint n) "") as [H|_].
  { now apply strconv_facts.FormatUint_not_empty in H. }
  rewrite parse_loop_overflow; [reflexivity| | |].
  - now apply strconv_facts.FormatUint_all_digits.
  - unfold maxUint64. lia.
  - now rewrite strconv_facts.FormatUint_value.
Qed.

(** The text of an integer outside of [int64] is a range error of
    [ParseInt]. *)
Lemma ParseInt_overflow (z : Z) :
  z < - 2 ^ 63 \/ 2 ^ 63 <= z ->
  snd (ParseInt (FormatInt z))
  = Some (mkNumError "ParseInt" (FormatInt z) ErrRange).
Proof.
  intros Hz. unfold FormatInt. destruct (Z.ltb_spec z 0) as [Hneg|Hpos].
  - cbn [ParseInt]. cbn [Ascii.eqb Bool.eqb].
    destruct (Z_le_gt_dec (- z) maxUint64) as [Hfit|Hbig].
    + rewrite strconv_facts.ParseUint_FormatUint by lia.
      cbn [negb andb].
      destruct (Z.gtb_spec (- z) (2 ^ 63)); [reflexivity|lia].
    + rewrite ParseUint_overflow by lia. reflexivity.
  - pose proof (strconv_facts.FormatUint_all_digits z Hpos) as Hd.
    destruct (Z_le_gt_dec z maxUint64) as [Hfit|Hbig].
    + pose proof (strconv_facts.ParseUint_FormatUint z) as Hp.
      destruct (FormatUint z) as [|c rest] eqn:Hf.
      { now apply strconv_facts.FormatUint_not_empty in Hf. }
      cbn [ParseInt]. cbn in Hd. apply andb_true_iff in Hd as [Hc _].
      apply strconv_facts.is_digit_not_sign in Hc as [-> ->].
      rewrite Hp by lia. cbn [negb andb].
      destruct (Z.geb_spec z (2 ^ 63)); [reflexivity|lia].
    + pose proof (ParseUint_overflow z) as Hp.
      destruct (FormatUint z) as [|c rest] eqn:Hf.
      { now apply strconv_facts.FormatUint_not_empty in Hf. }
      cbn [ParseInt]. cbn in Hd. apply andb_true_iff in Hd as [Hc _].
      apply strconv_facts.is_digit_not_sign in Hc as [-> ->].
      rewrite Hp by lia. reflexivity.
Qed.

End number_facts.

(** * Documents and the values they decode to *)

Module document_facts.
Import xml bind xml_facts.

Lemma tokens_app {S : Type} (f : Node -> S -> Decoded S)
  (cs1 cs2 : list Node) (s : S) :
  tokens f (cs1 ++ cs2) s = and_then (tokens f cs1 s) (tokens f cs2).
Proof.
  revert s. induction cs1 as [|c cs1 IH]; intros s; cbn; [reflexivity|].
  destruct (f c s) as [s1 [e|]]; cbn; [reflexivity|]. apply IH.
Qed.

(** Tokens that the step leaves alone can be dropped. *)
Lemma tokens_skip {S : Type} (f : Node -> S -> Decoded S)
  (sel : Node -> bool) (cs : list Node) (s : S) :
  (forall c s, sel c = true -> f c s = ok s) ->
  tokens f (filter (fun c => negb (sel c)) cs) s = tokens f cs s.
Proof.
  intros Hskip. revert s. induction cs as [|c cs IH]; intros s; cbn;
    [reflexivity|].
  destruct (sel c) eqn:Hc; cbn.
  - rewrite (Hskip c s Hc). cbn. apply IH.
  - destruct (f c s) as [s1 [e|]]; cbn; [reflexivity|]. apply IH.
Qed.

(** A run of elements that each add one value to a sequence adds the
    values in the order of the elements. *)
Lemma tokens_map_append {S X : Type} (f : Node -> S -> Decoded S)
  (enc : X -> Node) (get : S -> list X) (set : list X -> S -> S)
  (valid : X -> Prop) :
  (forall x s, get (set x s) = x) ->
  (forall s, set (get s) s = s) ->
  (forall x y s, set x (set y s) = set x s) ->
  (forall x s, valid x -> f (enc x) s = ok (set (get s ++ [x])%list s)) ->
  forall xs s, Forall valid xs ->
    tokens f (map enc xs) s = ok (set (get s ++ xs)%list s).
Proof.
  intros get_set set_get set_set Hstep xs.
  induction xs as [|x xs IH]; intros s Hv; cbn.
  - now rewrite app_nil_r, set_get.
  - inversion Hv as [|? ? Hx Hxs]; subst.
    rewrite (Hstep x s Hx). cbn. rewrite (IH _ Hxs).
    now rewrite get_set, set_set, <- app_assoc.
Qed.

Lemma chardata_omit (name : string) (cs : list Node) :
  chardata (filter (fun c => negb (named name c)) cs) = chardata cs.
Proof.
  induction cs as [|[m a cs'|d|d] cs IH]; cbn.
  - reflexivity.
  - destruct (String.eqb m name); cbn; exact IH.
  - now rewrite IH.
  - exact IH.
Qed.

Section Unknown.
Context {S : Type} (fields : list (fieldInfo S)).

Lemma find_field_unknown (fs : list (fieldInfo S)) (name : string) :
  ~ In name (child_names fs) -> find_field fs [] name = NoMatch S.
Proof.
  induction fs as [|[n d|d|ps n d] fs IH]; intros Hn; cbn in *; auto.
  destruct ps as [|p ps]; cbn in *.
  - destruct (String.eqb_spec n name) as [->|_].
    + exfalso. apply Hn. now left.
    + apply IH. intros H. apply Hn. now right.
  - destruct (String.eqb_spec p name) as [->|_].
    + exfalso. apply Hn. now left.
    + apply IH. intros H. apply Hn. now right.
Qed.

(** The child elements that no field of a struct takes do not matter to
    the decoder of the struct. *)
Lemma unknown_elements_struct (name : string) (doc : Node) (v : S) :
  ~ In name (child_names fields) ->
  Decode (unmarshal_struct fields) (omit name doc) v
  = Decode (unmarshal_struct fields) doc v.
Proof.
  intros Hn. destruct doc as [m attrs cs| |]; [|reflexivity..].
  cbn. unfold unmarshal_struct. cbn.
  destruct (unmarshal_attrs fields attrs v) as [s1 [e|]]; cbn;
    [reflexivity|].
  unfold unmarshal_children. rewrite chardata_omit.
  rewrite (tokens_skip _ (named name)); [reflexivity|].
  intros c s Hc. destruct c as [m' attrs' cs'| |]; try discriminate.
  cbn in Hc. apply String.eqb_eq in Hc. subst m'.
  cbn. now rewrite find_field_unknown.
Qed.

End Unknown.

(** The decoders on the elements of the model, up to the text of the
    numbers. *)
Lemma unmarshal_Counter_text (tag name text : string) :
  unmarshal_Counter (Counter_element tag name text) zero_Counter
  = field Counter_Counter set_Counter_Counter copy_uint64 text
      (mkCounter name 0).
Proof.
  unfold unmarshal_Counter, unmarshal_struct, Counter_element,
    Counter_fields.
  cbn -[copy_uint64]. rewrite string_facts.append_nil_r. reflexivity.
Qed.

Lemma unmarshal_Gauge_text (tag name text : string) :
  unmarshal_Gauge (Gauge_element tag name text) zero_Gauge
  = field Gauge_Gauge set_Gauge_Gauge copy_uint64 text (mkGauge name 0).
Proof.
  unfold unmarshal_Gauge, unmarshal_struct, Gauge_element, Gauge_fields.
  cbn -[copy_uint64]. unfold field, unmarshal_uint64. cbn -[copy_uint64].
  rewrite !string_facts.append_nil_r.
  destruct (copy_uint64 text 0) as [z [e|]]; reflexivity.
Qed.

Lemma copy_uint64_padded (ws1 ws2 : string) (n dst : Z) :
  is_uint64 n ->
  strings.all_space ws1 = true -> strings.all_space ws2 = true ->
  copy_uint64 (ws1 ++ strconv.FormatUint n ++ ws2) dst = ok n.
Proof.
  intros Hn H1 H2. unfold copy_uint64.
  destruct (String.eqb_spec (ws1 ++ strconv.FormatUint n ++ ws2) "")
    as [H|_].
  - apply string_facts.append_eq_nil in H as [_ H].
    apply string_facts.append_eq_nil in H as [H _].
    now apply strconv_facts.FormatUint_not_empty in H.
  - rewrite number_facts.TrimSpace_padded; try assumption.
    + rewrite strconv_facts.ParseUint_FormatUint; [reflexivity|].
      unfold is_uint64 in Hn. unfold strconv.maxUint64. lia.
    + apply strings_facts.all_digits_plain.
      apply strconv_facts.FormatUint_all_digits. apply Hn.
Qed.

Lemma copy_uint64_blank (ws : string) (dst : Z) :
  ws <> "" -> strings.all_space ws = true ->
  copy_uint64 ws dst
  = (dst, Some (ErrNum (strconv.mkNumError "ParseUint" ""
                          strconv.ErrSyntax))).
Proof.
  intros Hne Hws. unfold copy_uint64.
  destruct (String.eqb_spec ws ""); [contradiction|].
  now rewrite number_facts.TrimSpace_all_space.
Qed.

Lemma copy_uint64_overflow (n dst : Z) :
  (strconv.maxUint64 < n)%Z ->
  copy_uint64 (strconv.FormatUint n) dst
  = (dst, Some (ErrNum (strconv.mkNumError "ParseUint"
                          (strconv.FormatUint n) strconv.ErrRange))).
Proof.
  intros Hn. unfold copy_uint64.
  destruct (String.eqb_spec (strconv.FormatUint n) "") as [H|_].
  { now apply strconv_facts.FormatUint_not_empty in H. }
  rewrite strings_facts.TrimSpace_FormatUint
    by (unfold strconv.maxUint64 in Hn; lia).
  now rewrite number_facts.ParseUint_overflow.
Qed.

Lemma unmarshal_Counter_encode (tag : string) (c : Counter) :
  valid_Counter c ->
  unmarshal_Counter (encode_Counter tag c) zero_Counter = ok c.
Proof.
  intros Hc. destruct c as [name v]. unfold encode_Counter.
  cbn [Counter_Name Counter_Counter].
  rewrite unmarshal_Counter_text. unfold field.
  cbn [Counter_Name Counter_Counter].
  now rewrite model_facts.copy_uint64_FormatUint by exact Hc.
Qed.

Lemma unmarshal_Gauge_encode (tag : string) (g : Gauge) :
  valid_Gauge g -> unmarshal_Gauge (encode_Gauge tag g) zero_Gauge = ok g.
Proof.
  intros Hg. destruct g as [name v]. unfold encode_Gauge.
  cbn [Gauge_Name Gauge_Gauge].
  rewrite unmarshal_Gauge_text. unfold field.
  cbn [Gauge_Name Gauge_Gauge].
  now rewrite model_facts.copy_uint64_FormatUint by exact Hg.
Qed.

Lemma unmarshal_Task_encode (t : Task) :
  valid_Task t -> unmarshal_Task (encode_Task t) zero_Task = ok t.
Proof.
  intros [Hq Hr]. destruct t as [id name q refs state]. cbn in Hq, Hr.
  unfold encode_Task, unmarshal_Task, unmarshal_struct, task_element,
    Task_fields.
  cbn -[strconv.FormatInt strconv.FormatUint copy_int64 copy_uint64].
  unfold field, unmarshal_int64, unmarshal_uint64, unmarshal_string.
  cbn -[strconv.FormatInt strconv.FormatUint copy_int64 copy_uint64].
  rewrite !string_facts.append_nil_r.
  rewrite model_facts.copy_int64_FormatInt by exact Hq.
  cbn -[strconv.FormatInt strconv.FormatUint copy_int64 copy_uint64].
  rewrite model_facts.copy_uint64_FormatUint by exact Hr.
  reflexivity.
Qed.

Lemma unmarshal_ThreadModel_encode (m : ThreadModel) :
  valid_ThreadModel m ->
  unmarshal_ThreadModel (encode_ThreadModel m) zero_ThreadModel = ok m.
Proof.
  intros (Hw & Hd & Hr). destruct m as [ty w d r]. cbn in Hw, Hd, Hr.
  unfold encode_ThreadModel, unmarshal_ThreadModel, unmarshal_struct,
    ThreadModel_element, ThreadModel_fields.
  cbn -[strconv.FormatUint copy_uint64].
  unfold field, unmarshal_uint64, unmarshal_string.
  cbn -[strconv.FormatUint copy_uint64].
  rewrite !string_facts.append_nil_r.
  rewrite model_facts.copy_uint64_FormatUint by exact Hw.
  cbn -[strconv.FormatUint copy_uint64].
  rewrite model_facts.copy_uint64_FormatUint by exact Hd.
  cbn -[strconv.FormatUint copy_uint64].
  rewrite model_facts.copy_uint64_FormatUint by exact Hr.
  reflexivity.
Qed.

(** X6.  The text of a counter may be surrounded by white space, as in an
    indented document: the counter decodes to the number all the same. *)
Theorem Counter_decoding_padded (tag name ws1 ws2 : string) (v : Z) :
  is_uint64 v ->
  strings.all_space ws1 = true -> strings.all_space ws2 = true ->
  unmarshal_Counter
    (Counter_element tag name (ws1 ++ strconv.FormatUint v ++ ws2))
    zero_Counter
  = (mkCounter name v, None).
Proof.
  intros Hv H1 H2. rewrite unmarshal_Counter_text. unfold field.
  cbn [Counter_Counter]. now rewrite copy_uint64_padded.
Qed.

Lemma Counter_decoding_padded_witness :
  unmarshal_Counter
    (Counter_element "counter" "QryRTT10"
       (String "010" "  " ++ "10" ++ String "010" " "))
    zero_Counter
  = (mkCounter "QryRTT10" 10, None).
Proof.
  apply (Counter_decoding_padded "counter" "QryRTT10" (String "010" "  ")
           (String "010" " ") 10).
  - unfold is_uint64. lia.
  - reflexivity.
  - reflexivity.
Defined.

(** X7.  A counter without text decodes to zero, but a counter whose text is
    white space only does not decode: the trimmed text is not a number. *)
Theorem Counter_empty_or_blank (tag name ws : string) :
  ws <> "" -> strings.all_space ws = true ->
  unmarshal_Counter (Counter_element tag name "") zero_Counter
  = (mkCounter name 0, None)
  /\ unmarshal_Counter (Counter_element tag name ws) zero_Counter
     = (mkCounter name 0,
        Some (ErrNum (strconv.mkNumError "ParseUint" ""
                        strconv.ErrSyntax))).
Proof.
  intros Hne Hws. split.
  - rewrite unmarshal_Counter_text. reflexivity.
  - rewrite unmarshal_Counter_text. unfold field. cbn [Counter_Counter].
    now rewrite copy_uint64_blank.
Qed.

Lemma Counter_empty_or_blank_witness :
  unmarshal_Counter (Counter_element "counter" "QryRTT10" "") zero_Counter
  = (mkCounter "QryRTT10" 0, None)
  /\ unmarshal_Counter (Counter_element "counter" "QryRTT10" " ")
       zero_Counter
     = (mkCounter "QryRTT10" 0,
        Some (ErrNum (strconv.mkNumError "ParseUint" ""
                        strconv.ErrSyntax))).
Proof.
  apply (Counter_empty_or_blank "counter" "QryRTT10" " ").
  - discriminate.
  - reflexivity.
Defined.

(** X8.  A counter whose text is a number that is not a [uint64] does not
    decode, and its value is left at zero: a negative number is a syntax
    error, a number above the largest [uint64] a range error; no number
    wraps around. *)
Theorem Counter_out_of_range (tag name : string) (v : Z) :
  (v < 0 \/ strconv.maxUint64 < v)%Z ->
  unmarshal_Counter (Counter_element tag name (strconv.FormatInt v))
    zero_Counter
  = (mkCounter name 0,
     Some (ErrNum (strconv.mkNumError "ParseUint" (strconv.FormatInt v)
                     (if (v <? 0)%Z then strconv.ErrSyntax
                      else strconv.ErrRange)))).
Proof.
  intros Hv. rewrite unmarshal_Counter_text. unfold field.
  cbn [Counter_Counter].
  destruct (Z.ltb_spec v 0) as [Hneg|Hpos].
  - now rewrite model_facts.copy_uint64_negative.
  - assert (Hbig : (strconv.maxUint64 < v)%Z) by lia.
    unfold strconv.FormatInt. destruct (Z.ltb_spec v 0); [lia|].
    now rewrite copy_uint64_overflow.
Qed.

Lemma Counter_out_of_range_witness :
  unmarshal_Counter
    (Counter_element "counter" "QryRTT10" "18446744073709551616")
    zero_Counter
  = (mkCounter "QryRTT10" 0,
     Some (ErrNum (strconv.mkNumError "ParseUint" "18446744073709551616"
                     strconv.ErrRange))).
Proof.
  apply (Counter_out_of_range "counter" "QryRTT10" 18446744073709551616).
  right. unfold strconv.maxUint64. lia.
Defined.

(** X9.  A task whose quantum is a number outside of [int64] does not decode:
    the decoder stops at the quantum with a range error. *)
Theorem Task_quantum_out_of_range (id name refs state : string) (q : Z) :
  (q < - 2 ^ 63 \/ 2 ^ 63 <= q)%Z ->
  unmarshal_Task (task_element id name (strconv.FormatInt q) refs state)
    zero_Task
  = (mkTask id name 0 0 "",
     Some (ErrNum (strconv.mkNumError "ParseInt" (strconv.FormatInt q)
                     strconv.ErrRange))).
Proof.
  intros Hq.
  pose proof (number_facts.ParseInt_overflow q Hq) as Hp.
  assert (Hne : strconv.FormatInt q <> "").
  { unfold strconv.FormatInt. destruct (q <? 0)%Z; [discriminate|].
    apply strconv_facts.FormatUint_not_empty. }
  unfold unmarshal_Task, unmarshal_struct, task_element, Task_fields.
  cbn -[strconv.FormatInt copy_int64 copy_uint64].
  unfold field, unmarshal_int64, unmarshal_uint64, unmarshal_string.
  cbn -[strconv.FormatInt copy_int64 copy_uint64].
  rewrite !string_facts.append_nil_r.
  unfold copy_int64.
  destruct (String.eqb_spec (strconv.FormatInt q) ""); [contradiction|].
  rewrite strings_facts.TrimSpace_FormatInt.
  destruct (strconv.ParseInt (strconv.FormatInt q)) as [z [e|]];
    cbn in Hp; [|discriminate].
  injection Hp as ->. reflexivity.
Qed.

Lemma Task_quantum_out_of_range_witness :
  unmarshal_Task
    (task_element "0x1" "server" "9223372036854775808" "3" "RUNNING")
    zero_Task
  = (mkTask "0x1" "server" 0 0 "",
     Some (ErrNum (strconv.mkNumError "ParseInt" "9223372036854775808"
                     strconv.ErrRange))).
Proof.
  apply (Task_quantum_out_of_range "0x1" "server" "3" "RUNNING"
           9223372036854775808).
  right. lia.
Defined.

(** The step of the decoder of a task manager on a task inside [tasks]. *)
Lemma TaskManager_task_step (t : Task) (s : TaskManager) :
  valid_Task t ->
  snd (unmarshalPath TaskManager_fields ["tasks"] (encode_Task t) s)
  = ok (set_TaskManager_Tasks (TaskManager_Tasks s ++ [t]) s).
Proof.
  intros Ht. unfold encode_Task, task_element, TaskManager_fields.
  cbn [unmarshalPath find_field same_parents length Nat.eqb Nat.ltb
       negb andb nth firstn Nat.add Nat.leb String.eqb Ascii.eqb Bool.eqb
       snd].
  unfold field, unmarshal_slice.
  fold (task_element (Task_ID t) (Task_Name t)
          (strconv.FormatInt (Task_Quantum t))
          (strconv.FormatUint (Task_References t)) (Task_State t)).
  fold (encode_Task t).
  now rewrite unmarshal_Task_encode.
Qed.

(** X10.  The document of a task manager decodes to the task manager: the thread
    model, and the tasks in the order of the document. *)
Theorem TaskManager_round_trip (tm : TaskManager) :
  valid_TaskManager tm ->
  Decode unmarshal_TaskManager (encode_TaskManager tm) zero_TaskManager
  = (tm, None).
Proof.
  intros [Hts Hm]. destruct tm as [ts m]. cbn in Hts, Hm.
  unfold encode_TaskManager, Decode, unmarshal_TaskManager, unmarshal_struct.
  cbn [node_attrs node_children unmarshal_attrs and_then ok
       TaskManager_Tasks TaskManager_ThreadModel].
  unfold unmarshal_children. cbn [tokens].
  assert (H1 : snd (unmarshalPath TaskManager_fields []
                      (encode_ThreadModel m) zero_TaskManager)
               = ok (mkTaskManager [] m)).
  { unfold encode_ThreadModel, ThreadModel_element, TaskManager_fields.
    cbn [unmarshalPath find_field same_parents length Nat.eqb Nat.ltb
         negb andb nth firstn Nat.add Nat.leb String.eqb Ascii.eqb Bool.eqb
         snd].
    unfold field.
    fold (ThreadModel_element (ThreadModel_Type m)
            (strconv.FormatUint (ThreadModel_WorkerThreads m))
            (strconv.FormatUint (ThreadModel_DefaultQuantum m))
            (strconv.FormatUint (ThreadModel_TasksRunning m))).
    fold (encode_ThreadModel m).
    cbn [TaskManager_ThreadModel zero_TaskManager].
    now rewrite unmarshal_ThreadModel_encode. }
  rewrite H1. cbn [and_then ok].
  assert (H2 : snd (unmarshalPath TaskManager_fields []
                      (Element "tasks" [] (map encode_Task ts))
                      (mkTaskManager [] m))
               = ok (mkTaskManager ts m)).
  { unfold TaskManager_fields at 1.
    cbn [unmarshalPath find_field same_parents length Nat.eqb Nat.ltb
         negb andb nth firstn Nat.add Nat.leb String.eqb Ascii.eqb Bool.eqb
         snd].
    fold TaskManager_fields.
    rewrite (tokens_map_append _ encode_Task TaskManager_Tasks
               set_TaskManager_Tasks valid_Task); try easy.
    - now intros [].
    - intros t s Ht. now apply TaskManager_task_step. }
  rewrite H2. reflexivity.
Qed.

Lemma TaskManager_round_trip_witness :
  Decode unmarshal_TaskManager
    (encode_TaskManager
       (mkTaskManager
          [mkTask "0x1" "server" (-1) 3 "RUNNING";
           mkTask "0x2" "zmgr" 5 1 "IDLE"]
          (mkThreadModel "threaded" 4 5 1)))
    zero_TaskManager
  = (mkTaskManager
       [mkTask "0x1" "server" (-1) 3 "RUNNING";
        mkTask "0x2" "zmgr" 5 1 "IDLE"]
       (mkThreadModel "threaded" 4 5 1), None).
Proof.
  apply TaskManager_round_trip. split.
  - repeat constructor; cbn; unfold is_int64, is_uint64; lia.
  - repeat split; cbn; lia.
Defined.

(** An element whose name is the name of a field is decoded by the decoder
    of the field. *)
Lemma unmarshalPath_perfect {S : Type} (fields : list (fieldInfo S))
  (e : Node) (name : string) (dec : Node -> S -> Decoded S) (s : S) :
  node_name e = Some name ->
  find_field fields [] name = Perfect S dec ->
  snd (unmarshalPath fields [] e s) = dec e s.
Proof.
  destruct e as [m attrs cs| |]; try discriminate.
  intros [= ->] H. cbn. now rewrite H.
Qed.

(** A slice field takes an element that decodes to [x]. *)
Lemma slice_field_step {S X : Type} (get : S -> list X)
  (set : list X -> S -> S) (zero : X) (unmarshal : Node -> X -> Decoded X)
  (e : Node) (x : X) (s : S) :
  unmarshal e zero = ok x ->
  field get set (unmarshal_slice zero unmarshal) e s
  = ok (set (get s ++ [x])%list s).
Proof.
  intros H. unfold field, unmarshal_slice. now rewrite H.
Qed.

Lemma View_Cache_step (g : Gauge) (s : View) :
  valid_Gauge g ->
  snd (unmarshalPath View_fields [] (encode_Gauge "Cache" g) s)
  = ok (set_View_Cache (View_Cache s ++ [g]) s).
Proof.
  intros Hg.
  rewrite (unmarshalPath_perfect View_fields (encode_Gauge "Cache" g)
             "Cache" _ _ eq_refl eq_refl).
  apply slice_field_step. now apply unmarshal_Gauge_encode.
Qed.

Lemma View_ResolverStats_step (c : Counter) (s : View) :
  valid_Counter c ->
  snd (unmarshalPath View_fields [] (encode_Counter "ResolverStats" c) s)
  = ok (set_View_ResolverStats (View_ResolverStats s ++ [c]) s).
Proof.
  intros Hc.
  rewrite (unmarshalPath_perfect View_fields
             (encode_Counter "ResolverStats" c) "ResolverStats" _ _
             eq_refl eq_refl).
  apply slice_field_step. now apply unmarshal_Counter_encode.
Qed.

Lemma View_ResolverQueries_step (c : Counter) (s : View) :
  valid_Counter c ->
  snd (unmarshalPath View_fields [] (encode_Counter "ResolverQueries" c) s)
  = ok (set_View_ResolverQueries (View_ResolverQueries s ++ [c]) s).
Proof.
  intros Hc.
  rewrite (unmarshalPath_perfect View_fields
             (encode_Counter "ResolverQueries" c) "ResolverQueries" _ _
             eq_refl eq_refl).
  apply slice_field_step. now apply unmarshal_Counter_encode.
Qed.

(** X11.  The document of a view decodes to the view: its name, and the gauges
    and counters of its three sequences in the order of the document. *)
Theorem View_round_trip (tag : string) (v : View) :
  valid_View v ->
  Decode unmarshal_View (encode_View tag v) zero_View = (v, None).
Proof.
  intros (Hc & Hs & Hq). destruct v as [name cache stats queries].
  cbn in Hc, Hs, Hq.
  unfold encode_View, Decode, unmarshal_View.
  rewrite unmarshal_struct_elements_only by reflexivity.
  cbn [node_children View_Name View_Cache View_ResolverStats
       View_ResolverQueries].
  unfold unmarshal_children. cbn [tokens].
  rewrite (unmarshalPath_perfect View_fields
             (Element "Name" [] [CharData name]) "Name" _ _
             eq_refl eq_refl).
  cbn [field unmarshal_string copy_string node_children chardata ok
       and_then View_Name].
  rewrite string_facts.append_nil_r, tokens_app.
  rewrite (tokens_map_append
             (fun c s => snd (unmarshalPath View_fields [] c s))
             (encode_Gauge "Cache") View_Cache
             set_View_Cache valid_Gauge
             (fun _ _ => eq_refl)
             (fun s => match s with mkView _ _ _ _ => eq_refl end)
             (fun _ _ _ => eq_refl) View_Cache_step cache _ Hc).
  cbn [and_then ok]. rewrite tokens_app.
  rewrite (tokens_map_append
             (fun c s => snd (unmarshalPath View_fields [] c s))
             (encode_Counter "ResolverStats")
             View_ResolverStats set_View_ResolverStats valid_Counter
             (fun _ _ => eq_refl)
             (fun s => match s with mkView _ _ _ _ => eq_refl end)
             (fun _ _ _ => eq_refl) View_ResolverStats_step stats _ Hs).
  cbn [and_then ok].
  rewrite (tokens_map_append
             (fun c s => snd (unmarshalPath View_fields [] c s))
             (encode_Counter "ResolverQueries")
             View_ResolverQueries set_View_ResolverQueries valid_Counter
             (fun _ _ => eq_refl)
             (fun s => match s with mkView _ _ _ _ => eq_refl end)
             (fun _ _ _ => eq_refl) View_ResolverQueries_step queries _ Hq).
  reflexivity.
Qed.

Lemma View_round_trip_witness :
  Decode unmarshal_View
    (encode_View "view"
       (mkView "_default" [mkGauge "A" 7]
          [mkCounter "QryRTT1" 10; mkCounter "QryRTT2" 5] []))
    zero_View
  = (mkView "_default" [mkGauge "A" 7]
       [mkCounter "QryRTT1" 10; mkCounter "QryRTT2" 5] [], None).
Proof.
  apply View_round_trip. unfold valid_View, valid_Gauge, valid_Counter.
  repeat split; repeat constructor; cbn; lia.
Defined.
Lemma ZoneCounter_ZoneRcode_step (c : Counter) (s : ZoneCounter) :
  valid_Counter c ->
  snd (unmarshalPath ZoneCounter_fields [] (encode_Counter "ZoneRcode" c) s)
  = ok (set_ZoneCounter_ZoneRcode (ZoneCounter_ZoneRcode s ++ [c]) s).
Proof.
  intros Hv.
  rewrite (unmarshalPath_perfect ZoneCounter_fields
             (encode_Counter "ZoneRcode" c) "ZoneRcode" _ _ eq_refl eq_refl).
  apply slice_field_step. now apply unmarshal_Counter_encode.
Qed.

Lemma ZoneCounter_ZoneQtype_step (c : Counter) (s : ZoneCounter) :
  valid_Counter c ->
  snd (unmarshalPath ZoneCounter_fields [] (encode_Counter "ZoneQtype" c) s)
  = ok (set_ZoneCounter_ZoneQtype (ZoneCounter_ZoneQtype s ++ [c]) s).
Proof.
  intros Hv.
  rewrite (unmarshalPath_perfect ZoneCounter_fields
             (encode_Counter "ZoneQtype" c) "ZoneQtype" _ _ eq_refl eq_refl).
  apply slice_field_step. now apply unmarshal_Counter_encode.
Qed.

Lemma unmarshal_ZoneCounter_encode (tag : string) (z : ZoneCounter) :
  valid_ZoneCounter z ->
  unmarshal_ZoneCounter (encode_ZoneCounter tag z) zero_ZoneCounter = ok z.
Proof.
  intros (Hr & Hq). destruct z as [name serial rcodes qtypes].
  cbn in Hr, Hq.
  unfold encode_ZoneCounter, unmarshal_ZoneCounter.
  rewrite unmarshal_struct_elements_only by reflexivity.
  cbn [node_children ZoneCounter_Name ZoneCounter_Serial
       ZoneCounter_ZoneRcode ZoneCounter_ZoneQtype].
  unfold unmarshal_children. cbn [tokens].
  rewrite (unmarshalPath_perfect ZoneCounter_fields
             (Element "Name" [] [CharData name]) "Name" _ _
             eq_refl eq_refl).
  cbn [field unmarshal_string copy_string node_children chardata ok
       and_then ZoneCounter_Name].
  rewrite (unmarshalPath_perfect ZoneCounter_fields
             (Element "Serial" [] [CharData serial]) "Serial" _ _
             eq_refl eq_refl).
  cbn [field unmarshal_string copy_string node_children chardata ok
       and_then ZoneCounter_Serial].
  rewrite !string_facts.append_nil_r, tokens_app.
  rewrite (tokens_map_append
             (fun c s => snd (unmarshalPath ZoneCounter_fields [] c s))
             (encode_Counter "ZoneRcode") ZoneCounter_ZoneRcode set_ZoneCounter_ZoneRcode valid_Counter
             (fun _ _ => eq_refl)
             (fun s => match s with mkZoneCounter _ _ _ _ => eq_refl end)
             (fun _ _ _ => eq_refl) ZoneCounter_ZoneRcode_step rcodes _ Hr).
  cbn [and_then ok].
  rewrite (tokens_map_append
             (fun c s => snd (unmarshalPath ZoneCounter_fields [] c s))
             (encode_Counter "ZoneQtype") ZoneCounter_ZoneQtype set_ZoneCounter_ZoneQtype valid_Counter
             (fun _ _ => eq_refl)
             (fun s => match s with mkZoneCounter _ _ _ _ => eq_refl end)
             (fun _ _ _ => eq_refl) ZoneCounter_ZoneQtype_step qtypes _ Hq).
  reflexivity.
Qed.

Lemma ZoneView_ZoneData_step (z : ZoneCounter) (s : ZoneView) :
  valid_ZoneCounter z ->
  snd (unmarshalPath ZoneView_fields [] (encode_ZoneCounter "ZoneData" z) s)
  = ok (set_ZoneView_ZoneData (ZoneView_ZoneData s ++ [z]) s).
Proof.
  intros Hv.
  rewrite (unmarshalPath_perfect ZoneView_fields
             (encode_ZoneCounter "ZoneData" z) "ZoneData" _ _ eq_refl eq_refl).
  apply slice_field_step. now apply unmarshal_ZoneCounter_encode.
Qed.

(** X12.  The document of a zone view decodes to the zone view: the zones in
    the order of the document, each with its name, its serial as text and
    its counters in order. *)
Theorem ZoneView_round_trip (tag : string) (z : ZoneView) :
  valid_ZoneView z ->
  Decode unmarshal_ZoneView (encode_ZoneView tag z) zero_ZoneView
  = (z, None).
Proof.
  intros Hz. destruct z as [name zones]. cbn in Hz.
  unfold valid_ZoneView in Hz. cbn in Hz.
  unfold encode_ZoneView, Decode, unmarshal_ZoneView.
  rewrite unmarshal_struct_elements_only by reflexivity.
  cbn [node_children ZoneView_Name ZoneView_ZoneData].
  unfold unmarshal_children. cbn [tokens].
  rewrite (unmarshalPath_perfect ZoneView_fields
             (Element "Name" [] [CharData name]) "Name" _ _
             eq_refl eq_refl).
  cbn [field unmarshal_string copy_string node_children chardata ok
       and_then ZoneView_Name].
  rewrite string_facts.append_nil_r.
  rewrite (tokens_map_append
             (fun c s => snd (unmarshalPath ZoneView_fields [] c s))
             (encode_ZoneCounter "ZoneData") ZoneView_ZoneData set_ZoneView_ZoneData valid_ZoneCounter
             (fun _ _ => eq_refl)
             (fun s => match s with mkZoneView _ _ => eq_refl end)
             (fun _ _ _ => eq_refl) ZoneView_ZoneData_step zones _ Hz).
  reflexivity.
Qed.

Lemma ZoneView_round_trip_witness :
  Decode unmarshal_ZoneView
    (encode_ZoneView "view"
       (mkZoneView "_default"
          [mkZoneCounter "example.org" "2024010101"
             [mkCounter "NOERROR" 12] [mkCounter "A" 9; mkCounter "MX" 3];
           mkZoneCounter "example.net" "-" [] []]))
    zero_ZoneView
  = (mkZoneView "_default"
       [mkZoneCounter "example.org" "2024010101"
          [mkCounter "NOERROR" 12] [mkCounter "A" 9; mkCounter "MX" 3];
        mkZoneCounter "example.net" "-" [] []], None).
Proof.
  apply ZoneView_round_trip.
  unfold valid_ZoneView, valid_ZoneCounter, valid_Counter.
  repeat constructor; cbn; lia.
Defined.

(** X13.  An element that no field of a struct of the model takes does not
    matter: a document decodes to the same value, with the same error if
    any, as the document without the child elements of that name.  A
    counter takes no child element at all. *)
Theorem unknown_elements_skipped (T : TimeLib) (name : string) (doc : Node) :
  (forall v, Decode unmarshal_Counter (omit name doc) v
             = Decode unmarshal_Counter doc v)
  /\ (~ In name ["name"; "counter"] ->
      forall v, Decode unmarshal_Gauge (omit name doc) v
                = Decode unmarshal_Gauge doc v)
  /\ (~ In name ["id"; "name"; "quantum"; "references"; "state"] ->
      forall v, Decode unmarshal_Task (omit name doc) v
                = Decode unmarshal_Task doc v)
  /\ (~ In name ["type"; "worker-threads"; "default-quantum";
                 "tasks-running"] ->
      forall v, Decode unmarshal_ThreadModel (omit name doc) v
                = Decode unmarshal_ThreadModel doc v)
  /\ (~ In name ["tasks"; "thread-model"] ->
      forall v, Decode unmarshal_TaskManager (omit name doc) v
                = Decode unmarshal_TaskManager doc v)
  /\ (~ In name ["Name"; "Cache"; "ResolverStats"; "ResolverQueries"] ->
      forall v, Decode unmarshal_View (omit name doc) v
                = Decode unmarshal_View doc v)
  /\ (~ In name ["Name"; "Serial"; "ZoneRcode"; "ZoneQtype"] ->
      forall v, Decode unmarshal_ZoneCounter (omit name doc) v
                = Decode unmarshal_ZoneCounter doc v)
  /\ (~ In name ["Name"; "ZoneData"] ->
      forall v, Decode unmarshal_ZoneView (omit name doc) v
                = Decode unmarshal_ZoneView doc v)
  /\ (~ In name ["BootTime"; "ConfigTime"; "IncomingQueries";
                 "IncomingRequests"; "NameServerStats"; "ZoneStatistics";
                 "ServerRcodes"] ->
      forall v, Decode (unmarshal_Server T) (omit name doc) v
                = Decode (unmarshal_Server T) doc v)
  /\ (~ In name ["Server"; "Views"; "ZoneViews"; "TaskManager"] ->
      forall v, Decode (unmarshal_Statistics T) (omit name doc) v
                = Decode (unmarshal_Statistics T) doc v).
Proof.
  repeat split; intros; now apply unknown_elements_struct.
Qed.

Lemma unknown_elements_skipped_witness :
  Decode unmarshal_TaskManager
    (omit "new-section"
       (Element "taskmgr" []
          [Element "new-section" [] [Element "tasks" [] []];
           Element "thread-model" []
             [Element "worker-threads" [] [CharData "4"]]]))
    zero_TaskManager
  = (mkTaskManager [] (mkThreadModel "" 4 0 0), None).
Proof.
  rewrite (proj1 (proj2 (proj2 (proj2 (proj2
             (unknown_elements_skipped example.timelib "new-section"
                (Element "taskmgr" []
                   [Element "new-section" [] [Element "tasks" [] []];
                    Element "thread-model" []
                      [Element "worker-threads" [] [CharData "4"]]]))))))).
  - reflexivity.
  - cbn. intuition discriminate.
Defined.

End document_facts.

(** * More on [path.Join] *)

Module path_more.
Import path.

Lemma rooted_app (a b : string) :
  a <> "" -> rooted (a ++ b) = rooted a.
Proof. destruct a; [congruence | reflexivity]. Qed.

(** Two slashes in a row are cleaned like one. *)
Lemma Clean_double_slash (a b : string) :
  Clean (a ++ String slash (String slash b)) = Clean (a ++ String slash b).
Proof.
  unfold Clean.
  destruct (String.eqb_spec (a ++ String slash (String slash b)) "") as [H|_].
  { apply string_facts.append_eq_nil in H as [_ H]. discriminate. }
  destruct (String.eqb_spec (a ++ String slash b) "") as [H|_].
  { apply string_facts.append_eq_nil in H as [_ H]. discriminate. }
  assert (Hr : rooted (a ++ String slash (String slash b))
               = rooted (a ++ String slash b)).
  { destruct a; reflexivity. }
  rewrite Hr. f_equal. unfold clean_elements. f_equal.
  rewrite !path_facts.elements_app_slash. cbn [elements].
  rewrite Ascii.eqb_refl.
  rewrite !fold_left_app. reflexivity.
Qed.

(** The join with the empty path is the cleaned base path. *)
Lemma Clean_trailing_slash (a : string) :
  a <> "" -> Clean (a ++ String slash "") = Clean a.
Proof.
  intros Ha. unfold Clean.
  destruct (String.eqb_spec (a ++ String slash "") "") as [H|_].
  { apply string_facts.append_eq_nil in H as [_ H]. discriminate. }
  destruct (String.eqb_spec a ""); [contradiction|].
  rewrite rooted_app by exact Ha. f_equal. unfold clean_elements. f_equal.
  rewrite path_facts.elements_app_slash, fold_left_app. reflexivity.
Qed.

Lemma clean_step_segment (out : list string) (e : string) :
  Forall segment out -> has_slash e = false ->
  Forall segment (clean_step true out e).
Proof.
  intros Hout He. unfold clean_step.
  destruct (String.eqb_spec e ""); [exact Hout|].
  destruct (String.eqb_spec e "."); [exact Hout|].
  destruct (String.eqb_spec e "..").
  - destruct out as [|top rest]; [exact Hout|].
    destruct (String.eqb top ".."); [exact Hout|]. now inversion Hout.
  - constructor; [|exact Hout]. repeat split; assumption.
Qed.

Lemma fold_clean_step_segment (es out : list string) :
  Forall segment out ->
  Forall (fun e => has_slash e = false) es ->
  Forall segment (fold_left (clean_step true) es out).
Proof.
  revert out. induction es as [|e es IH]; intros out Hout Hes; cbn.
  - exact Hout.
  - inversion Hes; subst. apply IH; [|assumption].
    now apply clean_step_segment.
Qed.

(** A cleaned rooted path is a slash followed by segments separated by
    slashes. *)
Lemma Clean_rooted (p : string) :
  rooted p = true ->
  exists es, Clean p = String slash (String.concat "/" es)
             /\ Forall segment es.
Proof.
  intros Hr. exists (clean_elements true (elements p)). split.
  - unfold Clean. destruct p as [|c p]; [discriminate|].
    cbn [String.eqb]. rewrite Hr. reflexivity.
  - unfold clean_elements. apply Forall_rev.
    apply fold_clean_step_segment;
      [constructor | apply path_facts.elements_no_slash].
Qed.

End path_more.

(** * The requests of the transport *)

Module request_facts.
Import errors fmt bind.

Section Facts.
Context (E : Env).

Implicit Types (c : XMLClient E) (p : string) (v : V E) (w : World E).

Lemma count_app (kind : Event E -> bool) (l1 l2 : list (Event E)) :
  count E kind (l1 ++ l2) = (count E kind l1 + count E kind l2)%nat.
Proof. unfold count. now rewrite filter_app, length_app. Qed.

(** X1.  A call of [Get] makes one request when the base URL parses and none
    when it does not, in which case nothing happens in the world; and on
    every path it closes as many bodies as it has opened. *)
Theorem Get_requests_and_bodies c p v w :
  count E (is_request E) (trace (world (Get E c p v w)))
  = (count E (is_request E) (trace w)
     + match url_Parse E (url c) with inl _ => 1 | inr _ => 0 end)%nat
  /\ (count E (is_open E) (trace (world (Get E c p v w)))
      + count E (is_close E) (trace w)
      = count E (is_close E) (trace (world (Get E c p v w)))
        + count E (is_open E) (trace w))%nat
  /\ (forall e, url_Parse E (url c) = inr e -> world (Get E c p v w) = w).
Proof.
  destruct (url_Parse E (url c)) as [u|e] eqn:Hp.
  - destruct (http_Get E (http c) (target_URL E u p) (net w))
      as [[[[st code] b]|e] n] eqn:Hg.
    + destruct (Z.eq_dec code StatusOK) as [Hc|Hc].
      * subst code.
        destruct (xml_Decode E b v n) as [[v' r] n'] eqn:Hd.
        rewrite (transport_facts.Get_decoded E c p v w u st b n v' r n'
                   Hp Hg Hd).
        cbn [world trace]. rewrite !count_app. cbn.
        repeat split; try lia. discriminate.
      * rewrite (transport_facts.Get_bad_status E c p v w u st code b n
                   Hp Hg Hc).
        cbn [world trace]. rewrite !count_app. cbn.
        repeat split; try lia. discriminate.
    + rewrite (transport_facts.Get_transport_error E c p v w u e n Hp Hg).
      cbn [world trace]. rewrite !count_app. cbn.
      repeat split; try lia. discriminate.
  - rewrite (transport_facts.Get_invalid_URL E c p v w e Hp).
    cbn [world trace]. repeat split; lia.
Qed.

(** X2.  When the status is 200 the value [v] is, after [Get], what the decoder
    has made of it, also when the decoder stops with an error; and [Get]
    returns no error exactly when the decoder returns none. *)
Theorem Get_decodes_into_target c p v w u st b n v' r n' :
  url_Parse E (url c) = inl u ->
  http_Get E (http c) (target_URL E u p) (net w)
  = (inl (st, StatusOK, b), n) ->
  xml_Decode E b v n = (v', r, n') ->
  target (Get E c p v w) = v'
  /\ (err (Get E c p v w) = None <-> r = None)
  /\ net (world (Get E c p v w)) = body_Close E b n'.
Proof.
  intros Hp Hg Hd.
  rewrite (transport_facts.Get_decoded E c p v w u st b n v' r n' Hp Hg Hd).
  cbn. repeat split; destruct r; intros; congruence.
Qed.

(** X3.  Slashes in excess between the base path and the path requested do not
    change the URL requested. *)
Theorem Get_surplus_slashes (u : URL) (base p : string) :
  base <> "" ->
  target_URL E (set_Path u (base ++ "/")) (String "/" p)
  = target_URL E (set_Path u base) p.
Proof.
  intros Hb.
  assert (HJ : path.Join [base ++ "/"; String "/" p] = path.Join [base; p]).
  { rewrite !path_facts.Join_base; [|exact Hb|].
    - rewrite string_facts.append_assoc. cbn [append].
      etransitivity;
        [apply (path_more.Clean_double_slash base (String "/" p))|].
      apply (path_more.Clean_double_slash base p).
    - intros H. apply string_facts.append_eq_nil in H as [H _].
      now apply Hb. }
  unfold target_URL, set_Path. cbn [Path Scheme Host RawQuery].
  now rewrite HJ.
Qed.

(** X4.  With the empty path [Get] requests the base URL itself, its path
    cleaned; a base URL without path is requested as it is. *)
Theorem Get_empty_path (u : URL) :
  target_URL E u ""
  = URL_String E
      (set_Path u
         (if String.eqb (Path u) "" then "" else path.Clean (Path u))).
Proof.
  unfold target_URL. do 2 f_equal.
  destruct (String.eqb_spec (Path u) "") as [->|Hne]; [reflexivity|].
  rewrite path_facts.Join_base by exact Hne.
  now apply path_more.Clean_trailing_slash.
Qed.

(** X5.  When the path of the base URL starts with a slash, so does the path
    requested, whatever [p]: it is a slash followed by elements separated
    by slashes, none of which is empty, a dot or two dots. *)
Theorem Get_rooted_request_path (u : URL) (p : string) :
  path.rooted (Path u) = true ->
  exists es,
    target_URL E u p
    = URL_String E (set_Path u (String "/" (String.concat "/" es)))
    /\ Forall path.segment es.
Proof.
  intros Hr.
  assert (Hne : Path u <> "") by (intros H; rewrite H in Hr; discriminate).
  destruct (path_more.Clean_rooted (Path u ++ String path.slash p))
    as (es & Hc & Hes).
  { now rewrite path_more.rooted_app. }
  exists es. split; [|exact Hes].
  unfold target_URL. do 2 f_equal.
  now rewrite path_facts.Join_base.
Qed.

End Facts.

Import example.

Lemma Get_decodes_into_target_witness :
  target (Get env client "broken" zero_TaskManager world0) = zero_TaskManager
  /\ (err (Get env client "broken" zero_TaskManager world0) = None
      <-> Some (errorString "XML syntax error on line 1: unexpected EOF")
          = None)
  /\ net (world (Get env client "broken" zero_TaskManager world0)) = 1%nat.
Proof.
  apply (Get_decodes_into_target env client "broken" zero_TaskManager world0
           (mkURL "http" "localhost:8053" "/stats" "") "200 OK" None 1%nat
           zero_TaskManager
           (Some (errorString "XML syntax error on line 1: unexpected EOF"))
           1%nat).
  - reflexivity.
  - reflexivity.
  - reflexivity.
Defined.

Lemma Get_surplus_slashes_witness :
  target_URL env (mkURL "http" "localhost:8053" "/stats/" "") "/tasks"
  = "http://localhost:8053/stats/tasks".
Proof.
  apply (Get_surplus_slashes env (mkURL "http" "localhost:8053" "" "")
           "/stats" "tasks").
  discriminate.
Defined.

Lemma Get_rooted_request_path_witness :
  exists es,
    target_URL env (mkURL "http" "localhost:8053" "/stats" "")
      "../../etc/passwd"
    = bind.URL_String env
        (set_Path (mkURL "http" "localhost:8053" "/stats" "")
           (String "/" (String.concat "/" es)))
    /\ Forall path.segment es.
Proof.
  apply (Get_rooted_request_path env
           (mkURL "http" "localhost:8053" "/stats" "") "../../etc/passwd").
  reflexivity.
Defined.

End request_facts.
